(** * RView: the rendering and compositing core of the MIRTK viewer

    A shallow embedding of [src/RView.cc] and theorems about it.

    Conventions of the embedding.
    - A C++ [double] is a rational ([Q]).  Every floating-point operation
      that a theorem below depends on (multiplication by 0, 1 or 1/2,
      sums of integers and halves below 2^53, negation, comparison) is exact
      in IEEE arithmetic, so the rational model agrees with the machine there.
    - An [int] and a [GreyPixel] are integers ([Z]); an [unsigned char] is an
      integer kept in [0, 256) by [uchar].
    - The object state of [RView] is the record [RView]; a member function is
      a function from states to states.  [exit(1)] is the outcome [Exit].
    - Classes that [RView.cc] only calls into (lookup tables, voxel contours,
      the MIRTK resampling filter, the C library) appear as interfaces
      ([Class]) whose methods are left open. *)

From Stdlib Require Import ZArith QArith Qround List String Ascii Bool Lia.
Import ListNotations.
Open Scope Z_scope.

(* ===================================================================== *)
(** * Numbers *)
(* ===================================================================== *)

(** [int(x)] for a [double] x: truncation towards zero. *)
Definition int_of_double (x : Q) : Z :=
  if Qle_bool 0 x then Qfloor x else Qceiling x.

(** Conversion of an [int] to [unsigned char]. *)
Definition uchar (z : Z) : Z := z mod 256.

(** C's [round]: to the nearest integer, halfway cases away from zero. *)
Definition round (x : Q) : Q :=
  if Qle_bool 0 x then inject_Z (Qfloor (x + (1 # 2)))
  else inject_Z (- Qfloor (- x + (1 # 2))).

(** [int / (double) int].  For a divisor of 0 the code computes an infinity
    or a NaN, which the rationals do not have: the statements that depend on
    the value of the quotient are for a divisor that is not 0. *)
Definition ratio (n d : Z) : Q := (inject_Z n / inject_Z d)%Q.

(* ===================================================================== *)
(** * Data model *)
(* ===================================================================== *)

(** Modelled from the spec: the pixel type of a drawable ([Color.h] is not
    among the sources).  The rendering sink is an RGB pixel buffer, so a
    drawable pixel has the three 8-bit channels the compositor assigns. *)
Record Color := mkColor { r : Z; g : Z; b : Z }.

(** Modelled from the spec: an entry of a lookup table, a colour with an
    alpha ([LookupTable::At] returns it; the compositor reads [.r .g .b .a]). *)
Module RGBA.
Record t := mk { r : Z; g : Z; b : Z; a : Q }.
End RGBA.

(** [*ptr3 = lut->At(v)]: the three channels are copied. *)
Definition Color_of (c : RGBA.t) : Color :=
  mkColor (RGBA.r c) (RGBA.g c) (RGBA.b c).

Inductive ColorMode :=
| ColorMode_Red | ColorMode_Green | ColorMode_Blue
| ColorMode_Luminance | ColorMode_Rainbow.

(** Modelled from the spec: LookupTable = {minDisplay, maxDisplay, colorMode}
    ([LookupTable.h] is not among the sources). *)
Record LookupTable := mkLookupTable {
  _minDisplay : Z;
  _maxDisplay : Z;
  _mode       : ColorMode
}.

Definition GetMinDisplayIntensity (l : LookupTable) : Z := _minDisplay l.
Definition GetMaxDisplayIntensity (l : LookupTable) : Z := _maxDisplay l.
Definition GetColorMode (l : LookupTable) : ColorMode := _mode l.

(** Modelled from the spec: the setters store their argument. *)
Definition SetMinDisplayIntensity (v : Z) (l : LookupTable) : LookupTable :=
  mkLookupTable v (_maxDisplay l) (_mode l).
Definition SetMaxDisplayIntensity (v : Z) (l : LookupTable) : LookupTable :=
  mkLookupTable (_minDisplay l) v (_mode l).
Definition SetColorMode (m : ColorMode) (l : LookupTable) : LookupTable :=
  mkLookupTable (_minDisplay l) (_maxDisplay l) m.

(** Segment table entry: [_visible], [_trans], [_color]. *)
Record SegmentEntry := mkSegmentEntry {
  _visible : bool;
  _trans   : Q;
  _color   : Color
}.

Definition Point : Type := (Q * Q * Q)%type.
Definition Vec3  : Type := (Q * Q * Q)%type.

Definition vneg (v : Vec3) : Vec3 :=
  let '(x, y, z) := v in ((- x)%Q, (- y)%Q, (- z)%Q).

(** [v[0] *= -1; v[1] *= -1; v[2] *= -1]. *)
Definition vflip (v : Vec3) : Vec3 :=
  let '(x, y, z) := v in ((x * (-1 # 1))%Q, (y * (-1 # 1))%Q, (z * (-1 # 1))%Q).

Inductive OrientationCode :=
| Orientation_Unknown | L2R | R2L | P2A | A2P | I2S | S2I.

(** A MIRTK image as far as [RView] looks into it: its size in voxels, its
    voxel size, its voxels in storage order, the two coordinate maps and the
    orientation queries. *)
Record Image := mkImage {
  GetX : Z;
  GetY : Z;
  GetZ : Z;
  GetXSize : Q;
  GetYSize : Q;
  GetZSize : Q;
  voxels : list Z;
  ImageToWorld : Point -> Point;
  WorldToImage : Point -> Point;
  GetOrigin : Point;
  GetOrientation : Vec3 * Vec3 * Vec3;
  Orientation : OrientationCode * OrientationCode * OrientationCode
}.

Definition IsEmpty (im : Image) : bool :=
  match voxels im with [] => true | _ :: _ => false end.

Inductive ViewerMode := Viewer_XY | Viewer_XZ | Viewer_YZ | Viewer_None.

(** A viewer: its viewport rectangle in normalized screen coordinates, its
    size in pixels and the plane it shows. *)
Record Viewer := mkViewer {
  vp_x1 : Q; vp_y1 : Q; vp_x2 : Q; vp_y2 : Q;
  GetWidth : Z;
  GetHeight : Z;
  GetViewerMode : ViewerMode
}.

(** The per-viewer members of [RView]: entry k of the arrays [_viewer],
    [_isSourceViewer], [_targetImageOutput], [_sourceImageOutput],
    [_segmentationImageOutput], [_selectionImageOutput] and [_drawable]. *)
Record Slot := mkSlot {
  _viewer : Viewer;
  _isSourceViewer : bool;
  _targetImageOutput : Image;
  _sourceImageOutput : Image;
  _segmentationImageOutput : Image;
  _selectionImageOutput : Image;
  _drawable : list Color
}.

(** Modelled from the spec: a voxel contour is a boundary point sequence, a
    raster and an undo history ([VoxelContour.h] is not among the sources). *)
Record VoxelContour := mkVoxelContour {
  contour_points : list Point;
  _raster : Image;
  contour_history : list Image
}.

Definition Size (c : VoxelContour) : Z := Z.of_nat (List.length (contour_points c)).

Inductive RViewMode :=
| View_A | View_B | View_Checkerboard | View_Subtraction
| View_HShutter | View_VShutter | View_AoverB | View_BoverA.

Inductive ConfigViewerMode :=
| _View_XY | _View_XZ | _View_YZ
| _View_XY_XZ_v | _View_XY_YZ_v | _View_XZ_YZ_v
| _View_XY_XZ_h | _View_XY_YZ_h | _View_XZ_YZ_h
| _View_XY_XZ_YZ
| _View_AB_XY_v | _View_AB_XZ_v | _View_AB_YZ_v | _View_AB_XY_XZ_v
| _View_AB_XY_h | _View_AB_XZ_h | _View_AB_YZ_h | _View_AB_XY_XZ_h.

Inductive InterpolationMode :=
| Interpolation_NN | Interpolation_Linear | Interpolation_CSpline
| Interpolation_BSpline | Interpolation_Sinc.

Inductive DisplayMode := Neurological | Radiological | Native.

Inductive CursorMode := CrossHair | CursorX | CursorV | CursorBar.

Inductive ContourMode := FirstPoint | NewPoint | LastPoint.

Inductive RegionGrowingMode := RegionGrowing2D | RegionGrowing3D.

(** The four roles a resampling filter is run for. *)
Inductive Role := Target | Source | Segmentation | Selection.

(** The members of [RView] that the functions below read or write.  An
    interpolator is identified with the mode it was created for. *)
Record RView := mkRView {
  _screenX : Z;
  _screenY : Z;
  _origin_x : Q;
  _origin_y : Q;
  _origin_z : Q;
  _resolution : Q;
  _xaxis : Vec3;
  _yaxis : Vec3;
  _zaxis : Vec3;
  _FlipX : bool;
  _FlipY : bool;
  _FlipZ : bool;
  _viewMode : RViewMode;
  _viewMix : Q;
  _targetInterpolator : InterpolationMode;
  _sourceInterpolator : InterpolationMode;
  _DisplaySegmentationLabels : bool;
  _SegmentationMode : Z;
  _PaintBrushWidth : Z;
  _DisplayTargetContour : bool;
  _DisplaySourceContour : bool;
  _DisplayCursor : bool;
  _DisplayMode : DisplayMode;
  _CursorMode : CursorMode;
  _DisplayDeformationGrid : bool;
  _DisplayDeformationPoints : bool;
  _DisplayDeformationArrows : bool;
  _contourViewer : Z;
  _contourViewerMode : ViewerMode;
  _slots : list Slot;
  _targetUpdate : bool;
  _sourceUpdate : bool;
  _segmentationUpdate : bool;
  _selectionUpdate : bool;
  _DisplayLandmarks : bool;
  _DisplayObject : bool;
  _DisplayObjectWarp : bool;
  _DisplayObjectGrid : bool;
  _targetImage : Image;
  _sourceImage : Image;
  _segmentationImage : Image;
  _segmentTable : Z -> SegmentEntry;
  _targetLookupTable : LookupTable;
  _sourceLookupTable : LookupTable;
  _subtractionLookupTable : LookupTable;
  _regionGrowingMode : RegionGrowingMode;
  _RegionGrowingThresholdMin : Z;
  _RegionGrowingThresholdMax : Z;
  _configMode : ConfigViewerMode;
  _x1 : Q; _y1 : Q; _z1 : Q;
  _x2 : Q; _y2 : Q; _z2 : Q;
  _voxelContour : VoxelContour;
  cerr : list string
}.

Definition _NoOfViewers (s : RView) : Z := Z.of_nat (List.length (_slots s)).

(** The eta-expansion of a state, from which the field updates are read off. *)
Definition RView_eta (s : RView) : RView :=
  mkRView
    (_screenX s) (_screenY s) (_origin_x s) (_origin_y s) (_origin_z s)
    (_resolution s) (_xaxis s) (_yaxis s) (_zaxis s) (_FlipX s) (_FlipY s)
    (_FlipZ s) (_viewMode s) (_viewMix s) (_targetInterpolator s)
    (_sourceInterpolator s) (_DisplaySegmentationLabels s)
    (_SegmentationMode s) (_PaintBrushWidth s) (_DisplayTargetContour s)
    (_DisplaySourceContour s) (_DisplayCursor s) (_DisplayMode s)
    (_CursorMode s) (_DisplayDeformationGrid s)
    (_DisplayDeformationPoints s) (_DisplayDeformationArrows s)
    (_contourViewer s) (_contourViewerMode s) (_slots s) (_targetUpdate s)
    (_sourceUpdate s) (_segmentationUpdate s) (_selectionUpdate s)
    (_DisplayLandmarks s) (_DisplayObject s) (_DisplayObjectWarp s)
    (_DisplayObjectGrid s) (_targetImage s) (_sourceImage s)
    (_segmentationImage s) (_segmentTable s) (_targetLookupTable s)
    (_sourceLookupTable s) (_subtractionLookupTable s)
    (_regionGrowingMode s) (_RegionGrowingThresholdMin s)
    (_RegionGrowingThresholdMax s) (_configMode s) (_x1 s) (_y1 s) (_z1 s)
    (_x2 s) (_y2 s) (_z2 s) (_voxelContour s) (cerr s).

(** [set_field proj] builds the function that replaces the member [proj]
    and keeps every other member. *)
Ltac set_field proj :=
  let v := fresh "v" in
  let s := fresh "s" in
  intros v s;
  let e := eval cbv beta delta [RView_eta] in (RView_eta s) in
  let e' := eval pattern (proj s) in e in
  match e' with
  | ?f _ => let t := eval cbv beta in (f v) in exact t
  end.

Definition set_screenX : Z -> RView -> RView := ltac:(set_field _screenX).
Definition set_screenY : Z -> RView -> RView := ltac:(set_field _screenY).
Definition set_origin_x : Q -> RView -> RView := ltac:(set_field _origin_x).
Definition set_origin_y : Q -> RView -> RView := ltac:(set_field _origin_y).
Definition set_origin_z : Q -> RView -> RView := ltac:(set_field _origin_z).
Definition set_resolution : Q -> RView -> RView := ltac:(set_field _resolution).
Definition set_xaxis : Vec3 -> RView -> RView := ltac:(set_field _xaxis).
Definition set_yaxis : Vec3 -> RView -> RView := ltac:(set_field _yaxis).
Definition set_zaxis : Vec3 -> RView -> RView := ltac:(set_field _zaxis).
Definition set_FlipX : bool -> RView -> RView := ltac:(set_field _FlipX).
Definition set_FlipY : bool -> RView -> RView := ltac:(set_field _FlipY).
Definition set_FlipZ : bool -> RView -> RView := ltac:(set_field _FlipZ).
Definition set_viewMode : RViewMode -> RView -> RView := ltac:(set_field _viewMode).
Definition set_viewMix : Q -> RView -> RView := ltac:(set_field _viewMix).
Definition set_targetInterpolator : InterpolationMode -> RView -> RView := ltac:(set_field _targetInterpolator).
Definition set_sourceInterpolator : InterpolationMode -> RView -> RView := ltac:(set_field _sourceInterpolator).
Definition set_DisplaySegmentationLabels : bool -> RView -> RView := ltac:(set_field _DisplaySegmentationLabels).
Definition set_SegmentationMode : Z -> RView -> RView := ltac:(set_field _SegmentationMode).
Definition set_PaintBrushWidth : Z -> RView -> RView := ltac:(set_field _PaintBrushWidth).
Definition set_DisplayTargetContour : bool -> RView -> RView := ltac:(set_field _DisplayTargetContour).
Definition set_DisplaySourceContour : bool -> RView -> RView := ltac:(set_field _DisplaySourceContour).
Definition set_DisplayCursor : bool -> RView -> RView := ltac:(set_field _DisplayCursor).
Definition set_DisplayMode : DisplayMode -> RView -> RView := ltac:(set_field _DisplayMode).
Definition set_CursorMode : CursorMode -> RView -> RView := ltac:(set_field _CursorMode).
Definition set_DisplayDeformationGrid : bool -> RView -> RView := ltac:(set_field _DisplayDeformationGrid).
Definition set_DisplayDeformationPoints : bool -> RView -> RView := ltac:(set_field _DisplayDeformationPoints).
Definition set_DisplayDeformationArrows : bool -> RView -> RView := ltac:(set_field _DisplayDeformationArrows).
Definition set_contourViewer : Z -> RView -> RView := ltac:(set_field _contourViewer).
Definition set_contourViewerMode : ViewerMode -> RView -> RView := ltac:(set_field _contourViewerMode).
Definition set_slots : (list Slot) -> RView -> RView := ltac:(set_field _slots).
Definition set_targetUpdate : bool -> RView -> RView := ltac:(set_field _targetUpdate).
Definition set_sourceUpdate : bool -> RView -> RView := ltac:(set_field _sourceUpdate).
Definition set_segmentationUpdate : bool -> RView -> RView := ltac:(set_field _segmentationUpdate).
Definition set_selectionUpdate : bool -> RView -> RView := ltac:(set_field _selectionUpdate).
Definition set_DisplayLandmarks : bool -> RView -> RView := ltac:(set_field _DisplayLandmarks).
Definition set_DisplayObject : bool -> RView -> RView := ltac:(set_field _DisplayObject).
Definition set_DisplayObjectWarp : bool -> RView -> RView := ltac:(set_field _DisplayObjectWarp).
Definition set_DisplayObjectGrid : bool -> RView -> RView := ltac:(set_field _DisplayObjectGrid).
Definition set_targetImage : Image -> RView -> RView := ltac:(set_field _targetImage).
Definition set_sourceImage : Image -> RView -> RView := ltac:(set_field _sourceImage).
Definition set_segmentationImage : Image -> RView -> RView := ltac:(set_field _segmentationImage).
Definition set_segmentTable : (Z -> SegmentEntry) -> RView -> RView := ltac:(set_field _segmentTable).
Definition set_targetLookupTable : LookupTable -> RView -> RView := ltac:(set_field _targetLookupTable).
Definition set_sourceLookupTable : LookupTable -> RView -> RView := ltac:(set_field _sourceLookupTable).
Definition set_subtractionLookupTable : LookupTable -> RView -> RView := ltac:(set_field _subtractionLookupTable).
Definition set_regionGrowingMode : RegionGrowingMode -> RView -> RView := ltac:(set_field _regionGrowingMode).
Definition set_RegionGrowingThresholdMin : Z -> RView -> RView := ltac:(set_field _RegionGrowingThresholdMin).
Definition set_RegionGrowingThresholdMax : Z -> RView -> RView := ltac:(set_field _RegionGrowingThresholdMax).
Definition set_configMode : ConfigViewerMode -> RView -> RView := ltac:(set_field _configMode).
Definition set_x1 : Q -> RView -> RView := ltac:(set_field _x1).
Definition set_y1 : Q -> RView -> RView := ltac:(set_field _y1).
Definition set_z1 : Q -> RView -> RView := ltac:(set_field _z1).
Definition set_x2 : Q -> RView -> RView := ltac:(set_field _x2).
Definition set_y2 : Q -> RView -> RView := ltac:(set_field _y2).
Definition set_z2 : Q -> RView -> RView := ltac:(set_field _z2).
Definition set_voxelContour : VoxelContour -> RView -> RView := ltac:(set_field _voxelContour).
Definition set_cerr : (list string) -> RView -> RView := ltac:(set_field cerr).

(* ===================================================================== *)
(** * Interfaces of the classes [RView.cc] calls into *)
(* ===================================================================== *)

(** An entry of a layout preset: a viewport and the plane shown in it. *)
Record RViewConfig := mkRViewConfig {
  xmin : Q; ymin : Q; xmax : Q; ymax : Q;
  mode : ViewerMode
}.

(** The image attributes [Initialize] fills in for an output image. *)
Record ImageAttributes := mkImageAttributes {
  attr_x : Z; attr_y : Z; attr_z : Z;
  attr_xorigin : Q; attr_yorigin : Q; attr_zorigin : Q;
  attr_dx : Q; attr_dy : Q; attr_dz : Q;
  attr_xaxis : Vec3; attr_yaxis : Vec3; attr_zaxis : Vec3
}.

(** The viewer's own helper classes.  [At] is [LookupTable::At], the colour
    a table assigns to an intensity; [Color_default] is [Color()], the
    default-constructed pixel; [new_Viewer] is a [Viewer] of a mode after
    [SetViewport] and [SetScreen]; [preset] is the layout table a
    configuration mode names, up to its end marker; the others are the
    editing operations of [VoxelContour]. *)
Class ViewerApi := {
  At : LookupTable -> Z -> RGBA.t;
  Color_default : Color;
  new_Viewer : ViewerMode -> Q -> Q -> Q -> Q -> Z -> Z -> Viewer;
  preset : ConfigViewerMode -> list RViewConfig;
  Initialise : VoxelContour -> Image -> VoxelContour;
  AddPointSet : VoxelContour -> Point -> Z -> VoxelContour;
  AddPoint : VoxelContour -> Point -> Z -> VoxelContour;
  Close : VoxelContour -> Point -> Z -> VoxelContour;
  contour_FillArea : VoxelContour -> Point -> VoxelContour;
  RegionGrowing :
    VoxelContour -> Point -> Z -> Z -> RegionGrowingMode -> VoxelContour
}.

(** [mirtk::ImageTransformation::Run]: resamples the input image of a role
    onto the grid of the output image; the optional number is the source
    padding value set just before the run.  [Image_new] is a freshly
    constructed image and [Image_Initialize] an image initialised with
    given attributes. *)
Class MirtkApi := {
  Run : Role -> option Z -> Image -> Image -> Image;
  Image_new : Image;
  Image_Initialize : ImageAttributes -> Image
}.

(* ===================================================================== *)
(** * RView::Update *)
(* ===================================================================== *)

Section Update.
Context `{ViewerApi} `{MirtkApi}.

(** One pass of the first loop of [Update] over viewer [sl]: the filters of
    the dirty roles with a non-empty input are run, in the order target,
    source, segmentation, selection.  The second component lists the roles
    whose filter was run. *)
Definition resample_slot (s : RView) (sl : Slot) : Slot * list Role :=
  let run_t := _targetUpdate s && negb (IsEmpty (_targetImage s)) in
  let run_s := _sourceUpdate s && negb (IsEmpty (_sourceImage s)) in
  let run_g := _segmentationUpdate s && negb (IsEmpty (_segmentationImage s)) in
  let run_c := _selectionUpdate s && negb (IsEmpty (_raster (_voxelContour s))) in
  (mkSlot (_viewer sl) (_isSourceViewer sl)
     (if run_t then Run Target (Some (-1)) (_targetImage s) (_targetImageOutput sl)
      else _targetImageOutput sl)
     (if run_s then Run Source (Some (-1)) (_sourceImage s) (_sourceImageOutput sl)
      else _sourceImageOutput sl)
     (if run_g then Run Segmentation None (_segmentationImage s)
                      (_segmentationImageOutput sl)
      else _segmentationImageOutput sl)
     (if run_c then Run Selection None (_raster (_voxelContour s))
                      (_selectionImageOutput sl)
      else _selectionImageOutput sl)
     (_drawable sl),
   (if run_t then [Target] else []) ++ (if run_s then [Source] else []) ++
   (if run_g then [Segmentation] else []) ++ (if run_c then [Selection] else [])).

(** The filter runs of the first loop of [Update], as pairs (viewer index,
    role) in the order they happen. *)
Fixpoint resample_runs (s : RView) (l : nat) (sls : list Slot) : list (nat * Role) :=
  match sls with
  | [] => []
  | sl :: rest =>
      map (fun ro => (l, ro)) (snd (resample_slot s sl)) ++ resample_runs s (S l) rest
  end.

(** [*ptr]: the pixel a running pointer into a raster stands on. *)
Definition deref (p : list Z) (n : nat) : Z := nth n p 0.

(** [int(wa * ca + wb * cb)] stored into an [unsigned char] channel.  The
    sum is exact here and rounded to a [double] in the code; the two agree
    for the weights 0, 1 and 1/2. *)
Definition blend (wa : Q) (ca : Z) (wb : Q) (cb : Z) : Z :=
  uchar (int_of_double (wa * inject_Z ca + wb * inject_Z cb)).

(** The [switch (_viewMode)] of [Update] at one pixel: column [i], row [j]
    of a viewer [W] pixels wide and [Hh] high, with [p1 = *ptr1],
    [p2 = *ptr2] and the tables [lut1], [lut2] (after the swap of a source
    viewer). *)
Definition base_pixel (s : RView) (lut1 lut2 : LookupTable)
    (W Hh : Z) (i j : Z) (p1 p2 : Z) : Color :=
  match _viewMode s with
  | View_A => Color_of (At lut1 p1)
  | View_B => Color_of (At lut2 p2)
  | View_VShutter =>
      if Qlt_le_dec (inject_Z i) (_viewMix s * inject_Z W)
      then Color_of (At lut1 p1) else Color_of (At lut2 p2)
  | View_HShutter =>
      if Qlt_le_dec (inject_Z j) (_viewMix s * inject_Z Hh)
      then Color_of (At lut1 p1) else Color_of (At lut2 p2)
  | View_Subtraction =>
      if (0 <=? p1) && (0 <=? p2)
      then Color_of (At (_subtractionLookupTable s) (p1 - p2))
      else Color_default
  | View_Checkerboard =>
      let blendA := _viewMix s in
      let blendB := (1 - blendA)%Q in
      mkColor (blend blendA (RGBA.r (At lut1 p1)) blendB (RGBA.r (At lut2 p2)))
              (blend blendA (RGBA.g (At lut1 p1)) blendB (RGBA.g (At lut2 p2)))
              (blend blendA (RGBA.b (At lut1 p1)) blendB (RGBA.b (At lut2 p2)))
  | View_AoverB =>
      let a1 := RGBA.a (At lut1 p1) in
      mkColor (blend a1 (RGBA.r (At lut1 p1)) (1 - a1) (RGBA.r (At lut2 p2)))
              (blend a1 (RGBA.g (At lut1 p1)) (1 - a1) (RGBA.g (At lut2 p2)))
              (blend a1 (RGBA.b (At lut1 p1)) (1 - a1) (RGBA.b (At lut2 p2)))
  | View_BoverA =>
      let a2 := RGBA.a (At lut2 p2) in
      mkColor (blend (1 - a2) (RGBA.r (At lut1 p1)) a2 (RGBA.r (At lut2 p2)))
              (blend (1 - a2) (RGBA.g (At lut1 p1)) a2 (RGBA.g (At lut2 p2)))
              (blend (1 - a2) (RGBA.b (At lut1 p1)) a2 (RGBA.b (At lut2 p2)))
  end.

(** The segmentation overlay at one pixel ([p4 = *ptr4]); it runs when
    [_DisplaySegmentationLabels] is set. *)
Definition segmentation_pixel (s : RView) (p4 : Z) (c : Color) : Color :=
  if 0 <=? p4 then
    if _visible (_segmentTable s p4) then
      let blendA := _trans (_segmentTable s p4) in
      let blendB := (1 - blendA)%Q in
      mkColor (blend blendB (r c) blendA (r (_color (_segmentTable s p4))))
              (blend blendB (g c) blendA (g (_color (_segmentTable s p4))))
              (blend blendB (b c) blendA (b (_color (_segmentTable s p4))))
    else c
  else c.

(** The selection overlay at one pixel ([p5 = *ptr5]); it runs when the
    voxel contour has a point. *)
Definition selection_pixel (p5 : Z) (c : Color) : Color :=
  if 0 <? p5 then
    mkColor (uchar (int_of_double ((1 # 2) * inject_Z (r c) + (1 # 2) * 255)))
            (uchar (int_of_double ((1 # 2) * inject_Z (g c) + (1 # 2) * 255)))
            (uchar (int_of_double ((1 # 2) * inject_Z (b c))))
  else c.

(** The pixels of a viewer in the order of the two nested loops
    [for j < Height] [for i < Width], as (i, j). *)
Definition pixel_grid (W Hh : Z) : list (Z * Z) :=
  flat_map (fun j => map (fun i => (Z.of_nat i, Z.of_nat j)) (seq 0 (Z.to_nat W)))
           (seq 0 (Z.to_nat Hh)).

(** The position of pixel (i, j) in a raster [W] pixels wide: where the
    running pointers stand when the loops reach the pixel. *)
Definition offset (W : Z) (ij : Z * Z) : nat :=
  let '(i, j) := ij in Z.to_nat (j * W + i).

(** The view mode switch at pixel (i, j) of a viewer.  In a source viewer
    the two rasters and the two tables are swapped first.  (A pointer that
    has run past the end of its raster reads 0 here; in C the read is
    undefined.) *)
Definition base_stage (s : RView) (sl : Slot) (ij : Z * Z) : Color :=
  let W := GetWidth (_viewer sl) in
  let Hh := GetHeight (_viewer sl) in
  let n := offset W ij in
  let ptr1 := voxels (_targetImageOutput sl) in
  let lut1 := _targetLookupTable s in
  let ptr2 := voxels (_sourceImageOutput sl) in
  let lut2 := _sourceLookupTable s in
  let '(ptr1, ptr2, lut1, lut2) :=
    if _isSourceViewer sl then (ptr2, ptr1, lut2, lut1) else (ptr1, ptr2, lut1, lut2) in
  base_pixel s lut1 lut2 W Hh (fst ij) (snd ij) (deref ptr1 n) (deref ptr2 n).

(** The segmentation overlay on the colour [c] of pixel (i, j). *)
Definition segmentation_stage (s : RView) (sl : Slot) (ij : Z * Z) (c : Color) : Color :=
  if _DisplaySegmentationLabels s
  then segmentation_pixel s
         (deref (voxels (_segmentationImageOutput sl)) (offset (GetWidth (_viewer sl)) ij)) c
  else c.

(** The selection overlay on the colour [c] of pixel (i, j). *)
Definition selection_stage (s : RView) (sl : Slot) (ij : Z * Z) (c : Color) : Color :=
  if 0 <? Size (_voxelContour s)
  then selection_pixel
         (deref (voxels (_selectionImageOutput sl)) (offset (GetWidth (_viewer sl)) ij)) c
  else c.

(** The colour [Update] leaves in [_drawable[k]] at pixel (i, j).  The three
    stages are three passes over the drawable in the source; each works
    pixel by pixel, so a pixel goes through them one after the other. *)
Definition final_pixel (s : RView) (sl : Slot) (ij : Z * Z) : Color :=
  selection_stage s sl ij (segmentation_stage s sl ij (base_stage s sl ij)).

(** The second loop of [Update] for one viewer. *)
Definition composite_slot (s : RView) (sl : Slot) : Slot :=
  mkSlot (_viewer sl) (_isSourceViewer sl) (_targetImageOutput sl)
    (_sourceImageOutput sl) (_segmentationImageOutput sl) (_selectionImageOutput sl)
    (map (final_pixel s sl)
         (pixel_grid (GetWidth (_viewer sl)) (GetHeight (_viewer sl)))).

Definition clear_update_flags (s : RView) : RView :=
  set_selectionUpdate false
    (set_segmentationUpdate false (set_sourceUpdate false (set_targetUpdate false s))).

(** [RView::Update]. *)
Definition Update (s : RView) : RView :=
  let s1 := set_slots (map (fun sl => fst (resample_slot s sl)) (_slots s)) s in
  let s2 := clear_update_flags s1 in
  set_slots (map (composite_slot s2) (_slots s2)) s2.

(** The filters one call of [Update] runs. *)
Definition Update_runs (s : RView) : list (nat * Role) :=
  resample_runs s 0 (_slots s).

(** The dirty flag of a role and the image its filter reads. *)
Definition dirty (ro : Role) (s : RView) : bool :=
  match ro with
  | Target => _targetUpdate s
  | Source => _sourceUpdate s
  | Segmentation => _segmentationUpdate s
  | Selection => _selectionUpdate s
  end.

Definition input (ro : Role) (s : RView) : Image :=
  match ro with
  | Target => _targetImage s
  | Source => _sourceImage s
  | Segmentation => _segmentationImage s
  | Selection => _raster (_voxelContour s)
  end.

(** The channels of a colour are 8-bit numbers. *)
Definition color_8bit (c : Color) : Prop :=
  0 <= r c < 256 /\ 0 <= g c < 256 /\ 0 <= b c < 256.

(** The lookup tables hold 8-bit channels. *)
Definition lut_8bit : Prop :=
  forall l v, color_8bit (Color_of (At l v)).

(** An even mix of a colour with yellow (255, 255, 0), rounded down. *)
Definition highlight (c : Color) : Color :=
  mkColor ((r c + 255) / 2) ((g c + 255) / 2) (b c / 2).

(** The subtraction rule at pixel (i, j) of a viewer, for the target sample
    [t] and the source sample [u] of the pixel: the empty colour unless both
    are at least 0, and then the subtraction table at [t - u] in a target
    viewer and at [u - t] in a source viewer. *)
Definition subtraction_color (s : RView) (sl : Slot) (ij : Z * Z) : Color :=
  let n := offset (GetWidth (_viewer sl)) ij in
  let t := deref (voxels (_targetImageOutput sl)) n in
  let u := deref (voxels (_sourceImageOutput sl)) n in
  if (0 <=? t) && (0 <=? u)
  then Color_of (At (_subtractionLookupTable s)
                   (if _isSourceViewer sl then u - t else t - u))
  else Color_default.

End Update.

(* ===================================================================== *)
(** * Outcomes *)
(* ===================================================================== *)

(** How a member function ends: it returns a state, the process is ended by
    [exit(1)], the call indexes an array outside its bounds, or the call
    never returns. *)
Inductive result (A : Type) :=
| Ok (a : A)
| Exit
| Undefined
| Hang.
Arguments Ok {A} a.
Arguments Exit {A}.
Arguments Undefined {A}.
Arguments Hang {A}.

Definition bind {A B} (m : result A) (f : A -> result B) : result B :=
  match m with
  | Ok a => f a
  | Exit => Exit
  | Undefined => Undefined
  | Hang => Hang
  end.

Notation "x <- m ;; k" := (bind m (fun x => k))
  (at level 61, m at next level, right associativity).

(** [arr[k]] for an [int] index. *)
Definition at_index {A} (arr : list A) (k : Z) : result A :=
  if k <? 0 then Undefined
  else match nth_error arr (Z.to_nat k) with
       | Some a => Ok a
       | None => Undefined
       end.

Definition Qlt_bool (x y : Q) : bool := negb (Qle_bool y x).

(** [(x >= x1) && (x < x2) && (y >= y1) && (y < y2)] for the viewport of [v]. *)
Definition in_viewport (v : Viewer) (x y : Q) : bool :=
  Qle_bool (vp_x1 v) x && Qlt_bool x (vp_x2 v) &&
  Qle_bool (vp_y1 v) y && Qlt_bool y (vp_y2 v).

(** [(x < x1) || (x >= x2) || (y < y1) || (y >= y2)] for the viewport of [v]. *)
Definition out_of_viewport (v : Viewer) (x y : Q) : bool :=
  Qlt_bool x (vp_x1 v) || Qle_bool (vp_x2 v) x ||
  Qlt_bool y (vp_y1 v) || Qle_bool (vp_y2 v) y.

(* ===================================================================== *)
(** * The voxel contour entry points *)
(* ===================================================================== *)

Section Contour.
Context `{ViewerApi}.

(** The loop that finds the viewer a first contour point falls into: every
    viewer whose viewport holds (x, y) overwrites [_contourViewer] and
    [_contourViewerMode]. *)
Fixpoint find_contour_viewer (x y : Q) (k : Z) (sls : list Slot) (s : RView) : RView :=
  match sls with
  | [] => s
  | sl :: rest =>
      find_contour_viewer x y (k + 1) rest
        (if in_viewport (_viewer sl) x y
         then set_contourViewerMode (GetViewerMode (_viewer sl)) (set_contourViewer k s)
         else s)
  end.

(** The part the three entry points share: the owning viewer is found (first
    point) or the point is tested against it (later points); a point
    outside ends the call ([None]); otherwise the world position of the
    point and the state with the contour initialised are produced. *)
Definition locate_contour_point (s : RView) (i j : Z)
    : result (option (RView * Point)) :=
  let x := ratio i (_screenX s) in
  let y := ratio (_screenY s - j) (_screenY s) in
  let first := Size (_voxelContour s) =? 0 in
  s1 <- (if first then Ok (Some (find_contour_viewer x y 0 (_slots s) s))
         else sl <- at_index (_slots s) (_contourViewer s) ;;
              if out_of_viewport (_viewer sl) x y then Ok None else Ok (Some s)) ;;
  match s1 with
  | None => Ok None
  | Some s1 =>
      sl <- at_index (_slots s1) (_contourViewer s1) ;;
      let v := _viewer sl in
      let x' := ((x - vp_x1 v) / (vp_x2 v - vp_x1 v) * inject_Z (GetWidth v))%Q in
      let y' := ((y - vp_y1 v) / (vp_y2 v - vp_y1 v) * inject_Z (GetHeight v))%Q in
      let p := ImageToWorld (_targetImageOutput sl) (x', y', 0%Q) in
      let s2 := if Size (_voxelContour s1) =? 0
                then set_voxelContour
                       (Initialise (_voxelContour s1) (_targetImageOutput sl)) s1
                else s1 in
      Ok (Some (s2, p))
  end.

(** [RView::AddContour]. *)
Definition AddContour (s : RView) (i j : Z) (mode : ContourMode) : result RView :=
  loc <- locate_contour_point s i j ;;
  match loc with
  | None => Ok s
  | Some (s2, p) =>
      let c := _voxelContour s2 in
      let c' :=
        match mode with
        | FirstPoint => AddPointSet c p (_PaintBrushWidth s2)
        | NewPoint => AddPoint c p (_PaintBrushWidth s2)
        | LastPoint =>
            if _SegmentationMode s2 =? 0 then Close c p (_PaintBrushWidth s2)
            else AddPoint c p (_PaintBrushWidth s2)
        end in
      Ok (set_selectionUpdate true (set_voxelContour c' s2))
  end.

(** [RView::FillArea]. *)
Definition FillArea (s : RView) (i j : Z) : result RView :=
  loc <- locate_contour_point s i j ;;
  match loc with
  | None => Ok s
  | Some (s2, p) =>
      Ok (set_selectionUpdate true
            (set_voxelContour (contour_FillArea (_voxelContour s2) p) s2))
  end.

(** [RView::RegionGrowContour]. *)
Definition RegionGrowContour (s : RView) (i j : Z) : result RView :=
  loc <- locate_contour_point s i j ;;
  match loc with
  | None => Ok s
  | Some (s2, p) =>
      Ok (set_selectionUpdate true
            (set_voxelContour
               (RegionGrowing (_voxelContour s2) p (_RegionGrowingThresholdMin s2)
                  (_RegionGrowingThresholdMax s2) (_regionGrowingMode s2)) s2))
  end.

End Contour.

(* ===================================================================== *)
(** * The region of interest *)
(* ===================================================================== *)

(** The locals of [UpdateROI1] and [UpdateROI2] that live across the
    iterations of the loop over the viewers, with the state. *)
Record roi_loop := mkRoiLoop {
  roi1 : Point;
  roi2 : Point;
  roi_state : RView
}.

(** The two clamps of [UpdateROI2] on an axis of size [dim]. *)
Definition clamp2 (dim : Z) (c1 c2 : Q) : Q :=
  let c2 := if Qle_bool (inject_Z dim) (round c2) then inject_Z (dim - 1) else c2 in
  if Qlt_bool (round c2) (round c1) then c1 else c2.

(** The two clamps of [UpdateROI1] on an axis. *)
Definition clamp1 (c1 c2 : Q) : Q :=
  let c1 := if Qlt_bool (round c1) 0 then 0%Q else c1 in
  if Qlt_bool (round c2) (round c1) then round c2 else c1.

(** One iteration of the loop of [UpdateROI2] for viewer [sl]. *)
Definition UpdateROI2_step (i j : Z) (st : roi_loop) (sl : Slot) : roi_loop :=
  let s := roi_state st in
  let v := _viewer sl in
  let '(roi2_x, roi2_y, _) := roi2 st in
  if in_viewport v roi2_x roi2_y then
    let '(_, _, roi2_z) := WorldToImage (_targetImageOutput sl) (_x2 s, _y2 s, _z2 s) in
    let roi2_x := ratio i (_screenX s) in
    let roi2_y := ratio (_screenY s - j) (_screenY s) in
    let roi2_x := ((roi2_x - vp_x1 v) / (vp_x2 v - vp_x1 v) * inject_Z (GetWidth v))%Q in
    let roi2_y := ((roi2_y - vp_y1 v) / (vp_y2 v - vp_y1 v) * inject_Z (GetHeight v))%Q in
    let r2 := ImageToWorld (_targetImageOutput sl) (roi2_x, roi2_y, roi2_z) in
    let '(roi1_x, roi1_y, roi1_z) := WorldToImage (_targetImage s) (roi1 st) in
    let '(roi2_x, roi2_y, roi2_z) := WorldToImage (_targetImage s) r2 in
    let roi2_x := clamp2 (GetX (_targetImage s)) roi1_x roi2_x in
    let roi2_y := clamp2 (GetY (_targetImage s)) roi1_y roi2_y in
    let roi2_z := clamp2 (GetZ (_targetImage s)) roi1_z roi2_z in
    let '(roi2_x, roi2_y, roi2_z) :=
      ImageToWorld (_targetImage s) (roi2_x, roi2_y, roi2_z) in
    mkRoiLoop (roi1_x, roi1_y, roi1_z) (roi2_x, roi2_y, roi2_z)
      (set_z2 roi2_z (set_y2 roi2_y (set_x2 roi2_x s)))
  else st.

(** [RView::UpdateROI2]. *)
Definition UpdateROI2 (s : RView) (i j : Z) : RView :=
  roi_state
    (fold_left (UpdateROI2_step i j) (_slots s)
       (mkRoiLoop (_x1 s, _y1 s, _z1 s)
          (ratio i (_screenX s), ratio (_screenY s - j) (_screenY s), 0%Q) s)).

(** One iteration of the loop of [UpdateROI1] for viewer [sl]. *)
Definition UpdateROI1_step (i j : Z) (st : roi_loop) (sl : Slot) : roi_loop :=
  let s := roi_state st in
  let v := _viewer sl in
  let '(roi1_x, roi1_y, _) := roi1 st in
  if in_viewport v roi1_x roi1_y then
    let '(_, _, roi1_z) := WorldToImage (_targetImageOutput sl) (_x1 s, _y1 s, _z1 s) in
    let roi1_x := ratio i (_screenX s) in
    let roi1_y := ratio (_screenY s - j) (_screenY s) in
    let roi1_x := ((roi1_x - vp_x1 v) / (vp_x2 v - vp_x1 v) * inject_Z (GetWidth v))%Q in
    let roi1_y := ((roi1_y - vp_y1 v) / (vp_y2 v - vp_y1 v) * inject_Z (GetHeight v))%Q in
    let r1 := ImageToWorld (_targetImageOutput sl) (roi1_x, roi1_y, roi1_z) in
    let '(roi1_x, roi1_y, roi1_z) := WorldToImage (_targetImage s) r1 in
    let '(roi2_x, roi2_y, roi2_z) := WorldToImage (_targetImage s) (roi2 st) in
    let roi1_x := clamp1 roi1_x roi2_x in
    let roi1_y := clamp1 roi1_y roi2_y in
    let roi1_z := clamp1 roi1_z roi2_z in
    let '(roi1_x, roi1_y, roi1_z) :=
      ImageToWorld (_targetImage s) (roi1_x, roi1_y, roi1_z) in
    mkRoiLoop (roi1_x, roi1_y, roi1_z) (roi2_x, roi2_y, roi2_z)
      (set_z1 roi1_z (set_y1 roi1_y (set_x1 roi1_x s)))
  else st.

(** [RView::UpdateROI1]. *)
Definition UpdateROI1 (s : RView) (i j : Z) : RView :=
  roi_state
    (fold_left (UpdateROI1_step i j) (_slots s)
       (mkRoiLoop (ratio i (_screenX s), ratio (_screenY s - j) (_screenY s), 0%Q)
          (_x2 s, _y2 s, _z2 s) s)).

(* ===================================================================== *)
(** * RView::Initialize, RView::Configure and RView::Reset *)
(* ===================================================================== *)

Section Layout.
Context `{ViewerApi} `{MirtkApi}.

Definition require_update (s : RView) : RView :=
  set_selectionUpdate true
    (set_segmentationUpdate true (set_sourceUpdate true (set_targetUpdate true s))).

(** The attributes [Initialize] computes for the output images of a viewer;
    an invalid viewer mode ends the process. *)
Definition viewer_attributes (s : RView) (v : Viewer) : result ImageAttributes :=
  let d := (1 / _resolution s)%Q in
  let mk dz xa ya za :=
    mkImageAttributes (GetWidth v) (GetHeight v) 1
      (_origin_x s) (_origin_y s) (_origin_z s) d d dz xa ya za in
  match GetViewerMode v with
  | Viewer_XY => Ok (mk (GetZSize (_targetImage s)) (_xaxis s) (_yaxis s) (_zaxis s))
  | Viewer_XZ => Ok (mk (GetYSize (_targetImage s)) (_xaxis s) (_zaxis s) (_yaxis s))
  | Viewer_YZ => Ok (mk (GetXSize (_targetImage s)) (_yaxis s) (_zaxis s) (_xaxis s))
  | Viewer_None => Exit
  end.

(** The loop of [Initialize]: the four output images of every viewer are
    initialised on the grid of the viewer.  (The scale, offset and time
    offset of the filters and the displacement cache, which the loop also
    sets, are not members of the modelled state.) *)
Fixpoint initialize_slots (s : RView) (sls : list Slot) : result (list Slot) :=
  match sls with
  | [] => Ok []
  | sl :: rest =>
      attr <- viewer_attributes s (_viewer sl) ;;
      rest' <- initialize_slots s rest ;;
      Ok (mkSlot (_viewer sl) (_isSourceViewer sl)
            (Image_Initialize attr) (Image_Initialize attr)
            (Image_Initialize attr) (Image_Initialize attr) (_drawable sl) :: rest')
  end.

(** [RView::Initialize]. *)
Definition Initialize (s : RView) : result RView :=
  sls <- initialize_slots s (_slots s) ;;
  Ok (require_update (set_slots sls s)).

Definition mode_index (m : ViewerMode) : nat :=
  match m with Viewer_XY => 0 | Viewer_XZ => 1 | Viewer_YZ => 2 | Viewer_None => 3 end.

Definition ViewerMode_eqb (m1 m2 : ViewerMode) : bool :=
  Nat.eqb (mode_index m1) (mode_index m2).

(** [source_viewer[m] = !source_viewer[m]]. *)
Definition toggle (source_viewer : list bool) (m : ViewerMode) : list bool :=
  firstn (mode_index m) source_viewer ++
  negb (nth (mode_index m) source_viewer false) :: skipn (S (mode_index m)) source_viewer.

(** The loop of [Configure] that creates the viewers of a layout. *)
Fixpoint configure_slots (s : RView) (source_viewer : list bool)
    (config : list RViewConfig) : list Slot :=
  match config with
  | [] => []
  | c :: rest =>
      mkSlot (new_Viewer (mode c) (xmin c) (ymin c) (xmax c) (ymax c)
                (_screenX s) (_screenY s))
             (nth (mode_index (mode c)) source_viewer false)
             Image_new Image_new Image_new Image_new []
        :: configure_slots s (toggle source_viewer (mode c)) rest
  end.

(** The loop of [Configure] that moves the contour to the last viewer of the
    contour's mode. *)
Fixpoint find_mode_viewer (m : ViewerMode) (i : Z) (sls : list Slot) (found : Z) : Z :=
  match sls with
  | [] => found
  | sl :: rest =>
      find_mode_viewer m (i + 1) rest
        (if ViewerMode_eqb (GetViewerMode (_viewer sl)) m then i else found)
  end.

(** [_drawable[i] = new Color[_targetImageOutput[i]->GetNumberOfVoxels()]]. *)
Definition allocate_drawable (sl : Slot) : Slot :=
  mkSlot (_viewer sl) (_isSourceViewer sl) (_targetImageOutput sl)
    (_sourceImageOutput sl) (_segmentationImageOutput sl) (_selectionImageOutput sl)
    (repeat Color_default (List.length (voxels (_targetImageOutput sl)))).

(** [RView::Configure]. *)
Definition Configure (config : list RViewConfig) (s : RView) : result RView :=
  let s1 := set_slots (configure_slots s [false; false; false; false] config) s in
  s2 <- Initialize s1 ;;
  let s3 :=
    if _contourViewer s2 =? -1 then s2
    else set_contourViewer
           (find_mode_viewer (_contourViewerMode s2) 0 (_slots s2) (-1)) s2 in
  Ok (require_update (set_slots (map allocate_drawable (_slots s3)) s3)).

(** A [switch] of [Reset] in the neurological display mode, for the axis
    with orientation code [code] and direction [v]; [what] is the text
    reported for a code that is none of the six. *)
Definition neurological_axis (code : OrientationCode) (v : Vec3) (what : string)
    (s : RView) : RView :=
  match code with
  | L2R => set_xaxis (vneg v) s
  | R2L => set_xaxis v s
  | P2A => set_yaxis v s
  | A2P => set_yaxis (vneg v) s
  | I2S => set_zaxis v s
  | S2I => set_zaxis (vneg v) s
  | Orientation_Unknown => set_cerr (cerr s ++ [what]) s
  end.

(** A [switch] of [Reset] in the other, radiological display mode. *)
Definition radiological_axis (code : OrientationCode) (v : Vec3) (what : string)
    (s : RView) : RView :=
  match code with
  | L2R => set_xaxis v s
  | R2L => set_xaxis (vneg v) s
  | P2A => set_yaxis v s
  | A2P => set_yaxis (vneg v) s
  | I2S => set_zaxis v s
  | S2I => set_zaxis (vneg v) s
  | Orientation_Unknown => set_cerr (cerr s ++ [what]) s
  end.

Definition msg_x : string := "RView::ResetTarget: Can't work out x-orientation".
Definition msg_y : string := "RView::ResetTarget: Can't work out y-orientation".
Definition msg_z : string := "RView::ResetTarget: Can't work out z-orientation".

(** The first part of [Reset]: the display axes are set from the
    orientation of the target image and the display mode. *)
Definition Reset_axes (s : RView) : RView :=
  let '(xaxis, yaxis, zaxis) := GetOrientation (_targetImage s) in
  let '(iaxis, jaxis, kaxis) := Orientation (_targetImage s) in
  match _DisplayMode s with
  | Native => set_zaxis zaxis (set_yaxis yaxis (set_xaxis xaxis s))
  | Neurological =>
      neurological_axis kaxis zaxis msg_z
        (neurological_axis jaxis yaxis msg_y (neurological_axis iaxis xaxis msg_x s))
  | Radiological =>
      radiological_axis kaxis zaxis msg_z
        (radiological_axis jaxis yaxis msg_y (radiological_axis iaxis xaxis msg_x s))
  end.

(** The second part of [Reset]: the requested flips. *)
Definition Reset_flips (s : RView) : RView :=
  let s := if _FlipX s then set_xaxis (vflip (_xaxis s)) s else s in
  let s := if _FlipY s then set_yaxis (vflip (_yaxis s)) s else s in
  if _FlipZ s then set_zaxis (vflip (_zaxis s)) s else s.

(** The third part of [Reset]: the origin is the origin of the target image
    rounded to the nearest voxel. *)
Definition Reset_origin (s : RView) : RView :=
  let '(x, y, z) := WorldToImage (_targetImage s) (GetOrigin (_targetImage s)) in
  let '(x, y, z) := ImageToWorld (_targetImage s) (round x, round y, round z) in
  set_origin_z z (set_origin_y y (set_origin_x x s)).

(** [RView::Reset]. *)
Definition Reset (s : RView) : result RView :=
  s' <- Initialize (Reset_origin (Reset_flips (Reset_axes s))) ;;
  Ok (require_update s').

End Layout.

(* ===================================================================== *)
(** * The C library functions [Read] and [Write] use *)
(* ===================================================================== *)

Open Scope string_scope.
Open Scope Z_scope.

(** [strstr(haystack, needle) != nullptr]. *)
Fixpoint strstr (haystack needle : string) : bool :=
  String.prefix needle haystack ||
  match haystack with
  | EmptyString => false
  | String _ h => strstr h needle
  end.

(** [strcmp(a, b) == 0]. *)
Definition strcmp0 (a b : string) : bool := String.eqb a b.

(** [strchr(s, c)]: the rest of [s] from the first [c] on, if there is one. *)
Fixpoint strchr (s : string) (c : ascii) : option string :=
  match s with
  | EmptyString => None
  | String d s' => if Ascii.eqb d c then Some s else strchr s' c
  end.

Definition tab : ascii := ascii_of_nat 9.
Definition cr : ascii := ascii_of_nat 13.

(** The pointer is advanced while it stands on a blank or a tab. *)
Fixpoint skip_blanks (s : string) : string :=
  match s with
  | String c s' => if Ascii.eqb c " " || Ascii.eqb c tab then skip_blanks s' else s
  | EmptyString => EmptyString
  end.

Definition isspace (c : ascii) : bool :=
  let n := nat_of_ascii c in
  Nat.eqb n 32 || (Nat.leb 9 n && Nat.leb n 13).

Definition isdigit (c : ascii) : bool :=
  let n := nat_of_ascii c in Nat.leb 48 n && Nat.leb n 57.

Definition digit_value (c : ascii) : Z := Z.of_nat (nat_of_ascii c) - 48.

(** The digits of [atoi]: the value read so far is [acc]. *)
Fixpoint atoi_digits (s : string) (acc : Z) : Z :=
  match s with
  | String c s' => if isdigit c then atoi_digits s' (10 * acc + digit_value c) else acc
  | EmptyString => acc
  end.

Fixpoint skip_spaces (s : string) : string :=
  match s with
  | String c s' => if isspace c then skip_spaces s' else s
  | EmptyString => EmptyString
  end.

(** [atoi]: white space, an optional sign, decimal digits.  (A value outside
    the range of [int] is undefined in C; the model returns the number, and
    [checked_body] below marks the reads of such a number.) *)
Definition atoi (s : string) : Z :=
  match skip_spaces s with
  | String "-" s' => - atoi_digits s' 0
  | String "+" s' => atoi_digits s' 0
  | s' => atoi_digits s' 0
  end.

Definition digit_char (d : Z) : ascii := ascii_of_nat (Z.to_nat (48 + d)).

(** The decimal digits of a natural number in front of [acc]. *)
Fixpoint show_digits (fuel : nat) (n : Z) (acc : string) : string :=
  match fuel with
  | O => acc
  | S fuel' =>
      let acc' := String (digit_char (n mod 10)) acc in
      if n / 10 =? 0 then acc' else show_digits fuel' (n / 10) acc'
  end.

Definition show_nat (n : Z) : string :=
  show_digits (S (Z.to_nat (Z.log2 n))) n EmptyString.

(** [to << n] for an [int] n. *)
Definition show_int (n : Z) : string :=
  if n <? 0 then String "-" (show_nat (- n)) else show_nat n.

(** [to << b] for a [bool] b. *)
Definition show_bool (b : bool) : string := if b then "1" else "0".

(** The characters a [double] is written with. *)
Definition double_char (c : ascii) : bool :=
  isdigit c || existsb (Ascii.eqb c) ["."%char; "e"%char; "+"%char; "-"%char;
                                       "i"%char; "n"%char; "f"%char; "a"%char].

(** [atof], and [to << x] for a [double] x with the default format: at most
    40 characters, all of them digits, a sign, a point, an exponent mark or
    the letters of inf and nan. *)
Class CxxIO := {
  atof : string -> Q;
  show_double : Q -> string;
  show_double_chars :
    forall x, forallb double_char (list_ascii_of_string (show_double x)) = true;
  show_double_length :
    forall x, (String.length (show_double x) <= 40)%nat
}.

(* ===================================================================== *)
(** * RView::Read and RView::Write *)
(* ===================================================================== *)

(** A text file that is empty or ends with a newline is the list of its
    lines; [text] below is a file that need not end with one. *)
Definition file : Type := list string.

(** The lines the loop of [read_line] passes over: empty lines and lines
    that begin with [#] or a carriage return. *)
Definition skipped (buffer1 : string) : bool :=
  match buffer1 with
  | EmptyString => true
  | String c _ => Ascii.eqb c "#" || Ascii.eqb c cr
  end.

(** The second half of [read_line]: [buffer2] is set behind the first [=]
    and the blanks and tabs after it; a line without [=] ends the process. *)
Definition split_line (buffer1 : string) : result string :=
  match strchr buffer1 "=" with
  | None => Exit
  | Some (String _ rest) => Ok (skip_blanks rest)
  | Some EmptyString => Ok EmptyString
  end.

Section Config.
Context `{ViewerApi} `{MirtkApi} `{CxxIO}.

(** The build option [MIRTK_IO_WITH_VTK && defined(HAVE_VTK)]. *)
Variable HAVE_VTK : bool.

Definition parse_configMode (buffer2 : string) (s : RView) : RView :=
  if strcmp0 buffer2 "View_XY" then set_configMode _View_XY s
  else if strcmp0 buffer2 "View_XZ" then set_configMode _View_XZ s
  else if strcmp0 buffer2 "View_YZ" then set_configMode _View_YZ s
  else if strcmp0 buffer2 "View_XY_XZ_v" then set_configMode _View_XY_XZ_v s
  else if strcmp0 buffer2 "View_XY_YZ_v" then set_configMode _View_XY_YZ_v s
  else if strcmp0 buffer2 "View_XZ_YZ_v" then set_configMode _View_XZ_YZ_v s
  else if strcmp0 buffer2 "View_XY_XZ_h" then set_configMode _View_XY_XZ_h s
  else if strcmp0 buffer2 "View_XY_YZ_h" then set_configMode _View_XY_YZ_h s
  else if strcmp0 buffer2 "View_XZ_YZ_h" then set_configMode _View_XZ_YZ_h s
  else if strcmp0 buffer2 "View_XY_XZ_YZ" then set_configMode _View_XY_XZ_YZ s
  else if strcmp0 buffer2 "View_AB_XY_v" then set_configMode _View_AB_XY_v s
  else if strcmp0 buffer2 "View_AB_XZ_v" then set_configMode _View_AB_XZ_v s
  else if strcmp0 buffer2 "View_AB_YZ_v" then set_configMode _View_AB_YZ_v s
  else if strcmp0 buffer2 "View_AB_XY_XZ_v" then set_configMode _View_AB_XY_XZ_v s
  else if strcmp0 buffer2 "View_AB_XY_h" then set_configMode _View_AB_XY_v s
  else if strcmp0 buffer2 "View_AB_XZ_h" then set_configMode _View_AB_XZ_v s
  else if strcmp0 buffer2 "View_AB_YZ_h" then set_configMode _View_AB_YZ_v s
  else if strcmp0 buffer2 "View_AB_XY_XZ_h" then set_configMode _View_AB_XY_XZ_v s
  else s.

(** The interpolation tokens; an unknown token ends the process. *)
Definition parse_interpolation (buffer2 : string) : result InterpolationMode :=
  if strcmp0 buffer2 "mirtk::Interpolation_NN" then Ok Interpolation_NN
  else if strcmp0 buffer2 "mirtk::Interpolation_Linear" then Ok Interpolation_Linear
  else if strcmp0 buffer2 "Interpolation_C1Spline" then Ok Interpolation_CSpline
  else if strcmp0 buffer2 "mirtk::Interpolation_BSpline" then Ok Interpolation_BSpline
  else if strcmp0 buffer2 "mirtk::Interpolation_Sinc" then Ok Interpolation_Sinc
  else Exit.

Definition parse_viewMode (buffer2 : string) (s : RView) : RView :=
  if strcmp0 buffer2 "View_A" then set_viewMode View_A s
  else if strcmp0 buffer2 "View_B" then set_viewMode View_B s
  else if strcmp0 buffer2 "View_Checkerboard" then set_viewMode View_Checkerboard s
  else if strcmp0 buffer2 "View_Subtraction" then set_viewMode View_Subtraction s
  else if strcmp0 buffer2 "View_HShutter" then set_viewMode View_HShutter s
  else if strcmp0 buffer2 "View_VShutter" then set_viewMode View_VShutter s
  else s.

Definition parse_CursorMode (buffer2 : string) (s : RView) : RView :=
  if strcmp0 buffer2 "CrossHair" then set_CursorMode CrossHair s
  else if strcmp0 buffer2 "CursorX" then set_CursorMode CursorX s
  else if strcmp0 buffer2 "CursorV" then set_CursorMode CursorV s
  else if strcmp0 buffer2 "CursorBar" then set_CursorMode CursorBar s
  else s.

Definition parse_ColorMode (buffer2 : string) (l : LookupTable) : LookupTable :=
  if strcmp0 buffer2 "ColorMode_Red" then SetColorMode ColorMode_Red l
  else if strcmp0 buffer2 "ColorMode_Green" then SetColorMode ColorMode_Green l
  else if strcmp0 buffer2 "ColorMode_Blue" then SetColorMode ColorMode_Blue l
  else if strcmp0 buffer2 "ColorMode_Luminance" then SetColorMode ColorMode_Luminance l
  else if strcmp0 buffer2 "ColorMode_Rainbow" then SetColorMode ColorMode_Rainbow l
  else l.

(** [flag = atoi(buffer2)] for a [bool] flag. *)
Definition atob (buffer2 : string) : bool := negb (atoi buffer2 =? 0).

(** [if (c) { f }] on the state. *)
Definition when (c : bool) (f : RView -> RView) (s : RView) : RView :=
  if c then f s else s.

(** The body of the [while] loop of [Read] once [read_line] has filled
    [buffer1] and [buffer2].  Every test is made on every line. *)
Definition Read_body (buffer1 buffer2 : string) (s : RView) : result RView :=
  let s := when (strstr buffer1 "configMode") (parse_configMode buffer2) s in
  let s := when (strstr buffer1 "screenX") (set_screenY (atoi buffer2)) s in
  let s := when (strstr buffer1 "screenY") (set_screenY (atoi buffer2)) s in
  let s := when (strstr buffer1 "origin_x") (set_origin_x (atof buffer2)) s in
  let s := when (strstr buffer1 "origin_y") (set_origin_y (atof buffer2)) s in
  let s := when (strstr buffer1 "origin_z") (set_origin_z (atof buffer2)) s in
  let s := when (strstr buffer1 "resolution") (set_resolution (atof buffer2)) s in
  let interpolation := Interpolation_NN in
  interpolation <-
    (if strstr buffer1 "targetInterpolationMode" then parse_interpolation buffer2
     else Ok interpolation) ;;
  let s := set_targetInterpolator interpolation s in
  interpolation <-
    (if strstr buffer1 "sourceInterpolationMode" then parse_interpolation buffer2
     else Ok interpolation) ;;
  let s := set_sourceInterpolator interpolation s in
  let s := when (strstr buffer1 "viewMode") (parse_viewMode buffer2) s in
  let s := when (strstr buffer1 "viewMix") (set_viewMix (atof buffer2)) s in
  let s := when (strstr buffer1 "DisplayTargetContour")
             (set_DisplayTargetContour (atob buffer2)) s in
  let s := when (strstr buffer1 "DisplaySourceContour")
             (set_DisplaySourceContour (atob buffer2)) s in
  let s := when (strstr buffer1 "DisplayCursor")
             (set_DisplayCursor (atob buffer2)) s in
  let s := when (strstr buffer1 "CursorMode") (parse_CursorMode buffer2) s in
  let s := when (strstr buffer1 "DisplayDeformationGrid")
             (set_DisplayDeformationGrid (atob buffer2)) s in
  let s := when (strstr buffer1 "DisplayDeformationPoints")
             (set_DisplayDeformationPoints (atob buffer2)) s in
  let s := when (strstr buffer1 "DisplayDeformationArrows")
             (set_DisplayDeformationArrows (atob buffer2)) s in
  let s := when (strstr buffer1 "DisplayLandmarks")
             (set_DisplayLandmarks (atob buffer2)) s in
  let s := when (HAVE_VTK && strstr buffer1 "DisplayObject")
             (set_DisplayObject (atob buffer2)) s in
  let s := when (HAVE_VTK && strstr buffer1 "DisplayObjectWarp")
             (set_DisplayObjectWarp (atob buffer2)) s in
  let s := when (HAVE_VTK && strstr buffer1 "DisplayObjectGrid")
             (set_DisplayObjectGrid (atob buffer2)) s in
  let s := when (strstr buffer1 "targetLookupTable_min")
             (fun s => set_targetLookupTable
                (SetMinDisplayIntensity (atoi buffer2) (_targetLookupTable s)) s) s in
  let s := when (strstr buffer1 "targetLookupTable_max")
             (fun s => set_targetLookupTable
                (SetMaxDisplayIntensity (atoi buffer2) (_targetLookupTable s)) s) s in
  let s := when (strstr buffer1 "targetLookupTable_mode")
             (fun s => set_targetLookupTable
                (parse_ColorMode buffer2 (_targetLookupTable s)) s) s in
  let s := when (strstr buffer1 "sourceLookupTable_min")
             (fun s => set_sourceLookupTable
                (SetMinDisplayIntensity (atoi buffer2) (_sourceLookupTable s)) s) s in
  let s := when (strstr buffer1 "sourceLookupTable_max")
             (fun s => set_sourceLookupTable
                (SetMaxDisplayIntensity (atoi buffer2) (_sourceLookupTable s)) s) s in
  let s := when (strstr buffer1 "sourceLookupTable_mode")
             (fun s => set_sourceLookupTable
                (parse_ColorMode buffer2 (_sourceLookupTable s)) s) s in
  let s := when (strstr buffer1 "subtractionLookupTable_min")
             (fun s => set_subtractionLookupTable
                (SetMinDisplayIntensity (atoi buffer2) (_subtractionLookupTable s)) s) s in
  let s := when (strstr buffer1 "subtractionLookupTable_max")
             (fun s => set_subtractionLookupTable
                (SetMaxDisplayIntensity (atoi buffer2) (_subtractionLookupTable s)) s) s in
  let s := when (strstr buffer1 "subtractionLookupTable_mode")
             (fun s => set_subtractionLookupTable
                (parse_ColorMode buffer2 (_subtractionLookupTable s)) s) s in
  Ok s.

(** The [while (from.peek() != EOF)] loop of [Read] together with the
    [do ... while] loop of the [read_line] it calls, as one recursion over
    the lines still in the stream.  [skipping] holds inside [read_line] once
    it has passed over a line.
    - No line left outside [read_line]: [peek] finds the end and the loop ends.
    - No line left inside [read_line]: [getline] extracts nothing and leaves
      [buffer1] empty, the next turn finds [eof] and returns 0, and the body
      runs on the empty [buffer1] (which holds none of the keys, so the
      stale [buffer2] is not read).
    - A line of 255 characters or more: [getline(buffer1, 255)] stores its
      first 254 characters and sets [failbit].  If they are passed over,
      every later [getline] fails without setting [eofbit] and the loop
      never ends; otherwise the body runs on them and the next [peek] ends
      the loop. *)
Fixpoint Read_loop (lines : list string) (skipping : bool) (s : RView) : result RView :=
  match lines with
  | [] => if skipping then Read_body EmptyString EmptyString s else Ok s
  | l :: rest =>
      if Nat.leb 255 (String.length l) then
        let buffer1 := substring 0 254 l in
        if skipped buffer1 then Hang
        else buffer2 <- split_line buffer1 ;; Read_body buffer1 buffer2 s
      else if skipped l then Read_loop rest true s
      else buffer2 <- split_line l ;;
           s' <- Read_body l buffer2 s ;;
           Read_loop rest false s'
  end.

(** [RView::Read] on the content of the file, [None] if it cannot be
    opened.  In the end the layout named by [_configMode] is configured. *)
Definition Read (from : option file) (s : RView) : result RView :=
  match from with
  | None => Exit
  | Some lines =>
      s' <- Read_loop lines false s ;;
      Configure (preset (_configMode s')) s'
  end.

Definition GetTargetInterpolationMode (s : RView) : InterpolationMode :=
  _targetInterpolator s.
Definition GetSourceInterpolationMode (s : RView) : InterpolationMode :=
  _sourceInterpolator s.

Definition write_configMode (m : ConfigViewerMode) : string :=
  match m with
  | _View_XY => "configMode                        = View_XY"
  | _View_XZ => "configMode                        = View_XZ"
  | _View_YZ => "configMode                        = View_YZ"
  | _View_XY_XZ_v => "configMode                        = View_XY_XZ_v"
  | _View_XY_YZ_v => "configMode                        = View_XY_YZ_v"
  | _View_XZ_YZ_v => "configMode                        = View_XZ_YZ_v"
  | _View_XY_XZ_h => "configMode                        = View_XY_XZ_h"
  | _View_XY_YZ_h => "configMode                        = View_XY_YZ_h"
  | _View_XZ_YZ_h => "configMode                        = View_XZ_YZ_h"
  | _View_XY_XZ_YZ => "configMode                        = View_XY_XZ_YZ"
  | _View_AB_XY_v => "configMode                        = View_AB_XY_v"
  | _View_AB_XZ_v => "configMode                        = View_AB_XZ_v"
  | _View_AB_YZ_v => "configMode                        = View_AB_YZ_v"
  | _View_AB_XY_XZ_v => "configMode                        = View_AB_XY_XZ_v"
  | _View_AB_XY_h => "configMode                        = View_AB_XY_h"
  | _View_AB_XZ_h => "configMode                        = View_AB_XZ_h"
  | _View_AB_YZ_h => "configMode                        = View_AB_YZ_h"
  | _View_AB_XY_XZ_h => "configMode                        = View_AB_XY_XZ_h"
  end.

Definition write_targetInterpolation (m : InterpolationMode) : string :=
  match m with
  | Interpolation_NN => "targetInterpolationMode           = mirtk::Interpolation_NN"
  | Interpolation_Linear => "targetInterpolationMode           = mirtk::Interpolation_Linear"
  | Interpolation_CSpline => "targetInterpolationMode           = Interpolation_C1Spline"
  | Interpolation_BSpline => "targetInterpolationMode           = mirtk::Interpolation_BSpline"
  | Interpolation_Sinc => "targetInterpolationMode           = mirtk::Interpolation_Sinc"
  end.

Definition write_sourceInterpolation (m : InterpolationMode) : string :=
  match m with
  | Interpolation_NN => "sourceInterpolationMode           = mirtk::Interpolation_NN"
  | Interpolation_Linear => "sourceInterpolationMode           = mirtk::Interpolation_Linear"
  | Interpolation_CSpline => "sourceInterpolationMode           = Interpolation_C1Spline"
  | Interpolation_BSpline => "sourceInterpolationMode           = mirtk::Interpolation_BSpline"
  | Interpolation_Sinc => "sourceInterpolationMode           = mirtk::Interpolation_Sinc"
  end.

(** The [switch (_viewMode)] of [Write]: two of the modes write no line. *)
Definition write_viewMode (m : RViewMode) : list string :=
  match m with
  | View_A => ["viewMode                          = View_A"]
  | View_B => ["viewMode                          = View_B"]
  | View_Checkerboard => ["viewMode                          = View_Checkerboard"]
  | View_Subtraction => ["viewMode                          = View_Subtraction"]
  | View_HShutter => ["viewMode                          = View_HShutter"]
  | View_VShutter => ["viewMode                         = View_VShutter"]
  | View_AoverB | View_BoverA => []
  end.

Definition write_CursorMode (m : CursorMode) : string :=
  match m with
  | CrossHair => "CursorMode                        = CrossHair"
  | CursorX => "CursorMode                        = CursorX"
  | CursorV => "CursorMode                        = CursorV"
  | CursorBar => "CursorMode                        = CursorBar"
  end.

Definition write_ColorMode (key : string) (m : ColorMode) : string :=
  match m with
  | ColorMode_Red => (key ++ "= ColorMode_Red")%string
  | ColorMode_Green => (key ++ "= ColorMode_Green")%string
  | ColorMode_Blue => (key ++ "= ColorMode_Blue")%string
  | ColorMode_Luminance => (key ++ "= ColorMode_Luminance")%string
  | ColorMode_Rainbow => (key ++ "= ColorMode_Rainbow")%string
  end.

(** [RView::Write]: the lines written to the file. *)
Definition Write (s : RView) : file :=
  ([EmptyString; "#"; "# RView configuration"; "#"; EmptyString;
   write_configMode (_configMode s);
   ("screenX                           = " ++ show_int (_screenX s))%string;
   ("screenY                           = " ++ show_int (_screenY s))%string;
   ("origin_x                          = " ++ show_double (_origin_x s))%string;
   ("origin_y                          = " ++ show_double (_origin_y s))%string;
   ("origin_z                          = " ++ show_double (_origin_z s))%string;
   ("resolution                        = " ++ show_double (_resolution s))%string;
   write_targetInterpolation (GetTargetInterpolationMode s);
   write_sourceInterpolation (GetSourceInterpolationMode s);
   EmptyString; "#"; "# Display configuration"; "#"; EmptyString]
  ++ write_viewMode (_viewMode s) ++
  [("viewMix                           = " ++ show_double (_viewMix s))%string;
   ("DisplayTargetContour              = " ++ show_bool (_DisplayTargetContour s))%string;
   ("DisplaySourceContour              = " ++ show_bool (_DisplaySourceContour s))%string;
   ("DisplayCursor                     = " ++ show_bool (_DisplayCursor s))%string;
   write_CursorMode (_CursorMode s);
   ("DisplayDeformationGrid            = " ++ show_bool (_DisplayDeformationGrid s))%string;
   ("DisplayDeformationPoints          = " ++ show_bool (_DisplayDeformationPoints s))%string;
   ("DisplayDeformationArrows          = " ++ show_bool (_DisplayDeformationArrows s))%string;
   ("DisplayLandmarks                  = " ++ show_bool (_DisplayLandmarks s))%string]
  ++ (if HAVE_VTK then
        [("DisplayObject                     = " ++ show_bool (_DisplayObject s))%string;
         ("DisplayObjectWarp                 = " ++ show_bool (_DisplayObjectWarp s))%string;
         ("DisplayObjectGrid                 = " ++ show_bool (_DisplayObjectGrid s))%string]
      else []) ++
  [EmptyString; "#"; "# LookupTables"; "#"; EmptyString;
   ("targetLookupTable_minDisplay      = "
     ++ show_int (GetMinDisplayIntensity (_targetLookupTable s)))%string;
   ("targetLookupTable_maxDisplay      = "
     ++ show_int (GetMaxDisplayIntensity (_targetLookupTable s)))%string;
   write_ColorMode "targetLookupTable_mode            "
     (GetColorMode (_targetLookupTable s));
   ("sourceLookupTable_minDisplay      = "
     ++ show_int (GetMinDisplayIntensity (_sourceLookupTable s)))%string;
   ("sourceLookupTable_maxDisplay      = "
     ++ show_int (GetMaxDisplayIntensity (_sourceLookupTable s)))%string;
   write_ColorMode "sourceLookupTable_mode            "
     (GetColorMode (_sourceLookupTable s));
   ("subtractionLookupTable_minDisplay = "
     ++ show_int (GetMinDisplayIntensity (_subtractionLookupTable s)))%string;
   ("subtractionLookupTable_maxDisplay = "
     ++ show_int (GetMaxDisplayIntensity (_subtractionLookupTable s)))%string;
   write_ColorMode "subtractionLookupTable_mode       "
     (GetColorMode (_subtractionLookupTable s))])%list.

End Config.

(* ===================================================================== *)
(** * A concrete instance of the interfaces and concrete states *)
(* ===================================================================== *)

Definition Zclamp (lo hi x : Z) : Z := Z.max lo (Z.min hi x).

(** A luminance ramp between the display limits of the table. *)
Definition ramp_At (l : LookupTable) (v : Z) : RGBA.t :=
  let lo := _minDisplay l in
  let hi := _maxDisplay l in
  let level := if hi <=? lo then 0
               else 255 * (Zclamp lo hi v - lo) / (hi - lo) in
  RGBA.mk level level level 1.

(** An image on an axis-aligned grid: voxel (i, j, k) lies at
    origin + spacing * ((i, j, k) - (size - 1) / 2). *)
Definition grid_to_world (n : Z * Z * Z) (o d : Point) (p : Point) : Point :=
  let '(nx, ny, nz) := n in
  let '(ox, oy, oz) := o in
  let '(dx, dy, dz) := d in
  let '(x, y, z) := p in
  (Qred (ox + dx * (x - inject_Z (nx - 1) / 2)),
   Qred (oy + dy * (y - inject_Z (ny - 1) / 2)),
   Qred (oz + dz * (z - inject_Z (nz - 1) / 2)))%Q.

Definition world_to_grid (n : Z * Z * Z) (o d : Point) (p : Point) : Point :=
  let '(nx, ny, nz) := n in
  let '(ox, oy, oz) := o in
  let '(dx, dy, dz) := d in
  let '(x, y, z) := p in
  (Qred ((x - ox) / dx + inject_Z (nx - 1) / 2),
   Qred ((y - oy) / dy + inject_Z (ny - 1) / 2),
   Qred ((z - oz) / dz + inject_Z (nz - 1) / 2))%Q.

Definition unit_axes : Vec3 * Vec3 * Vec3 :=
  ((1, 0, 0), (0, 1, 0), (0, 0, 1))%Q.

Definition grid_image (n : Z * Z * Z) (o d : Point) (vox : list Z) : Image :=
  let '(nx, ny, nz) := n in
  let '(dx, dy, dz) := d in
  mkImage nx ny nz dx dy dz vox (grid_to_world n o d) (world_to_grid n o d)
    o unit_axes (R2L, P2A, I2S).

Definition empty_image : Image :=
  grid_image (0, 0, 0) (0, 0, 0)%Q (1, 1, 1)%Q [].

(** The output image of a viewer on a grid in the plane of the viewer: the
    first two grid axes are the in-plane display axes, the third is the
    axis through the plane. *)
Definition plane_to_world (perm : Point -> Point) (n : Z * Z * Z) (o d : Point)
    (p : Point) : Point :=
  let '(ox, oy, oz) := o in
  let '(x, y, z) := perm (grid_to_world n (0, 0, 0)%Q d p) in
  (Qred (ox + x), Qred (oy + y), Qred (oz + z))%Q.

Definition world_to_plane (perm' : Point -> Point) (n : Z * Z * Z) (o d : Point)
    (p : Point) : Point :=
  let '(ox, oy, oz) := o in
  let '(x, y, z) := p in
  world_to_grid n (0, 0, 0)%Q d (perm' ((x - ox)%Q, (y - oy)%Q, (z - oz)%Q)).

(** From the axes of an output image (unit vectors along the world axes)
    to the map that places grid steps in the world, and back. *)
Definition axes_perm (xa ya za : Vec3) (p : Point) : Point :=
  let '(x, y, z) := p in
  let '(xa0, xa1, xa2) := xa in
  let '(ya0, ya1, ya2) := ya in
  let '(za0, za1, za2) := za in
  (x * xa0 + y * ya0 + z * za0,
   x * xa1 + y * ya1 + z * za1,
   x * xa2 + y * ya2 + z * za2)%Q.

Definition axes_perm' (xa ya za : Vec3) (p : Point) : Point :=
  let '(x, y, z) := p in
  let '(xa0, xa1, xa2) := xa in
  let '(ya0, ya1, ya2) := ya in
  let '(za0, za1, za2) := za in
  (x * xa0 + y * xa1 + z * xa2,
   x * ya0 + y * ya1 + z * ya2,
   x * za0 + y * za1 + z * za2)%Q.

Definition attr_image (a : ImageAttributes) : Image :=
  let n := (attr_x a, attr_y a, attr_z a) in
  let o := (attr_xorigin a, attr_yorigin a, attr_zorigin a) in
  let d := (attr_dx a, attr_dy a, attr_dz a) in
  mkImage (attr_x a) (attr_y a) (attr_z a) (attr_dx a) (attr_dy a) (attr_dz a)
    (repeat 0 (Z.to_nat (attr_x a * attr_y a * attr_z a)))
    (plane_to_world (axes_perm (attr_xaxis a) (attr_yaxis a) (attr_zaxis a)) n o d)
    (world_to_plane (axes_perm' (attr_xaxis a) (attr_yaxis a) (attr_zaxis a)) n o d)
    o (attr_xaxis a, attr_yaxis a, attr_zaxis a) (R2L, P2A, I2S).

(** A viewer covers its share of the screen. *)
Definition screen_Viewer (m : ViewerMode) (x1 y1 x2 y2 : Q) (sx sy : Z) : Viewer :=
  mkViewer x1 y1 x2 y2
    (Qfloor ((x2 - x1) * inject_Z sx)) (Qfloor ((y2 - y1) * inject_Z sy)) m.

Definition half : Q := 1 # 2.

(** Layout tables: one viewer, two viewers side by side, two viewers one
    above the other, three viewers. *)
Definition demo_preset (m : ConfigViewerMode) : list RViewConfig :=
  let one a := [mkRViewConfig 0 0 1 1 a] in
  let v a c := [mkRViewConfig 0 0 half 1 a; mkRViewConfig half 0 1 1 c] in
  let h a c := [mkRViewConfig 0 half 1 1 a; mkRViewConfig 0 0 1 half c] in
  match m with
  | _View_XY => one Viewer_XY
  | _View_XZ => one Viewer_XZ
  | _View_YZ => one Viewer_YZ
  | _View_XY_XZ_v => v Viewer_XY Viewer_XZ
  | _View_XY_YZ_v => v Viewer_XY Viewer_YZ
  | _View_XZ_YZ_v => v Viewer_XZ Viewer_YZ
  | _View_XY_XZ_h => h Viewer_XY Viewer_XZ
  | _View_XY_YZ_h => h Viewer_XY Viewer_YZ
  | _View_XZ_YZ_h => h Viewer_XZ Viewer_YZ
  | _View_XY_XZ_YZ =>
      [mkRViewConfig 0 half half 1 Viewer_XY; mkRViewConfig half half 1 1 Viewer_XZ;
       mkRViewConfig 0 0 half half Viewer_YZ]
  | _View_AB_XY_v => v Viewer_XY Viewer_XY
  | _View_AB_XZ_v => v Viewer_XZ Viewer_XZ
  | _View_AB_YZ_v => v Viewer_YZ Viewer_YZ
  | _View_AB_XY_XZ_v =>
      [mkRViewConfig 0 half half 1 Viewer_XY; mkRViewConfig half half 1 1 Viewer_XY;
       mkRViewConfig 0 0 half half Viewer_XZ; mkRViewConfig half 0 1 half Viewer_XZ]
  | _View_AB_XY_h => h Viewer_XY Viewer_XY
  | _View_AB_XZ_h => h Viewer_XZ Viewer_XZ
  | _View_AB_YZ_h => h Viewer_YZ Viewer_YZ
  | _View_AB_XY_XZ_h =>
      [mkRViewConfig 0 half half 1 Viewer_XY; mkRViewConfig 0 0 half half Viewer_XY;
       mkRViewConfig half half 1 1 Viewer_XZ; mkRViewConfig half 0 1 half Viewer_XZ]
  end.

#[export] Instance demo_ViewerApi : ViewerApi := {|
  At := ramp_At;
  Color_default := mkColor 0 0 0;
  new_Viewer := screen_Viewer;
  preset := demo_preset;
  Initialise := fun c im => mkVoxelContour [] im [];
  AddPointSet := fun c p w =>
    mkVoxelContour [p] (_raster c) (_raster c :: contour_history c);
  AddPoint := fun c p w =>
    mkVoxelContour (contour_points c ++ [p]) (_raster c) (_raster c :: contour_history c);
  Close := fun c p w =>
    mkVoxelContour (contour_points c ++ [p]) (_raster c) (_raster c :: contour_history c);
  contour_FillArea := fun c p =>
    mkVoxelContour (contour_points c ++ [p]) (_raster c) (_raster c :: contour_history c);
  RegionGrowing := fun c p lo hi m =>
    mkVoxelContour (contour_points c ++ [p]) (_raster c) (_raster c :: contour_history c)
|}.

#[export] Instance demo_MirtkApi : MirtkApi := {|
  Run := fun ro pad input output => output;
  Image_new := empty_image;
  Image_Initialize := attr_image
|}.

(** A target volume of 10 x 10 x 10 voxels of 1 mm whose first voxel lies
    at the world position (1, 1, 1). *)
Definition demo_volume : Image :=
  grid_image (10, 10, 10) (11 # 2, 11 # 2, 11 # 2) (1, 1, 1)%Q (repeat 0 1000%nat).

(** The state of a viewer on a screen of 200 x 100 pixels, before any layout
    is configured. *)
Definition demo_base : RView := {|
  _screenX := 200;
  _screenY := 100;
  _origin_x := 6;
  _origin_y := 6;
  _origin_z := 6;
  _resolution := 2;
  _xaxis := (1, 0, 0)%Q;
  _yaxis := (0, 1, 0)%Q;
  _zaxis := (0, 0, 1)%Q;
  _FlipX := false;
  _FlipY := false;
  _FlipZ := false;
  _viewMode := View_A;
  _viewMix := half;
  _targetInterpolator := Interpolation_NN;
  _sourceInterpolator := Interpolation_NN;
  _DisplaySegmentationLabels := false;
  _SegmentationMode := 0;
  _PaintBrushWidth := 1;
  _DisplayTargetContour := false;
  _DisplaySourceContour := false;
  _DisplayCursor := true;
  _DisplayMode := Neurological;
  _CursorMode := CrossHair;
  _DisplayDeformationGrid := false;
  _DisplayDeformationPoints := false;
  _DisplayDeformationArrows := false;
  _contourViewer := -1;
  _contourViewerMode := Viewer_XY;
  _slots := [];
  _targetUpdate := false;
  _sourceUpdate := false;
  _segmentationUpdate := false;
  _selectionUpdate := false;
  _DisplayLandmarks := false;
  _DisplayObject := false;
  _DisplayObjectWarp := false;
  _DisplayObjectGrid := false;
  _targetImage := demo_volume;
  _sourceImage := demo_volume;
  _segmentationImage := empty_image;
  _segmentTable := fun _ => mkSegmentEntry false 0 (mkColor 0 0 0);
  _targetLookupTable := mkLookupTable 0 10000 ColorMode_Luminance;
  _sourceLookupTable := mkLookupTable 0 10000 ColorMode_Luminance;
  _subtractionLookupTable := mkLookupTable (-10000) 10000 ColorMode_Luminance;
  _regionGrowingMode := RegionGrowing2D;
  _RegionGrowingThresholdMin := 0;
  _RegionGrowingThresholdMax := 0;
  _configMode := _View_XY_XZ_YZ;
  _x1 := 1; _y1 := 1; _z1 := 1;
  _x2 := 10; _y2 := 10; _z2 := 10;
  _voxelContour := mkVoxelContour [] empty_image [];
  cerr := []
|}.

(** A raster of one pixel, and a viewer of one pixel with its four rasters. *)
Definition pixel_image (v : Z) : Image :=
  mkImage 1 1 1 1 1 1 [v] (fun p => p) (fun p => p) (0, 0, 0)%Q unit_axes
    (R2L, P2A, I2S).

Definition pixel_slot (is_source : bool) (t u g c : Z) : Slot :=
  mkSlot (mkViewer 0 0 1 1 1 1 Viewer_XY) is_source
    (pixel_image t) (pixel_image u) (pixel_image g) (pixel_image c) [].

(** A [double] is written with the digits of a few small values. *)
Definition demo_show_double (x : Q) : string :=
  match Qnum (Qred x), Qden (Qred x) with
  | 0, _ => "0"
  | 1, 2%positive => "0.5"
  | 1, 1%positive => "1"
  | 2, 1%positive => "2"
  | 6, 1%positive => "6"
  | _, _ => "inf"
  end.

Definition demo_atof (s : string) : Q :=
  if String.eqb s "0.5" then 1 # 2 else inject_Z (atoi s).

#[export] Instance demo_CxxIO : CxxIO.
Proof.
  refine {| atof := demo_atof; show_double := demo_show_double |};
    intros x; unfold demo_show_double; destruct (Qred x) as [n d]; cbn [Qnum Qden];
    (destruct n as [|p|p]; [ | | ]; try (cbn; first [reflexivity | lia]);
     do 3 (try (destruct p as [p|p|]; try (cbn; first [reflexivity | lia])));
     do 2 (try (destruct d as [d|d|]; try (cbn; first [reflexivity | lia])))).
Defined.

(** The same viewer on a screen of 20 x 10 pixels. *)
Definition small_state : RView := set_screenY 10 (set_screenX 20 demo_base).

(** The state of [r] when the call returned, [s] otherwise. *)
Definition returned (r : result RView) (s : RView) : RView :=
  match r with Ok s' => s' | _ => s end.

Definition is_Ok {A : Type} (r : result A) : bool :=
  match r with Ok _ => true | _ => false end.

(** The viewer with an XY and an XZ view side by side, the region of
    interest on the whole target volume. *)
Definition two_view_state : RView :=
  returned (Configure (preset _View_XY_XZ_v) (set_configMode _View_XY_XZ_v demo_base))
    demo_base.

(** Subtraction view of one pixel in a source viewer: target sample 10000,
    source sample 0. *)
Definition subtraction_source_state : RView :=
  set_slots [pixel_slot true 10000 0 0 0] (set_viewMode View_Subtraction demo_base).

(** Subtraction view of one pixel in a target viewer: target sample 5,
    source sample 3. *)
Definition subtraction_state : RView :=
  set_slots [pixel_slot false 5 3 0 0] (set_viewMode View_Subtraction demo_base).

(** Target view of one selected pixel with target sample [t]. *)
Definition selected_state (t : Z) : RView :=
  set_voxelContour (mkVoxelContour [(0, 0, 0)%Q] (pixel_image 1) [])
    (set_contourViewer 0 (set_slots [pixel_slot false t 0 0 1] demo_base)).

(** A target volume stored from left to right along its first axis. *)
Definition left_to_right_volume : Image :=
  mkImage 10 10 10 1 1 1 (repeat 0 1000%nat)
    (ImageToWorld demo_volume) (WorldToImage demo_volume)
    (GetOrigin demo_volume) unit_axes (L2R, P2A, I2S).

Definition left_to_right_state (m : DisplayMode) : RView :=
  set_DisplayMode m
    (set_targetImage left_to_right_volume
       (returned (Configure (preset _View_XY) small_state) small_state)).

(** Two short configuration files. *)
Definition screen_file : file :=
  ["# size of the window"; "screenX = 640"; "screenY = 480"].


(* ===================================================================== *)
(** * Notions used in the statements *)
(* ===================================================================== *)

(** The two corners of the region of interest in voxel coordinates of the
    target volume. *)
Definition corner1 (s : RView) : Point :=
  WorldToImage (_targetImage s) (_x1 s, _y1 s, _z1 s).
Definition corner2 (s : RView) : Point :=
  WorldToImage (_targetImage s) (_x2 s, _y2 s, _z2 s).

(** The voxel a point in voxel coordinates lies in. *)
Definition voxel_of (p : Point) : Point :=
  let '(x, y, z) := p in (round x, round y, round z).

(** Orientation codes by the display axis they resolve to. *)
Definition left_right (c : OrientationCode) : bool :=
  match c with L2R | R2L => true | _ => false end.
Definition front_back (c : OrientationCode) : bool :=
  match c with P2A | A2P => true | _ => false end.
Definition up_down (c : OrientationCode) : bool :=
  match c with I2S | S2I => true | _ => false end.

(** What one [switch] of [Reset] reports. *)
Definition report (code : OrientationCode) (what : string) : list string :=
  match code with Orientation_Unknown => [what] | _ => [] end.

(** Character tests on strings. *)
Fixpoint has_char (c : ascii) (s : string) : bool :=
  match s with
  | EmptyString => false
  | String d s' => Ascii.eqb d c || has_char c s'
  end.

Definition nonempty (s : string) : bool :=
  match s with EmptyString => false | String _ _ => true end.

Definition all_chars (P : ascii -> bool) (s : string) : bool :=
  forallb P (list_ascii_of_string s).

Definition starts_outside (P : ascii -> bool) (n : string) : bool :=
  match n with EmptyString => false | String a _ => negb (P a) end.

(** The part of a written line before the blank in front of its value: it
    is not passed over, its first [=] is its last character, it is short. *)
Definition line_head (pre : string) : bool :=
  negb (skipped pre) &&
  match strchr pre "=" with
  | Some (String _ EmptyString) => true
  | _ => false
  end &&
  Nat.leb (String.length pre) 200.

(** The range of [int]. *)
Definition int_range (z : Z) : Prop := - 2 ^ 31 <= z < 2 ^ 31.

(** The [int] members [Write] prints are in the range of [int]. *)
Definition ints_in_range (s : RView) : Prop :=
  int_range (_screenX s) /\ int_range (_screenY s) /\
  int_range (_minDisplay (_targetLookupTable s)) /\
  int_range (_maxDisplay (_targetLookupTable s)) /\
  int_range (_minDisplay (_sourceLookupTable s)) /\
  int_range (_maxDisplay (_sourceLookupTable s)) /\
  int_range (_minDisplay (_subtractionLookupTable s)) /\
  int_range (_maxDisplay (_subtractionLookupTable s)).

(** The layouts hold viewers of a valid mode only. *)
Definition valid_layouts `{ViewerApi} : Prop :=
  forall m c sx sy, In c (preset m) ->
    GetViewerMode (new_Viewer (mode c) (xmin c) (ymin c) (xmax c) (ymax c) sx sy)
    <> Viewer_None.

(** The four layouts with two rows of target and source views. *)
Definition horizontal_AB (m : ConfigViewerMode) : bool :=
  match m with
  | _View_AB_XY_h | _View_AB_XZ_h | _View_AB_YZ_h | _View_AB_XY_XZ_h => true
  | _ => false
  end.

(** The view modes [Write] writes a line for. *)
Definition written_viewMode (m : RViewMode) : bool :=
  match m with View_AoverB | View_BoverA => false | _ => true end.

(** The layout [Read] stores for the line [Write] writes for a layout. *)
Definition read_back (m : ConfigViewerMode) : ConfigViewerMode :=
  match m with
  | _View_AB_XY_h => _View_AB_XY_v
  | _View_AB_XZ_h => _View_AB_XZ_v
  | _View_AB_YZ_h => _View_AB_YZ_v
  | _View_AB_XY_XZ_h => _View_AB_XY_XZ_v
  | m => m
  end.

(** Both interpolators recreated for nearest-neighbour interpolation. *)
Definition reset_interpolators (s : RView) : RView :=
  set_sourceInterpolator Interpolation_NN (set_targetInterpolator Interpolation_NN s).

Definition update_targetLookupTable (f : LookupTable -> LookupTable) (s : RView) : RView :=
  set_targetLookupTable (f (_targetLookupTable s)) s.
Definition update_sourceLookupTable (f : LookupTable -> LookupTable) (s : RView) : RView :=
  set_sourceLookupTable (f (_sourceLookupTable s)) s.
Definition update_subtractionLookupTable (f : LookupTable -> LookupTable) (s : RView)
    : RView :=
  set_subtractionLookupTable (f (_subtractionLookupTable s)) s.

(** The members [Read] sets from the file. *)
Definition settings (s : RView) :=
  (_configMode s, _screenX s, _screenY s, _viewMode s,
   (_targetInterpolator s, _sourceInterpolator s),
   (_targetLookupTable s, _sourceLookupTable s, _subtractionLookupTable s),
   (_DisplayTargetContour s, _DisplaySourceContour s, _DisplayCursor s,
    _DisplayDeformationGrid s, _DisplayDeformationPoints s,
    _DisplayDeformationArrows s, _DisplayLandmarks s),
   (_DisplayObject s, _DisplayObjectWarp s, _DisplayObjectGrid s)).


(** [Read] finds one of the two screen keys in the line. *)
Definition screen_line (buffer1 : string) : bool :=
  strstr buffer1 "screenX" || strstr buffer1 "screenY".


(** The lines the body of the loop of [Read] runs on, as the pairs
    ([buffer1], [buffer2]) that [read_line] hands over, in order. *)
Fixpoint Read_lines (lines : list string) (skipping : bool) : list (string * string) :=
  match lines with
  | [] => if skipping then [(EmptyString, EmptyString)] else []
  | l :: rest =>
      if Nat.leb 255 (String.length l) then
        let buffer1 := substring 0 254 l in
        if skipped buffer1 then []
        else match split_line buffer1 with
             | Ok buffer2 => [(buffer1, buffer2)]
             | _ => []
             end
      else if skipped l then Read_lines rest true
      else match split_line l with
           | Ok buffer2 => (l, buffer2) :: Read_lines rest false
           | _ => []
           end
  end.



(* ===================================================================== *)
(** * Further member functions of RView *)
(* ===================================================================== *)

(** [RView::ResetROI]: the region of interest is set to the bounding box of
    the target image. *)
Definition ResetROI (s : RView) : RView :=
  let '(x1, y1, z1) := ImageToWorld (_targetImage s) (0, 0, 0)%Q in
  let s := set_z1 z1 (set_y1 y1 (set_x1 x1 s)) in
  let '(x2, y2, z2) :=
    ImageToWorld (_targetImage s)
      (inject_Z (GetX (_targetImage s) - 1), inject_Z (GetY (_targetImage s) - 1),
       inject_Z (GetZ (_targetImage s) - 1)) in
  set_z2 z2 (set_y2 y2 (set_x2 x2 s)).

(** Two points with equal coordinates (as numbers). *)
Definition Peq (p q : Point) : Prop :=
  let '(x, y, z) := p in
  let '(x', y', z') := q in
  (x == x' /\ y == y' /\ z == z')%Q.

(** [WorldToImage] of an image undoes its [ImageToWorld]. *)
Definition inverse_maps (im : Image) : Prop :=
  forall p, Peq (WorldToImage im (ImageToWorld im p)) p.

(** No viewport of the viewers [sls] holds the point (x, y). *)
Definition outside_all (sls : list Slot) (x y : Q) : bool :=
  forallb (fun sl => negb (in_viewport (_viewer sl) x y)) sls.

(** The viewer with one XY view on a screen of 200 x 100 pixels. *)
Definition one_view_state : RView :=
  returned (Configure (preset _View_XY) (set_configMode _View_XY demo_base)) demo_base.

(** The viewers of a layout among [config] that come before entry [n] and
    show the plane [m]. *)
Definition earlier_viewers (m : ViewerMode) (n : nat) (config : list RViewConfig) : nat :=
  List.length (filter (fun c => ViewerMode_eqb (mode c) m) (firstn n config)).

(** No viewer among [sls] shows the plane [m]. *)
Definition no_viewer_of (m : ViewerMode) (sls : list Slot) : bool :=
  forallb (fun sl => negb (ViewerMode_eqb (GetViewerMode (_viewer sl)) m)) sls.

(** The viewer that [Configure] creates for an entry of a layout. *)
Definition viewer_of `{ViewerApi} (s : RView) (c : RViewConfig) : Viewer :=
  new_Viewer (mode c) (xmin c) (ymin c) (xmax c) (ymax c) (_screenX s) (_screenY s).

(** A contour with a point, drawn in the only viewer of a one-pixel XY
    layout. *)
Definition open_contour_state : RView := selected_state 0.

(** A display mode and orientation codes for which [Reset] assigns all
    three display axes: the native mode, or codes that name the three
    anatomical axes. *)
Definition resolved (s : RView) : bool :=
  match _DisplayMode s with
  | Native => true
  | _ =>
      let '(i, j, k) := Orientation (_targetImage s) in
      (left_right i || left_right j || left_right k) &&
      (front_back i || front_back j || front_back k) &&
      (up_down i || up_down j || up_down k)
  end.

(** The display origin. *)
Definition origin (s : RView) : Point := (_origin_x s, _origin_y s, _origin_z s).

(** A target volume whose third axis has no known orientation, shown with
    the flip of z requested. *)
Definition unknown_axis_volume : Image :=
  mkImage 10 10 10 1 1 1 (repeat 0 1000%nat)
    (ImageToWorld demo_volume) (WorldToImage demo_volume)
    (GetOrigin demo_volume) unit_axes (L2R, P2A, Orientation_Unknown).

Definition unknown_axis_state : RView :=
  set_FlipZ true (set_targetImage unknown_axis_volume one_view_state).

(** A line that [getline(buffer1, 255)] reads whole. *)
Definition short (l : string) : bool := negb (Nat.leb 255 (String.length l)).

(** A line on which [Read] ends the process: it has no [=], or it names an
    interpolation mode with a token that is none of the five. *)
Definition fatal_line (l : string) : bool :=
  match split_line l with
  | Ok v => (strstr l "targetInterpolationMode" || strstr l "sourceInterpolationMode")
            && negb (is_Ok (parse_interpolation v))
  | _ => true
  end.

(** A line [Read] gets past: read whole, and passed over or not fatal. *)
Definition readable (l : string) : bool :=
  short l && (skipped l || negb (fatal_line l)).

(** The keys [Read] looks for in a line. *)
Definition Read_keys : list string :=
  ["configMode"; "screenX"; "screenY"; "origin_x"; "origin_y"; "origin_z"; "resolution";
   "targetInterpolationMode"; "sourceInterpolationMode"; "viewMode"; "viewMix";
   "DisplayTargetContour"; "DisplaySourceContour"; "DisplayCursor"; "CursorMode";
   "DisplayDeformationGrid"; "DisplayDeformationPoints"; "DisplayDeformationArrows";
   "DisplayLandmarks"; "DisplayObject"; "DisplayObjectWarp"; "DisplayObjectGrid";
   "targetLookupTable_min"; "targetLookupTable_max"; "targetLookupTable_mode";
   "sourceLookupTable_min"; "sourceLookupTable_max"; "sourceLookupTable_mode";
   "subtractionLookupTable_min"; "subtractionLookupTable_max";
   "subtractionLookupTable_mode"].

(** A line in which [Read] finds none of its keys. *)
Definition no_key (buffer1 : string) : bool :=
  forallb (fun k => negb (strstr buffer1 k)) Read_keys.

(** A line of 300 characters that begins with [#]. *)
Definition long_comment : string :=
  String "#" (string_of_list_ascii (repeat "-"%char 299)).

(* ===================================================================== *)
(** * The pointer: SetOrigin, MouseWheel and MousePosition *)
(* ===================================================================== *)

(** The members of [RView] that [MousePosition] writes: the viewer and the
    voxel under the pointer, and the target intensity there. *)
Record Pointer := mkPointer {
  _mouseViewer : Z;
  _mouseX : Z;
  _mouseY : Z;
  _mouseZ : Z;
  _mouseTargetIntensity : Q
}.

(** [mirtk::BaseImage::PutOrigin]: the image with its origin moved to a
    world position. *)
Class ImageApi := {
  PutOrigin : Image -> Point -> Image
}.

(** [GetAsDouble(i, j, k)]: the voxel at column i, row j and slice k of the
    voxels in storage order. *)
Definition GetAsDouble (im : Image) (i j k : Z) : Q :=
  inject_Z (deref (voxels im) (Z.to_nat (i + GetX im * (j + GetY im * k)))).

(** The conversion of a [double] to [int], undefined outside the range of
    [int]. *)
Definition to_int (x : Q) : result Z :=
  let z := int_of_double x in
  if (- 2 ^ 31 <=? z) && (z <? 2 ^ 31) then Ok z else Undefined.

(** One iteration of the loop of [SetOrigin(int, int)] for viewer [sl], on
    the members [_origin_x], [_origin_y] and [_origin_z]: in the viewport of
    the viewer they become the world position of the pixel. *)
Definition SetOrigin_step (p : Point) (sl : Slot) : Point :=
  let '(origin_x, origin_y, _) := p in
  let v := _viewer sl in
  if in_viewport v origin_x origin_y then
    let origin_x :=
      ((origin_x - vp_x1 v) / (vp_x2 v - vp_x1 v) * inject_Z (GetWidth v))%Q in
    let origin_y :=
      ((origin_y - vp_y1 v) / (vp_y2 v - vp_y1 v) * inject_Z (GetHeight v))%Q in
    ImageToWorld (_targetImageOutput sl) (origin_x, origin_y, 0%Q)
  else p.

(** One iteration of the loop of [MouseWheel] for viewer [sl], on the locals
    u, v and w: in the viewport of the viewer they become the origin of its
    target output, moved [wheel] slices through the plane. *)
Definition MouseWheel_step (wheel : Z) (p : Point) (sl : Slot) : Point :=
  let '(u, v, _) := p in
  if in_viewport (_viewer sl) u v then
    let '(u, v, w) :=
      WorldToImage (_targetImageOutput sl) (GetOrigin (_targetImageOutput sl)) in
    ImageToWorld (_targetImageOutput sl) (u, v, (w + inject_Z wheel)%Q)
  else p.

(** The loop of [MousePosition] from viewer k on, on the locals u, v and w
    and the member [_mouseViewer]. *)
Fixpoint MousePosition_loop (k : Z) (sls : list Slot) (p : Point) (mouseViewer : Z)
    : Point * Z :=
  match sls with
  | [] => (p, mouseViewer)
  | sl :: rest =>
      let '(u, v, _) := p in
      let vw := _viewer sl in
      if in_viewport vw u v then
        let u := ((u - vp_x1 vw) / (vp_x2 vw - vp_x1 vw) * inject_Z (GetWidth vw))%Q in
        let v := ((v - vp_y1 vw) / (vp_y2 vw - vp_y1 vw) * inject_Z (GetHeight vw))%Q in
        MousePosition_loop (k + 1) rest
          (ImageToWorld (_targetImageOutput sl) (u, v, 0%Q)) k
      else MousePosition_loop (k + 1) rest p mouseViewer
  end.

(** The block under [if (_SnapToGrid)]: the world position of the voxel of
    the target nearest to a point. *)
Definition snap_to_grid (im : Image) (p : Point) : Point :=
  let '(x, y, z) := WorldToImage im p in
  ImageToWorld im (round x, round y, round z).

(** [RView::MousePosition]. *)
Definition MousePosition (s : RView) (i j : Z) (m : Pointer) : result Pointer :=
  let u := ratio i (_screenX s) in
  let v := ratio (_screenY s - j) (_screenY s) in
  let '(p, mouseViewer) :=
    MousePosition_loop 0 (_slots s) (u, v, 0%Q) (_mouseViewer m) in
  let '(u, v, w) := WorldToImage (_targetImage s) p in
  i <- to_int (round u) ;;
  j <- to_int (round v) ;;
  k <- to_int (round w) ;;
  if (0 <=? i) && (i <? GetX (_targetImage s)) && (0 <=? j) && (j <? GetY (_targetImage s))
     && (0 <=? k) && (k <? GetZ (_targetImage s))
  then Ok (mkPointer mouseViewer i j k (GetAsDouble (_targetImage s) i j k))
  else Ok (mkPointer (-1) (_mouseX m) (_mouseY m) (_mouseZ m) (_mouseTargetIntensity m)).

Section Pointer.
Context `{ImageApi}.

(** The four [PutOrigin] calls of one viewer. *)
Definition PutOrigin_slot (p : Point) (sl : Slot) : Slot :=
  mkSlot (_viewer sl) (_isSourceViewer sl)
    (PutOrigin (_targetImageOutput sl) p) (PutOrigin (_sourceImageOutput sl) p)
    (PutOrigin (_segmentationImageOutput sl) p) (PutOrigin (_selectionImageOutput sl) p)
    (_drawable sl).

(** The end that [SetOrigin(int, int)] and [MouseWheel] share word for
    word: the origin is rounded to the nearest voxel if [_SnapToGrid] is
    set, every output image is given it, and all four updates are
    required. *)
Definition place_origin (_SnapToGrid : bool) (p : Point) (s : RView) : RView :=
  let p := if _SnapToGrid then snap_to_grid (_targetImage s) p else p in
  let '(x, y, z) := p in
  let s := set_origin_z z (set_origin_y y (set_origin_x x s)) in
  require_update (set_slots (map (PutOrigin_slot p) (_slots s)) s).

(** [RView::SetOrigin(int, int)]; [_SnapToGrid] is the member of that name. *)
Definition SetOrigin (_SnapToGrid : bool) (s : RView) (i j : Z) : RView :=
  let p := (ratio i (_screenX s), ratio (_screenY s - j) (_screenY s), _origin_z s) in
  place_origin _SnapToGrid (fold_left SetOrigin_step (_slots s) p) s.

(** [RView::MouseWheel]; [_SnapToGrid] is the member of that name. *)
Definition MouseWheel (_SnapToGrid : bool) (s : RView) (i j wheel : Z) : RView :=
  let p := (ratio i (_screenX s), ratio (_screenY s - j) (_screenY s), 0%Q) in
  place_origin _SnapToGrid (fold_left (MouseWheel_step wheel) (_slots s) p) s.

End Pointer.

(** An image is moved as a whole with its origin. *)
Definition moved_image (im : Image) (o : Point) : Image :=
  let '(ox, oy, oz) := o in
  let '(px, py, pz) := GetOrigin im in
  mkImage (GetX im) (GetY im) (GetZ im) (GetXSize im) (GetYSize im) (GetZSize im)
    (voxels im)
    (fun p => let '(x, y, z) := ImageToWorld im p in
              (x + (ox - px), y + (oy - py), z + (oz - pz))%Q)
    (fun q => let '(x, y, z) := q in
              WorldToImage im (x - (ox - px), y - (oy - py), z - (oz - pz))%Q)
    o (GetOrientation im) (Orientation im).

#[export] Instance demo_ImageApi : ImageApi := {| PutOrigin := moved_image |}.

(** The pointer before the mouse has moved. *)
Definition no_pointer : Pointer := mkPointer (-1) 0 0 0 0.

(** Two views of a target volume of 10 x 10 x 10 voxels of 1 mm around the
    world origin. *)
Definition centred_state : RView :=
  set_targetImage
    (grid_image (10, 10, 10) (0, 0, 0)%Q (1, 1, 1)%Q (repeat 0 1000%nat)) two_view_state.

(* ===================================================================== *)
(** * The rasters of a role, the flips, and Read on any text file *)
(* ===================================================================== *)

(** The output raster of a role in a viewer, and the source padding value
    [Update] sets before it runs the filter of the role. *)
Definition output (ro : Role) (sl : Slot) : Image :=
  match ro with
  | Target => _targetImageOutput sl
  | Source => _sourceImageOutput sl
  | Segmentation => _segmentationImageOutput sl
  | Selection => _selectionImageOutput sl
  end.

Definition padding (ro : Role) : option Z :=
  match ro with
  | Target | Source => Some (-1)
  | Segmentation | Selection => None
  end.

(** A display axis after the flip stage of [Reset]. *)
Definition flipped (flip : bool) (v : Vec3) : Vec3 :=
  if flip then vflip v else v.

(** A target volume whose first two axes both have the code L2R. *)
Definition twice_left_right_volume : Image :=
  mkImage 10 10 10 1 1 1 (repeat 0 1000%nat)
    (ImageToWorld demo_volume) (WorldToImage demo_volume)
    (GetOrigin demo_volume) unit_axes (L2R, L2R, I2S).

(** A viewer of a volume whose first axis runs left to right and whose
    third has no known orientation, with the flips of x and z requested. *)
Definition flipped_unknown_axis_state : RView :=
  set_FlipX true unknown_axis_state.

(** A text file that need not end with a newline: the lines that end with a
    newline, and the characters behind the last newline (none when the file
    is empty or ends with a newline).  The file holds no NUL character. *)
Record text := mkText {
  text_lines : list string;
  text_rest : string
}.

Definition nul : ascii := ascii_of_nat 0.

(** The array [buffer1] after [getline] has stored a line in it: the
    characters of the line, a NUL, and what the array held behind them. *)
Definition getline_store (l : string) (buffer1 : list ascii) : list ascii :=
  (list_ascii_of_string l ++ nul :: skipn (S (String.length l)) buffer1)%list.

(** The C string an array holds from its start. *)
Fixpoint c_string (mem : list ascii) : string :=
  match mem with
  | [] => EmptyString
  | c :: rest => if Ascii.eqb c nul then EmptyString else String c (c_string rest)
  end.

(** What [buffer2] points to: [buffer2] is null before the first line is
    split, and afterwards an offset into the array [buffer1], which later
    calls of [getline] overwrite. *)
Definition pointee (buffer1 : list ascii) (buffer2 : option nat) : option string :=
  option_map (fun o => c_string (skipn o buffer1)) buffer2.

(** The offset of [buffer2] in [buffer1] after [read_line] has split a line. *)
Definition buffer2_offset (buffer1 buffer2 : string) : nat :=
  String.length buffer1 - String.length buffer2.

(** The range of [int], as a test. *)
Definition in_int (z : Z) : bool := (- 2 ^ 31 <=? z) && (z <? 2 ^ 31).

(** The keys of [Read] outside the conditional block of the VTK build. *)
Definition plain_keys : list string :=
  ["configMode"; "screenX"; "screenY"; "origin_x"; "origin_y"; "origin_z"; "resolution";
   "targetInterpolationMode"; "sourceInterpolationMode"; "viewMode"; "viewMix";
   "DisplayTargetContour"; "DisplaySourceContour"; "DisplayCursor"; "CursorMode";
   "DisplayDeformationGrid"; "DisplayDeformationPoints"; "DisplayDeformationArrows";
   "DisplayLandmarks";
   "targetLookupTable_min"; "targetLookupTable_max"; "targetLookupTable_mode";
   "sourceLookupTable_min"; "sourceLookupTable_max"; "sourceLookupTable_mode";
   "subtractionLookupTable_min"; "subtractionLookupTable_max";
   "subtractionLookupTable_mode"].

(** The body of the loop of [Read] finds a key in the line, and so reads
    [buffer2].  (The keys DisplayObjectWarp and DisplayObjectGrid contain
    the key DisplayObject.) *)
Definition key_in (HAVE_VTK : bool) (buffer1 : string) : bool :=
  existsb (strstr buffer1) plain_keys || (HAVE_VTK && strstr buffer1 "DisplayObject").

(** The keys behind the interpolation modes whose value [atoi] reads. *)
Definition late_atoi_keys : list string :=
  ["DisplayTargetContour"; "DisplaySourceContour"; "DisplayCursor";
   "DisplayDeformationGrid"; "DisplayDeformationPoints"; "DisplayDeformationArrows";
   "DisplayLandmarks";
   "targetLookupTable_min"; "targetLookupTable_max";
   "sourceLookupTable_min"; "sourceLookupTable_max";
   "subtractionLookupTable_min"; "subtractionLookupTable_max"].

Definition late_atoi (HAVE_VTK : bool) (buffer1 : string) : bool :=
  existsb (strstr buffer1) late_atoi_keys || (HAVE_VTK && strstr buffer1 "DisplayObject").

(** The numbers [atoi] reads in a line fit an [int]. *)
Definition ints_fit (HAVE_VTK : bool) (buffer1 buffer2 : string) : bool :=
  negb (screen_line buffer1 || late_atoi HAVE_VTK buffer1) || in_int (atoi buffer2).

Section ReadText.
Context `{ViewerApi} `{MirtkApi} `{CxxIO}.
Variable HAVE_VTK : bool.

(** The body of the loop of [Read] with what C leaves undefined written
    out: a null [buffer2] is read as soon as a key is found, and [atoi] is
    undefined on a number outside the range of [int].  The two screen keys
    are tested before the interpolation modes, which can end the process,
    the other keys read by [atoi] after them. *)
Definition checked_body (buffer1 : string) (buffer2 : option string) (s : RView)
    : result RView :=
  match buffer2 with
  | None =>
      if key_in HAVE_VTK buffer1 then Undefined
      else Read_body HAVE_VTK buffer1 EmptyString s
  | Some b2 =>
      if screen_line buffer1 && negb (in_int (atoi b2)) then Undefined
      else s' <- Read_body HAVE_VTK buffer1 b2 s ;;
           if late_atoi HAVE_VTK buffer1 && negb (in_int (atoi b2)) then Undefined
           else Ok s'
  end.

(** The loop of [Read] with [read_line] on any text file, with the array
    [buffer1] and the pointer [buffer2] as they are between the lines.
    It differs from [Read_loop] when the text behind the last newline is
    passed over: [getline] sets [eofbit] with the text in [buffer1],
    [read_line] returns 0 at the next turn without setting [buffer2], and
    the body runs on that text and on what the old [buffer2] points to. *)
Fixpoint Read_text_loop (lines : list string) (rest : string) (skipping : bool)
    (buffer1 : list ascii) (buffer2 : option nat) (s : RView) : result RView :=
  match lines with
  | l :: more =>
      if Nat.leb 255 (String.length l) then
        let b1 := substring 0 254 l in
        if skipped b1 then Hang
        else b2 <- split_line b1 ;; checked_body b1 (Some b2) s
      else if skipped l then
        Read_text_loop more rest true (getline_store l buffer1) buffer2 s
      else b2 <- split_line l ;;
           s' <- checked_body l (Some b2) s ;;
           Read_text_loop more rest false (getline_store l buffer1)
             (Some (buffer2_offset l b2)) s'
  | [] =>
      if Nat.leb 255 (String.length rest) then
        let b1 := substring 0 254 rest in
        if skipped b1 then Hang
        else b2 <- split_line b1 ;; checked_body b1 (Some b2) s
      else if skipped rest then
        match rest with
        | EmptyString =>
            if skipping
            then checked_body EmptyString (pointee (getline_store rest buffer1) buffer2) s
            else Ok s
        | _ => checked_body rest (pointee (getline_store rest buffer1) buffer2) s
        end
      else b2 <- split_line rest ;; checked_body rest (Some b2) s
  end.

(** [RView::Read] on any text file, [None] if it cannot be opened. *)
Definition Read_text (from : option text) (s : RView) : result RView :=
  match from with
  | None => Exit
  | Some f =>
      s' <- Read_text_loop (text_lines f) (text_rest f) false [] None s ;;
      Configure (preset (_configMode s')) s'
  end.

End ReadText.




(** A line that ends with a newline and that [Read] gets past: read whole,
    and passed over, or with an [=], no unknown interpolation token and no
    number outside the range of [int]. *)
Definition readable_line (HAVE_VTK : bool) (l : string) : bool :=
  short l &&
  (skipped l ||
   match split_line l with
   | Ok b2 => negb (fatal_line l) && ints_fit HAVE_VTK l b2
   | _ => false
   end).

(** The text behind the last newline when [Read] gets past it: as a line
    that ends with a newline, but if it is passed over it holds no key. *)
Definition readable_rest (HAVE_VTK : bool) (rest : string) : bool :=
  short rest &&
  (if skipped rest then negb (key_in HAVE_VTK rest)
   else match split_line rest with
        | Ok b2 => negb (fatal_line rest) && ints_fit HAVE_VTK rest b2
        | _ => false
        end).


(* ===================================================================== *)
(** * Arithmetic of the compositor *)
(* ===================================================================== *)

(** A double with an integer value converts to that integer. *)
Lemma int_of_double_Z (q : Q) (c : Z) : (q == inject_Z c)%Q -> int_of_double q = c.
Proof.
  intros E. unfold int_of_double.
  destruct (Qle_bool 0 q).
  - rewrite (Qfloor_comp _ _ E). apply Qfloor_Z.
  - rewrite (Qceiling_comp _ _ E). apply Qceiling_Z.
Qed.

Lemma uchar_8bit (z : Z) : 0 <= z < 256 -> uchar z = z.
Proof. intros Hz. unfold uchar. apply Z.mod_small. exact Hz. Qed.

Lemma blend_1_0 (c1 c2 : Z) : 0 <= c1 < 256 -> blend 1 c1 (1 - 1) c2 = c1.
Proof.
  intros Hc. unfold blend. rewrite (int_of_double_Z _ c1).
  - apply uchar_8bit; exact Hc.
  - ring.
Qed.

Lemma blend_0_1 (c1 c2 : Z) : 0 <= c2 < 256 -> blend 0 c1 (1 - 0) c2 = c2.
Proof.
  intros Hc. unfold blend. rewrite (int_of_double_Z _ c2).
  - apply uchar_8bit; exact Hc.
  - ring.
Qed.

(** Halving a non-negative integer and truncating. *)
Lemma int_of_half (n : Z) : 0 <= n ->
  int_of_double ((1 # 2) * inject_Z n) = n / 2.
Proof.
  intros Hn. unfold int_of_double.
  assert (E : ((1 # 2) * inject_Z n == inject_Z n / inject_Z 2)%Q) by field.
  replace (Qle_bool 0 ((1 # 2) * inject_Z n)) with true.
  - rewrite (Qfloor_comp _ _ E). symmetry. apply Zdiv_Qdiv.
  - symmetry. apply Qle_bool_iff. unfold Qle. cbn. destruct n; lia.
Qed.

Lemma int_of_half_sum (n : Z) : 0 <= n ->
  int_of_double ((1 # 2) * inject_Z n + (1 # 2) * 255) = (n + 255) / 2.
Proof.
  intros Hn. rewrite <- int_of_half by lia.
  unfold int_of_double.
  assert (E : ((1 # 2) * inject_Z n + (1 # 2) * 255 == (1 # 2) * inject_Z (n + 255))%Q).
  { rewrite inject_Z_plus. change (inject_Z 255) with 255%Q. ring. }
  rewrite (Qfloor_comp _ _ E), (Qceiling_comp _ _ E).
  destruct (Qle_bool 0 ((1 # 2) * inject_Z n + (1 # 2) * 255)) eqn:B1;
  destruct (Qle_bool 0 ((1 # 2) * inject_Z (n + 255))) eqn:B2; try reflexivity.
  - apply Qle_bool_iff in B1. rewrite E in B1. apply Qle_bool_iff in B1. congruence.
  - apply Qle_bool_iff in B2. rewrite <- E in B2. apply Qle_bool_iff in B2. congruence.
Qed.

Lemma half_8bit (n : Z) : 0 <= n < 511 -> 0 <= n / 2 < 256.
Proof.
  intros Hn. split; [apply Z.div_pos; lia | apply Z.div_lt_upper_bound; lia].
Qed.

(** On 8-bit channels the selection overlay is the even mix with yellow. *)
Lemma selection_pixel_highlight (p5 : Z) (c : Color) :
  0 < p5 -> color_8bit c -> selection_pixel p5 c = highlight c.
Proof.
  intros Hp (Hr & Hg & Hb). unfold selection_pixel, highlight.
  apply Z.ltb_lt in Hp. rewrite Hp.
  rewrite !int_of_half_sum, int_of_half by lia.
  rewrite !uchar_8bit by (apply half_8bit; lia). reflexivity.
Qed.

(** The luminance ramp holds 8-bit channels. *)
Lemma ramp_At_8bit : lut_8bit.
Proof.
  intros l v. unfold color_8bit, Color_of, At, demo_ViewerApi, ramp_At. cbn [r g b RGBA.r RGBA.g RGBA.b].
  destruct (_maxDisplay l <=? _minDisplay l) eqn:E; [lia|].
  apply Z.leb_gt in E.
  assert (Hc : _minDisplay l <= Zclamp (_minDisplay l) (_maxDisplay l) v <= _maxDisplay l)
    by (unfold Zclamp; lia).
  assert (Hl : 0 <= 255 * (Zclamp (_minDisplay l) (_maxDisplay l) v - _minDisplay l)
                    / (_maxDisplay l - _minDisplay l) < 256).
  { split; [apply Z.div_pos; nia | apply Z.div_lt_upper_bound; nia]. }
  lia.
Qed.

(* ===================================================================== *)
(** * RView::Update *)
(* ===================================================================== *)

Section UpdateFacts.
Context `{ViewerApi} `{MirtkApi}.

Lemma resample_slot_runs (s : RView) (sl : Slot) (ro : Role) :
  In ro (snd (resample_slot s sl)) <-> dirty ro s && negb (IsEmpty (input ro s)) = true.
Proof.
  unfold resample_slot; cbn [snd].
  rewrite !in_app_iff.
  destruct ro; cbn [dirty input];
  repeat match goal with |- context [if ?c then _ else _] => destruct c end;
  cbn; intuition congruence.
Qed.

Lemma resample_runs_In (s : RView) (ro : Role) : forall sls l k,
  In (k, ro) (resample_runs s l sls) <->
  (l <= k < l + List.length sls)%nat /\ dirty ro s && negb (IsEmpty (input ro s)) = true.
Proof.
  induction sls as [|sl rest IH]; intros l k; cbn [resample_runs List.length].
  - split; [intros [] | intros [? _]; lia].
  - rewrite in_app_iff, in_map_iff, IH.
    split.
    + intros [(ro' & E & Hin) | [Hk Hd]].
      * inversion E; subst. apply resample_slot_runs in Hin. split; [lia | exact Hin].
      * split; [lia | exact Hd].
    + intros [Hk Hd]. destruct (Nat.eq_dec k l) as [->|Hne].
      * left. exists ro. split; [reflexivity | apply resample_slot_runs; exact Hd].
      * right. split; [lia | exact Hd].
Qed.

Lemma resample_runs_clean (s : RView) : forall sls l,
  _targetUpdate s = false -> _sourceUpdate s = false ->
  _segmentationUpdate s = false -> _selectionUpdate s = false ->
  resample_runs s l sls = [].
Proof.
  induction sls as [|sl rest IH]; intros l Ht Hs Hg Hc; cbn [resample_runs].
  - reflexivity.
  - rewrite IH by assumption. unfold resample_slot. cbn [snd].
    rewrite Ht, Hs, Hg, Hc. reflexivity.
Qed.

Lemma Update_slots (s : RView) :
  _slots (Update s) =
  map (fun sl => composite_slot (clear_update_flags
                    (set_slots (map (fun sl => fst (resample_slot s sl)) (_slots s)) s))
                  (fst (resample_slot s sl))) (_slots s).
Proof.
  unfold Update. cbn. rewrite map_map. reflexivity.
Qed.

(** The rasters of a role after [Update]: in every viewer the filter of the
    role has run on the input of the role, if the role is dirty and the
    input is not empty; otherwise the raster is the one before the call. *)
Lemma Update_outputs (s : RView) (ro : Role) :
  map (output ro) (_slots (Update s)) =
  map (fun sl => if dirty ro s && negb (IsEmpty (input ro s))
                 then Run ro (padding ro) (input ro s) (output ro sl)
                 else output ro sl) (_slots s).
Proof.
  rewrite Update_slots, map_map. apply map_ext. intros sl.
  unfold composite_slot, resample_slot.
  destruct ro; cbn [output dirty input padding fst _targetImageOutput _sourceImageOutput
                    _segmentationImageOutput _selectionImageOutput]; reflexivity.
Qed.

(** C5: [Update] runs the filter of a role in a viewer exactly when the
    dirty flag of the role is set and the input of the role is not empty:
    the raster of the role in every viewer is then the result of the filter
    on that input, and it is the raster before the call otherwise; the
    filter runs are those of the viewers that exist for the roles that are
    dirty and not empty.  When [Update] returns the four dirty flags are
    cleared; a second [Update] right after it runs no filter and leaves
    every raster as it is. *)
Theorem Update_resamples_dirty_roles (s : RView) :
  (forall ro,
      map (output ro) (_slots (Update s)) =
      map (fun sl => if dirty ro s && negb (IsEmpty (input ro s))
                     then Run ro (padding ro) (input ro s) (output ro sl)
                     else output ro sl) (_slots s)) /\
  (forall k ro,
      In (k, ro) (Update_runs s) <->
      (k < List.length (_slots s))%nat /\ dirty ro s = true /\
      IsEmpty (input ro s) = false) /\
  (_targetUpdate (Update s) = false /\ _sourceUpdate (Update s) = false /\
   _segmentationUpdate (Update s) = false /\ _selectionUpdate (Update s) = false) /\
  Update_runs (Update s) = [] /\
  (forall ro, map (output ro) (_slots (Update (Update s))) =
              map (output ro) (_slots (Update s))).
Proof.
  split; [exact (Update_outputs s)|]. split; [|split; [|split]].
  - intros k ro. unfold Update_runs. rewrite resample_runs_In.
    rewrite andb_true_iff, negb_true_iff. intuition lia.
  - repeat split; reflexivity.
  - apply resample_runs_clean; reflexivity.
  - intros ro. rewrite (Update_outputs (Update s)).
    replace (dirty ro (Update s)) with false by (destruct ro; reflexivity).
    cbn [andb]. apply map_ext. reflexivity.
Qed.

(** The drawable of a viewer after [Update]. *)
Lemma Update_slot (s : RView) (k : nat) (sl : Slot) :
  nth_error (_slots (Update s)) k = Some sl ->
  _drawable sl =
  map (final_pixel s sl) (pixel_grid (GetWidth (_viewer sl)) (GetHeight (_viewer sl))).
Proof.
  rewrite Update_slots. intros Hk.
  apply nth_error_In, in_map_iff in Hk. destruct Hk as (sl0 & <- & _).
  reflexivity.
Qed.

Lemma base_pixel_checkerboard_1 s s' lut1 lut2 W Hh i j p1 p2 :
  lut_8bit ->
  _viewMode s = View_Checkerboard -> _viewMix s = 1%Q -> _viewMode s' = View_A ->
  base_pixel s lut1 lut2 W Hh i j p1 p2 = base_pixel s' lut1 lut2 W Hh i j p1 p2.
Proof.
  intros L Hm Hx Hm'. destruct (L lut1 p1) as (Hr & Hg & Hb). cbn in Hr, Hg, Hb.
  unfold base_pixel. rewrite Hm, Hx, Hm'.
  rewrite !blend_1_0 by assumption. reflexivity.
Qed.

Lemma base_pixel_checkerboard_0 s s' lut1 lut2 W Hh i j p1 p2 :
  lut_8bit ->
  _viewMode s = View_Checkerboard -> _viewMix s = 0%Q -> _viewMode s' = View_B ->
  base_pixel s lut1 lut2 W Hh i j p1 p2 = base_pixel s' lut1 lut2 W Hh i j p1 p2.
Proof.
  intros L Hm Hx Hm'. destruct (L lut2 p2) as (Hr & Hg & Hb). cbn in Hr, Hg, Hb.
  unfold base_pixel. rewrite Hm, Hx, Hm'.
  rewrite !blend_0_1 by assumption. reflexivity.
Qed.

(** Two states that agree on everything the compositor reads but the view
    mode and the mix colour a pixel alike as soon as the view mode switch
    does. *)
Lemma final_pixel_ext s s' sl ij :
  (forall lut1 lut2 W Hh i j p1 p2,
      base_pixel s lut1 lut2 W Hh i j p1 p2 = base_pixel s' lut1 lut2 W Hh i j p1 p2) ->
  _targetLookupTable s = _targetLookupTable s' ->
  _sourceLookupTable s = _sourceLookupTable s' ->
  _DisplaySegmentationLabels s = _DisplaySegmentationLabels s' ->
  _segmentTable s = _segmentTable s' ->
  _voxelContour s = _voxelContour s' ->
  final_pixel s sl ij = final_pixel s' sl ij.
Proof.
  intros Hb Ht Hs Hd Hg Hc.
  unfold final_pixel, selection_stage, segmentation_stage, base_stage, segmentation_pixel.
  rewrite Ht, Hs, Hd, Hg, Hc.
  destruct (_isSourceViewer sl); rewrite Hb; reflexivity.
Qed.

(** C4: with lookup tables of 8-bit channels, [Update] in checkerboard mode
    with mix 1 leaves every viewer as [Update] in target-only mode does,
    and with mix 0 as [Update] in source-only mode does. *)
Theorem Checkerboard_degenerate_mix (s : RView) :
  lut_8bit ->
  _slots (Update (set_viewMix 1 (set_viewMode View_Checkerboard s))) =
  _slots (Update (set_viewMode View_A s)) /\
  _slots (Update (set_viewMix 0 (set_viewMode View_Checkerboard s))) =
  _slots (Update (set_viewMode View_B s)).
Proof.
  intros L. rewrite !Update_slots. split.
  - apply map_ext. intros sl. unfold composite_slot. f_equal.
    apply map_ext. intros ij.
    apply final_pixel_ext; try reflexivity.
    intros. apply base_pixel_checkerboard_1; [exact L | reflexivity ..].
  - apply map_ext. intros sl. unfold composite_slot. f_equal.
    apply map_ext. intros ij.
    apply final_pixel_ext; try reflexivity.
    intros. apply base_pixel_checkerboard_0; [exact L | reflexivity ..].
Qed.

(** C2, as amended: in subtraction mode every pixel of every viewer is, under
    the two overlays, the empty colour unless both samples are at least 0,
    and then the subtraction table at target minus source in a target
    viewer and at source minus target in a source viewer; without overlays
    (no segmentation labels shown, no contour point) that is the colour of
    the pixel. *)
Theorem Update_subtraction_pixel (s : RView) (k : nat) (sl : Slot) :
  _viewMode s = View_Subtraction ->
  nth_error (_slots (Update s)) k = Some sl ->
  _drawable sl =
    map (fun ij => selection_stage s sl ij
                     (segmentation_stage s sl ij (subtraction_color s sl ij)))
        (pixel_grid (GetWidth (_viewer sl)) (GetHeight (_viewer sl))) /\
  (_DisplaySegmentationLabels s = false -> Size (_voxelContour s) = 0 ->
   _drawable sl =
     map (subtraction_color s sl)
         (pixel_grid (GetWidth (_viewer sl)) (GetHeight (_viewer sl)))).
Proof.
  intros Hm Hk.
  assert (E : forall ij, base_stage s sl ij = subtraction_color s sl ij).
  { intros ij. unfold base_stage, subtraction_color, base_pixel. rewrite Hm.
    destruct (_isSourceViewer sl); cbn zeta; [rewrite andb_comm|]; reflexivity. }
  rewrite (Update_slot s k sl Hk). split.
  - apply map_ext. intros ij. unfold final_pixel. rewrite E. reflexivity.
  - intros Hd Hc. apply map_ext. intros ij.
    unfold final_pixel, selection_stage, segmentation_stage. rewrite E, Hd, Hc. reflexivity.
Qed.

(** C3, as amended: while the contour has a point, a pixel with a positive
    selection value ends as the even mix, rounded down, of yellow with the
    colour [c] the two earlier stages gave it (for 8-bit channels of [c]):
    ((r + 255) / 2, (g + 255) / 2, b / 2). *)
Theorem Update_selection_highlight
    (s : RView) (k : nat) (sl : Slot) (n : nat) (ij : Z * Z) :
  0 < Size (_voxelContour s) ->
  nth_error (_slots (Update s)) k = Some sl ->
  nth_error (pixel_grid (GetWidth (_viewer sl)) (GetHeight (_viewer sl))) n = Some ij ->
  0 < deref (voxels (_selectionImageOutput sl)) (offset (GetWidth (_viewer sl)) ij) ->
  color_8bit (segmentation_stage s sl ij (base_stage s sl ij)) ->
  nth_error (_drawable sl) n =
  Some (highlight (segmentation_stage s sl ij (base_stage s sl ij))).
Proof.
  intros Hc Hk Hn Hp H8. rewrite (Update_slot s k sl Hk).
  rewrite nth_error_map, Hn. cbn [option_map]. f_equal.
  unfold final_pixel, selection_stage. apply Z.ltb_lt in Hc. rewrite Hc.
  apply selection_pixel_highlight; assumption.
Qed.

End UpdateFacts.

Lemma Checkerboard_degenerate_mix_witness :
  lut_8bit /\
  _slots (Update (set_viewMix 1 (set_viewMode View_Checkerboard subtraction_state))) =
  _slots (Update (set_viewMode View_A subtraction_state)) /\
  _slots (Update (set_viewMix 0 (set_viewMode View_Checkerboard subtraction_state))) =
  _slots (Update (set_viewMode View_B subtraction_state)).
Proof.
  split; [exact ramp_At_8bit|].
  apply (Checkerboard_degenerate_mix subtraction_state). exact ramp_At_8bit.
Defined.

(** C2, counterexample: in a source viewer with target sample 10000 and
    source sample 0, both at least 0, the pixel is black, the colour of the
    subtraction table at 0 - 10000, while the table is white at
    10000 - 0. *)
Lemma Update_subtraction_source_viewer :
  map (fun sl => (_isSourceViewer sl, voxels (_targetImageOutput sl),
                  voxels (_sourceImageOutput sl), _drawable sl))
      (_slots (Update subtraction_source_state)) =
    [(true, [10000], [0], [mkColor 0 0 0])] /\
  Color_of (At (_subtractionLookupTable subtraction_source_state) (10000 - 0)) =
    mkColor 255 255 255.
Proof. split; vm_compute; reflexivity. Qed.

Lemma Update_subtraction_pixel_witness :
  let s := subtraction_state in
  let sl := nth 0 (_slots (Update s)) (pixel_slot false 0 0 0 0) in
  _viewMode s = View_Subtraction /\
  nth_error (_slots (Update s)) 0 = Some sl /\
  _drawable sl =
    map (fun ij => selection_stage s sl ij
                     (segmentation_stage s sl ij (subtraction_color s sl ij)))
        (pixel_grid (GetWidth (_viewer sl)) (GetHeight (_viewer sl))) /\
  (_DisplaySegmentationLabels s = false -> Size (_voxelContour s) = 0 ->
   _drawable sl =
     map (subtraction_color s sl)
         (pixel_grid (GetWidth (_viewer sl)) (GetHeight (_viewer sl)))).
Proof.
  intros s sl. split; [reflexivity|]. split; [vm_compute; reflexivity|].
  apply (Update_subtraction_pixel s 0 sl); [reflexivity | vm_compute; reflexivity].
Defined.

(** C3, counterexample: two pixels with a positive selection value under a
    contour with a point end in different colours, (127, 127, 0) over a
    black pixel and (255, 255, 127) over a white one. *)
Lemma Update_selection_not_constant :
  0 < Size (_voxelContour (selected_state 0)) /\
  0 < Size (_voxelContour (selected_state 10000)) /\
  map (fun sl => (voxels (_selectionImageOutput sl), _drawable sl))
      (_slots (Update (selected_state 0))) = [([1], [mkColor 127 127 0])] /\
  map (fun sl => (voxels (_selectionImageOutput sl), _drawable sl))
      (_slots (Update (selected_state 10000))) = [([1], [mkColor 255 255 127])].
Proof. repeat split; vm_compute; reflexivity. Qed.

Lemma Update_selection_highlight_witness :
  let s := selected_state 10000 in
  let sl := nth 0 (_slots (Update s)) (pixel_slot false 0 0 0 0) in
  let c := segmentation_stage s sl (0, 0) (base_stage s sl (0, 0)) in
  0 < Size (_voxelContour s) /\
  nth_error (_slots (Update s)) 0 = Some sl /\
  nth_error (pixel_grid (GetWidth (_viewer sl)) (GetHeight (_viewer sl))) 0 =
    Some (0, 0) /\
  0 < deref (voxels (_selectionImageOutput sl)) (offset (GetWidth (_viewer sl)) (0, 0)) /\
  color_8bit c /\
  nth_error (_drawable sl) 0 = Some (highlight c).
Proof.
  intros s sl c.
  assert (H8 : color_8bit c) by (vm_compute; intuition discriminate).
  split; [reflexivity|]. split; [vm_compute; reflexivity|].
  split; [vm_compute; reflexivity|]. split; [vm_compute; reflexivity|].
  split; [exact H8|].
  apply (Update_selection_highlight s 0 sl 0 (0, 0));
    [reflexivity | vm_compute; reflexivity .. | exact H8].
Defined.

Lemma returned_Ok (r : result RView) (s : RView) :
  is_Ok r = true -> r = Ok (returned r s).
Proof. destruct r; intros E; try discriminate E; reflexivity. Qed.

(* ===================================================================== *)
(** * The voxel contour entry points *)
(* ===================================================================== *)


Section ContourFacts.
Context `{ViewerApi}.



End ContourFacts.


(* ===================================================================== *)
(** * The region of interest *)
(* ===================================================================== *)

Lemma Qlt_bool_false (x y : Q) : Qlt_bool x y = false -> (y <= x)%Q.
Proof.
  unfold Qlt_bool. intros E. apply negb_false_iff in E. apply Qle_bool_iff. exact E.
Qed.

(** The clamps of [UpdateROI2] keep the voxel of the second corner at or
    above the voxel of the first, and set the second corner on the first
    when its voxel would lie below. *)
Lemma clamp2_ordered (dim : Z) (c1 c2 : Q) :
  (round c1 <= round (clamp2 dim c1 c2))%Q /\
  (Qle_bool (inject_Z dim) (round c2) = false ->
   Qlt_bool (round c2) (round c1) = true -> clamp2 dim c1 c2 = c1).
Proof.
  unfold clamp2. split.
  - destruct (Qlt_bool (round (if Qle_bool (inject_Z dim) (round c2)
                               then inject_Z (dim - 1) else c2)) (round c1)) eqn:E.
    + apply Qle_refl.
    + apply Qlt_bool_false. exact E.
  - intros E1 E2. rewrite E1, E2. reflexivity.
Qed.

(** The clamps of [UpdateROI1] keep the voxel of the first corner at or
    below the voxel of the second. *)
Lemma clamp1_ordered (c1 c2 : Q) :
  (round (round c2) == round c2)%Q ->
  (round (clamp1 c1 c2) <= round c2)%Q.
Proof.
  intros Hr. unfold clamp1.
  destruct (Qlt_bool (round c2) (round (if Qlt_bool (round c1) 0 then 0%Q else c1))) eqn:E.
  - rewrite Hr. apply Qle_refl.
  - apply Qlt_bool_false in E. exact E.
Qed.

(** C7, the failing input: two viewers side by side, the region of interest
    on the whole volume, a click at pixel (39, 61).  The first viewer holds
    the click and moves the second corner to the world point
    (3/4, 3/4, 10); these coordinates lie in the viewport of the second
    viewer, whose turn of the loop runs as well, on the first corner
    converted a second time.  [UpdateROI2] returns with the second corner
    in voxel -1 along x, below the first corner and outside the volume. *)
Theorem UpdateROI2_crosses_corners :
  let s := two_view_state in
  let s' := UpdateROI2 s 39 61 in
  map (fun sl => GetViewerMode (_viewer sl)) (_slots s) = [Viewer_XY; Viewer_XZ] /\
  (GetX (_targetImage s), GetY (_targetImage s), GetZ (_targetImage s)) = (10, 10, 10) /\
  voxel_of (corner1 s) = (0, 0, 0)%Q /\ voxel_of (corner2 s) = (9, 9, 9)%Q /\
  corner2 (UpdateROI2 (set_slots (firstn 1 (_slots s)) s) 39 61) = (-1 # 4, -1 # 4, 9)%Q /\
  (_x2 s', _y2 s', _z2 s') = (0, 3 # 4, 3 # 4)%Q /\
  voxel_of (corner1 s') = (0, 0, 0)%Q /\
  voxel_of (corner2 s') = ((-1) # 1, 0, 0)%Q.
Proof. repeat split; vm_compute; reflexivity. Qed.

(* ===================================================================== *)
(** * RView::Reset *)
(* ===================================================================== *)

(** A lemma on the flips, by cases on the three flags of the state. *)
Ltac by_flags s E :=
  destruct s; cbn in E; subst; unfold Reset_flips; cbn;
  repeat match goal with
         | |- context [if ?c then _ else _] => is_var c; destruct c; cbn
         end;
  reflexivity.

Section ResetFacts.
Context `{ViewerApi} `{MirtkApi}.

Lemma neurological_axis_other code v what s :
  left_right code = false -> _xaxis (neurological_axis code v what s) = _xaxis s.
Proof. destruct code; intros E; try discriminate E; reflexivity. Qed.

Lemma radiological_axis_other code v what s :
  left_right code = false -> _xaxis (radiological_axis code v what s) = _xaxis s.
Proof. destruct code; intros E; try discriminate E; reflexivity. Qed.

Lemma Initialize_axes s s' :
  Initialize s = Ok s' ->
  _xaxis s' = _xaxis s /\ _yaxis s' = _yaxis s /\ _zaxis s' = _zaxis s /\ cerr s' = cerr s.
Proof.
  unfold Initialize. destruct (initialize_slots s (_slots s)); cbn; try discriminate.
  intros E; inversion E; subst. repeat split.
Qed.

Lemma Reset_axes_of s s' :
  Reset s = Ok s' ->
  _xaxis s' = _xaxis (Reset_flips (Reset_axes s)) /\
  _yaxis s' = _yaxis (Reset_flips (Reset_axes s)) /\
  _zaxis s' = _zaxis (Reset_flips (Reset_axes s)) /\
  cerr s' = cerr (Reset_flips (Reset_axes s)).
Proof.
  unfold Reset.
  destruct (Initialize (Reset_origin (Reset_flips (Reset_axes s)))) as [s1| | |] eqn:E;
    cbn; try discriminate.
  intros E'; inversion E'; subst. apply Initialize_axes in E.
  destruct E as (Ex & Ey & Ez & Ec). cbn. rewrite Ex, Ey, Ez, Ec.
  unfold Reset_origin.
  destruct (WorldToImage _ _) as [[? ?] ?]. destruct (ImageToWorld _ _) as [[? ?] ?].
  repeat split.
Qed.

Lemma Reset_flips_x s : _FlipX s = false -> _xaxis (Reset_flips s) = _xaxis s.
Proof. intros E. by_flags s E. Qed.

Lemma Reset_flips_y s : _FlipY s = false -> _yaxis (Reset_flips s) = _yaxis s.
Proof. intros E. by_flags s E. Qed.

Lemma Reset_flips_z s : _FlipZ s = false -> _zaxis (Reset_flips s) = _zaxis s.
Proof. intros E. by_flags s E. Qed.

Lemma Reset_flips_cerr s : cerr (Reset_flips s) = cerr s.
Proof. pose proof (eq_refl (cerr s)) as E. by_flags s E. Qed.

Lemma Reset_axes_flags s :
  _FlipX (Reset_axes s) = _FlipX s /\ _FlipY (Reset_axes s) = _FlipY s /\
  _FlipZ (Reset_axes s) = _FlipZ s.
Proof.
  unfold Reset_axes.
  destruct (GetOrientation _) as [[xa ya] za], (Orientation _) as [[i j] k].
  destruct (_DisplayMode s); [destruct i, j, k; repeat split .. | repeat split].
Qed.

Lemma neurological_axis_cerr code v what s :
  cerr (neurological_axis code v what s) = (cerr s ++ report code what)%list.
Proof. destruct code; cbn; rewrite ?app_nil_r; reflexivity. Qed.

Lemma radiological_axis_cerr code v what s :
  cerr (radiological_axis code v what s) = (cerr s ++ report code what)%list.
Proof. destruct code; cbn; rewrite ?app_nil_r; reflexivity. Qed.

Lemma Reset_axes_cerr s xa ya za i j k :
  GetOrientation (_targetImage s) = (xa, ya, za) ->
  Orientation (_targetImage s) = (i, j, k) ->
  _DisplayMode s <> Native ->
  cerr (Reset_axes s) =
  (cerr s ++ report i msg_x ++ report j msg_y ++ report k msg_z)%list.
Proof.
  intros Ho Hc Hm. unfold Reset_axes. rewrite Ho, Hc.
  destruct (_DisplayMode s); [| | congruence].
  - rewrite !neurological_axis_cerr, <- !app_assoc. reflexivity.
  - rewrite !radiological_axis_cerr, <- !app_assoc. reflexivity.
Qed.

(** A display axis that none of the three codes resolves to is not
    assigned. *)
Lemma Reset_axes_unset s xa ya za i j k :
  GetOrientation (_targetImage s) = (xa, ya, za) ->
  Orientation (_targetImage s) = (i, j, k) ->
  _DisplayMode s <> Native ->
  (left_right i || left_right j || left_right k = false ->
   _xaxis (Reset_axes s) = _xaxis s) /\
  (front_back i || front_back j || front_back k = false ->
   _yaxis (Reset_axes s) = _yaxis s) /\
  (up_down i || up_down j || up_down k = false ->
   _zaxis (Reset_axes s) = _zaxis s).
Proof.
  intros Ho Hc Hm. unfold Reset_axes. rewrite Ho, Hc.
  destruct (_DisplayMode s); [| | congruence];
    (split; [|split]); intros E; destruct i, j, k; try discriminate E; reflexivity.
Qed.

Lemma Reset_flips_xaxis s : _xaxis (Reset_flips s) = flipped (_FlipX s) (_xaxis s).
Proof. pose proof (eq_refl (_FlipX s)) as E. unfold flipped. by_flags s E. Qed.

Lemma Reset_flips_yaxis s : _yaxis (Reset_flips s) = flipped (_FlipY s) (_yaxis s).
Proof. pose proof (eq_refl (_FlipY s)) as E. unfold flipped. by_flags s E. Qed.

Lemma Reset_flips_zaxis s : _zaxis (Reset_flips s) = flipped (_FlipZ s) (_zaxis s).
Proof. pose proof (eq_refl (_FlipZ s)) as E. unfold flipped. by_flags s E. Qed.

(** C8, as amended: when [Reset] returns, for a target volume with the
    direction vectors (xa, ya, za) and the orientation codes (i, j, k):
    - if i is L2R and no later axis runs left-right, the display x axis is
      xa negated in the neurological mode and xa itself in the
      radiological mode, negated once more when the flip of x is requested;
    - outside the native mode, every axis whose code is none of the six is
      reported, in the order x, y, z, and a display axis that no code
      resolves to is not set from the volume: it keeps the vector it had,
      negated when the flip of that axis is requested. *)
Theorem Reset_orientation
    (s s' : RView) (xa ya za : Vec3) (i j k : OrientationCode) :
  Reset s = Ok s' ->
  GetOrientation (_targetImage s) = (xa, ya, za) ->
  Orientation (_targetImage s) = (i, j, k) ->
  (i = L2R -> left_right j = false -> left_right k = false ->
   (_DisplayMode s = Neurological -> _xaxis s' = flipped (_FlipX s) (vneg xa)) /\
   (_DisplayMode s = Radiological -> _xaxis s' = flipped (_FlipX s) xa)) /\
  (_DisplayMode s <> Native ->
   cerr s' = (cerr s ++ report i msg_x ++ report j msg_y ++ report k msg_z)%list /\
   (left_right i || left_right j || left_right k = false ->
    _xaxis s' = flipped (_FlipX s) (_xaxis s)) /\
   (front_back i || front_back j || front_back k = false ->
    _yaxis s' = flipped (_FlipY s) (_yaxis s)) /\
   (up_down i || up_down j || up_down k = false ->
    _zaxis s' = flipped (_FlipZ s) (_zaxis s))).
Proof.
  intros HR Ho Hc.
  destruct (Reset_axes_of s s' HR) as (Ex & Ey & Ez & Ee).
  destruct (Reset_axes_flags s) as (Fx & Fy & Fz).
  rewrite Ex, Ey, Ez, Reset_flips_xaxis, Reset_flips_yaxis, Reset_flips_zaxis, Fx, Fy, Fz.
  split.
  - intros -> Hj Hk.
    unfold Reset_axes. rewrite Ho, Hc. split; intros Hm; rewrite Hm.
    + rewrite !neurological_axis_other by assumption. reflexivity.
    + rewrite !radiological_axis_other by assumption. reflexivity.
  - intros Hm.
    destruct (Reset_axes_unset s xa ya za i j k Ho Hc Hm) as (Ux & Uy & Uz).
    split; [|split; [|split]].
    + rewrite Ee, Reset_flips_cerr. apply (Reset_axes_cerr s xa ya za); assumption.
    + intros E. rewrite (Ux E). reflexivity.
    + intros E. rewrite (Uy E). reflexivity.
    + intros E. rewrite (Uz E). reflexivity.
Qed.

End ResetFacts.

(** C8, counterexample: the third axis of the volume has no known
    orientation and the flip of z is requested; [Reset] reports the axis
    and returns with the display z axis negated, not left as it was.  And
    for a volume whose first two axes both have the code L2R, the display x
    axis in the neurological mode is the negated second vector, not the
    negated first. *)
Lemma Reset_unresolved_axis_not_kept :
  (let s := unknown_axis_state in
   Orientation (_targetImage s) = (L2R, P2A, Orientation_Unknown) /\
   _DisplayMode s = Neurological /\
   exists s', Reset s = Ok s' /\ cerr s' = (cerr s ++ [msg_z])%list /\
              _zaxis s' <> _zaxis s) /\
  (let s := set_targetImage twice_left_right_volume one_view_state in
   GetOrientation (_targetImage s) = ((1, 0, 0), (0, 1, 0), (0, 0, 1))%Q /\
   Orientation (_targetImage s) = (L2R, L2R, I2S) /\
   _DisplayMode s = Neurological /\ _FlipX s = false /\
   exists s', Reset s = Ok s' /\ _xaxis s' = vneg (0, 1, 0)%Q /\
              _xaxis s' <> vneg (1, 0, 0)%Q).
Proof.
  split.
  - intros s. split; [reflexivity|]. split; [reflexivity|].
    exists (returned (Reset s) s).
    split; [apply returned_Ok; vm_compute; reflexivity|].
    split; [vm_compute; reflexivity|].
    vm_compute. intros E. discriminate E.
  - intros s. split; [reflexivity|]. split; [reflexivity|]. split; [reflexivity|].
    split; [reflexivity|].
    exists (returned (Reset s) s).
    split; [apply returned_Ok; vm_compute; reflexivity|].
    split; [vm_compute; reflexivity|].
    vm_compute. intros E. discriminate E.
Qed.

Lemma Reset_orientation_witness :
  let s := flipped_unknown_axis_state in
  let s' := returned (Reset s) s in
  Reset s = Ok s' /\
  GetOrientation (_targetImage s) = unit_axes /\
  Orientation (_targetImage s) = (L2R, P2A, Orientation_Unknown) /\
  _xaxis s' = flipped true (vneg (1, 0, 0)%Q) /\
  cerr s' = (cerr s ++ [msg_z])%list /\
  _zaxis s' = flipped true (_zaxis s).
Proof.
  intros s s'.
  assert (HR : Reset s = Ok s') by (apply returned_Ok; vm_compute; reflexivity).
  clearbody s'.
  split; [exact HR|]. split; [reflexivity|]. split; [reflexivity|].
  destruct (Reset_orientation s s' (1, 0, 0)%Q (0, 1, 0)%Q (0, 0, 1)%Q
              L2R P2A Orientation_Unknown HR eq_refl eq_refl) as [P1 P2].
  destruct (P1 eq_refl eq_refl eq_refl) as [N _].
  assert (Hm : _DisplayMode s <> Native) by (vm_compute; discriminate).
  destruct (P2 Hm) as (Ec & _ & _ & Ez).
  split; [exact (N eq_refl)|]. split; [exact Ec|]. exact (Ez eq_refl).
Defined.

(* ===================================================================== *)
(** * Strings, decimal numbers and the lines of a file *)
(* ===================================================================== *)

(** ** Strings *)

Lemma prefix_app_sep (c : ascii) : forall n pre tail,
  has_char c n = false ->
  String.prefix n (pre ++ String c tail) = String.prefix n pre.
Proof.
  induction n as [|a n IH]; intros pre tail Hn.
  - destruct pre; reflexivity.
  - cbn in Hn. apply orb_false_iff in Hn. destruct Hn as [Hac Hn].
    destruct pre as [|d pre]; cbn.
    + destruct (ascii_dec a c) as [->|_]; [|reflexivity].
      rewrite Ascii.eqb_refl in Hac. discriminate.
    + destruct (ascii_dec a d); [apply IH; exact Hn | reflexivity].
Qed.

Lemma strstr_empty_hay (n : string) : nonempty n = true -> strstr EmptyString n = false.
Proof. destruct n; [discriminate | reflexivity]. Qed.

Lemma strstr_app_sep (c : ascii) (n : string) : forall pre tail,
  nonempty n = true -> has_char c n = false ->
  strstr (pre ++ String c tail) n = strstr pre n || strstr tail n.
Proof.
  intros pre tail Hne Hc. induction pre as [|d pre IH].
  - pose proof (prefix_app_sep c n EmptyString tail Hc) as E.
    cbn [append] in *. cbn [strstr]. rewrite E.
    destruct n; [discriminate|]. reflexivity.
  - pose proof (prefix_app_sep c n (String d pre) tail Hc) as E.
    cbn [append] in *. cbn [strstr]. rewrite IH, E.
    rewrite orb_assoc. reflexivity.
Qed.

Lemma strstr_charset (P : ascii -> bool) (n : string) : forall tail,
  all_chars P tail = true -> starts_outside P n = true -> strstr tail n = false.
Proof.
  destruct n as [|a n]; [discriminate|]. cbn [starts_outside].
  intros tail Ht Ha. apply negb_true_iff in Ha.
  induction tail as [|d tail IH]; [reflexivity|].
  unfold all_chars in Ht. cbn in Ht. apply andb_true_iff in Ht. destruct Ht as [Hd Ht].
  cbn [strstr String.prefix]. rewrite IH by exact Ht.
  destruct (ascii_dec a d) as [->|_]; [congruence | reflexivity].
Qed.

(** The test of a key on a written line: only the part before the value
    can hold the key. *)
Lemma strstr_line (pre v key : string) (bl : bool) :
  all_chars double_char v = true ->
  nonempty key && negb (has_char " " key) && starts_outside double_char key = true ->
  strstr pre key = bl ->
  strstr (pre ++ String " " v) key = bl.
Proof.
  intros Hv Hk Hb. apply andb_true_iff in Hk. destruct Hk as [Hk Hs].
  apply andb_true_iff in Hk. destruct Hk as [Hne Hc]. apply negb_true_iff in Hc.
  rewrite (strstr_app_sep " " key pre v Hne Hc), Hb, (strstr_charset double_char key v Hv Hs).
  apply orb_false_r.
Qed.

Lemma skip_blanks_charset (v : string) :
  all_chars double_char v = true -> skip_blanks v = v.
Proof.
  destruct v as [|c v]; [reflexivity|]. unfold all_chars.
  cbn [list_ascii_of_string forallb skip_blanks].
  intros Hc. apply andb_true_iff in Hc. destruct Hc as [Hc _].
  destruct (Ascii.eqb c " ") eqn:E1.
  - apply Ascii.eqb_eq in E1. subst. discriminate Hc.
  - destruct (Ascii.eqb c tab) eqn:E2; [|reflexivity].
    apply Ascii.eqb_eq in E2. subst. discriminate Hc.
Qed.

(** ** Decimal numbers *)

Lemma isdigit_digit_char (d : Z) : 0 <= d < 10 -> isdigit (digit_char d) = true.
Proof.
  intros Hd.
  assert (C : d = 0 \/ d = 1 \/ d = 2 \/ d = 3 \/ d = 4 \/ d = 5 \/ d = 6 \/
              d = 7 \/ d = 8 \/ d = 9) by lia.
  repeat (destruct C as [-> | C]; [reflexivity|]). subst; reflexivity.
Qed.

Lemma digit_value_digit_char (d : Z) : 0 <= d < 10 -> digit_value (digit_char d) = d.
Proof.
  intros Hd.
  assert (C : d = 0 \/ d = 1 \/ d = 2 \/ d = 3 \/ d = 4 \/ d = 5 \/ d = 6 \/
              d = 7 \/ d = 8 \/ d = 9) by lia.
  repeat (destruct C as [-> | C]; [reflexivity|]). subst; reflexivity.
Qed.

Lemma isdigit_double_char (c : ascii) : isdigit c = true -> double_char c = true.
Proof. intros E. unfold double_char. rewrite E. reflexivity. Qed.

(** Reading back the digits written in front of [acc]. *)
Lemma atoi_show_digits : forall fuel n acc,
  0 <= n < 2 ^ Z.of_nat fuel ->
  atoi_digits (show_digits fuel n acc) 0 = atoi_digits acc n.
Proof.
  induction fuel as [|fuel IH]; intros n acc Hn.
  - cbn in Hn. assert (n = 0) by lia. subst. reflexivity.
  - cbn [show_digits].
    assert (Hm : 0 <= n mod 10 < 10) by (apply Z.mod_pos_bound; lia).
    assert (Hq : 0 <= n / 10) by (apply Z.div_pos; lia).
    assert (Hstep : atoi_digits (String (digit_char (n mod 10)) acc) (n / 10) =
                    atoi_digits acc n).
    { cbn [atoi_digits]. rewrite isdigit_digit_char, digit_value_digit_char by exact Hm.
      f_equal. rewrite (Z.div_mod n 10) at 3 by lia. reflexivity. }
    destruct (n / 10 =? 0) eqn:E.
    + apply Z.eqb_eq in E. rewrite E in Hstep.
      cbn [atoi_digits] in *. rewrite isdigit_digit_char in * by exact Hm.
      rewrite <- Hstep. reflexivity.
    + rewrite IH; [exact Hstep|].
      split; [exact Hq|].
      apply Z.div_lt_upper_bound; [lia|].
      rewrite Nat2Z.inj_succ, Z.pow_succ_r in Hn by lia. lia.
Qed.

Lemma show_nat_fuel (n : Z) : 0 <= n -> 0 <= n < 2 ^ Z.of_nat (S (Z.to_nat (Z.log2 n))).
Proof.
  intros Hn. split; [exact Hn|].
  rewrite Nat2Z.inj_succ, Z2Nat.id by apply Z.log2_nonneg.
  destruct (Z.eq_dec n 0) as [->|Hne]; [reflexivity|].
  apply Z.log2_spec. lia.
Qed.

Lemma atoi_digits_show_nat (n : Z) : 0 <= n -> atoi_digits (show_nat n) 0 = n.
Proof.
  intros Hn. unfold show_nat. rewrite atoi_show_digits by (apply show_nat_fuel; exact Hn).
  reflexivity.
Qed.

(** A written natural number begins with a digit. *)
Lemma show_digits_head : forall fuel n acc,
  (0 < fuel)%nat -> 0 <= n ->
  exists c rest, show_digits fuel n acc = String c rest /\ isdigit c = true.
Proof.
  induction fuel as [|fuel IH]; intros n acc Hf Hn; [lia|].
  cbn [show_digits].
  assert (Hm : 0 <= n mod 10 < 10) by (apply Z.mod_pos_bound; lia).
  destruct (n / 10 =? 0) eqn:E.
  - eexists _, _. split; [reflexivity | apply isdigit_digit_char; exact Hm].
  - destruct fuel as [|fuel].
    + cbn [show_digits]. eexists _, _. split; [reflexivity | apply isdigit_digit_char; exact Hm].
    + apply IH; [lia | apply Z.div_pos; lia].
Qed.

Lemma show_nat_head (n : Z) : 0 <= n ->
  exists c rest, show_nat n = String c rest /\ isdigit c = true.
Proof. intros Hn. apply show_digits_head; [lia | exact Hn]. Qed.

Lemma isdigit_not_space (c : ascii) : isdigit c = true -> isspace c = false.
Proof.
  unfold isdigit, isspace. intros E. apply andb_true_iff in E. destruct E as [E1 E2].
  apply Nat.leb_le in E1. apply Nat.leb_le in E2.
  apply orb_false_iff. split.
  - apply Nat.eqb_neq. lia.
  - apply andb_false_iff. right. apply Nat.leb_gt. lia.
Qed.

Lemma atoi_show_nat (n : Z) : 0 <= n -> atoi (show_nat n) = n.
Proof.
  intros Hn. destruct (show_nat_head n Hn) as (c & rest & E & Hc).
  pose proof (atoi_digits_show_nat n Hn) as A. rewrite E in A.
  unfold atoi. rewrite E. cbn [skip_spaces]. rewrite (isdigit_not_space c Hc).
  destruct c as [[] [] [] [] [] [] [] []]; try discriminate Hc; exact A.
Qed.

Theorem atoi_show_int (z : Z) : atoi (show_int z) = z.
Proof.
  unfold show_int. destruct (z <? 0) eqn:E.
  - apply Z.ltb_lt in E. unfold atoi. cbn [skip_spaces].
    change (isspace "-"%char) with false. cbv iota.
    rewrite atoi_digits_show_nat by lia. lia.
  - apply Z.ltb_ge in E. apply atoi_show_nat. exact E.
Qed.

Lemma all_chars_show_digits : forall fuel n acc,
  0 <= n -> all_chars double_char acc = true ->
  all_chars double_char (show_digits fuel n acc) = true.
Proof.
  induction fuel as [|fuel IH]; intros n acc Hn Ha; [exact Ha|].
  cbn [show_digits].
  assert (Hm : 0 <= n mod 10 < 10) by (apply Z.mod_pos_bound; lia).
  assert (Hc : all_chars double_char (String (digit_char (n mod 10)) acc) = true).
  { unfold all_chars in *. cbn [list_ascii_of_string forallb].
    rewrite Ha, (isdigit_double_char _ (isdigit_digit_char _ Hm)). reflexivity. }
  destruct (n / 10 =? 0); [exact Hc|].
  apply IH; [apply Z.div_pos; lia | exact Hc].
Qed.

Lemma all_chars_show_int (z : Z) : all_chars double_char (show_int z) = true.
Proof.
  unfold show_int. destruct (z <? 0) eqn:E.
  - apply Z.ltb_lt in E. unfold all_chars. cbn [list_ascii_of_string forallb].
    change (double_char "-") with true. cbn [andb].
    apply (all_chars_show_digits _ (- z) EmptyString); [lia | reflexivity].
  - apply Z.ltb_ge in E. apply all_chars_show_digits; [exact E | reflexivity].
Qed.

Lemma length_show_digits : forall fuel n acc,
  (String.length (show_digits fuel n acc) <= fuel + String.length acc)%nat.
Proof.
  induction fuel as [|fuel IH]; intros n acc; cbn [show_digits]; [lia|].
  destruct (n / 10 =? 0).
  - cbn [String.length]. lia.
  - specialize (IH (n / 10) (String (digit_char (n mod 10)) acc)).
    cbn [String.length] in IH. lia.
Qed.

Lemma length_show_nat (n : Z) : 0 <= n <= 2 ^ 31 ->
  (String.length (show_nat n) <= 32)%nat.
Proof.
  intros Hn. unfold show_nat.
  pose proof (length_show_digits (S (Z.to_nat (Z.log2 n))) n EmptyString) as L.
  cbn [String.length] in L.
  assert (Z.log2 n <= 31).
  { destruct (Z.eq_dec n 0) as [->|]; [cbn; lia|].
    change 31 with (Z.log2 (2 ^ 31)). apply Z.log2_le_mono. lia. }
  pose proof (Z.log2_nonneg n). lia.
Qed.

Lemma length_show_int (z : Z) : int_range z -> (String.length (show_int z) <= 33)%nat.
Proof.
  intros Hz. unfold int_range in Hz. unfold show_int. destruct (z <? 0) eqn:E.
  - apply Z.ltb_lt in E. cbn [String.length].
    pose proof (length_show_nat (- z)). lia.
  - apply Z.ltb_ge in E. pose proof (length_show_nat z). lia.
Qed.

Lemma strchr_app (c : ascii) (x : string) : forall pre t,
  strchr pre c = Some t -> strchr (pre ++ x) c = Some (t ++ x).
Proof.
  induction pre as [|d pre IH]; intros t E; [discriminate|].
  cbn [append strchr] in *. destruct (Ascii.eqb d c).
  - inversion E; subst. reflexivity.
  - apply IH, E.
Qed.

Lemma length_append (a c : string) :
  String.length (a ++ c) = (String.length a + String.length c)%nat.
Proof. induction a; cbn; [reflexivity | rewrite IHa; reflexivity]. Qed.

Section ReadFacts.
Context `{ViewerApi} `{MirtkApi} `{CxxIO}.
Variable HAVE_VTK : bool.

Lemma Read_loop_skip (l : string) (rest : list string) (sk : bool) (s : RView) :
  Nat.leb 255 (String.length l) = false -> skipped l = true ->
  Read_loop HAVE_VTK (l :: rest) sk s = Read_loop HAVE_VTK rest true s.
Proof. intros Hl Hs. cbn [Read_loop]. rewrite Hl, Hs. reflexivity. Qed.

Lemma Read_loop_step (l v : string) (rest : list string) (sk : bool) (s s' : RView) :
  Nat.leb 255 (String.length l) = false -> skipped l = false ->
  split_line l = Ok v -> Read_body HAVE_VTK l v s = Ok s' ->
  Read_loop HAVE_VTK (l :: rest) sk s = Read_loop HAVE_VTK rest false s'.
Proof.
  intros Hl Hs Hv Hb. cbn [Read_loop]. rewrite Hl, Hs, Hv. cbn [bind].
  rewrite Hb. reflexivity.
Qed.

Lemma Read_loop_value (pre v : string) (rest : list string) (sk : bool) (s s' : RView) :
  line_head pre = true ->
  all_chars double_char v = true -> (String.length v <= 40)%nat ->
  Read_body HAVE_VTK (pre ++ String " " v) v s = Ok s' ->
  Read_loop HAVE_VTK ((pre ++ String " " v) :: rest) sk s = Read_loop HAVE_VTK rest false s'.
Proof.
  intros Hh Hc Hl Hb. unfold line_head in Hh.
  apply andb_true_iff in Hh. destruct Hh as [Hh Hlen].
  apply andb_true_iff in Hh. destruct Hh as [Hsk Heq].
  apply negb_true_iff in Hsk. apply Nat.leb_le in Hlen.
  apply Read_loop_step with (v := v); [| | | exact Hb].
  - apply Nat.leb_gt. rewrite length_append. cbn [String.length]. lia.
  - destruct pre; [discriminate Hsk | exact Hsk].
  - unfold split_line.
    destruct (strchr pre "=") as [[|e [|]]|] eqn:E; try discriminate Heq.
    rewrite (strchr_app _ _ _ _ E). cbn [append skip_blanks].
    change (Ascii.eqb " " " " || Ascii.eqb " " tab) with true. cbv iota.
    rewrite skip_blanks_charset by exact Hc. reflexivity.
Qed.

End ReadFacts.


Ltac eval_key Hv :=
  match goal with
  | |- context [strstr (?p ++ String " " ?v) ?k] =>
      let bl := eval vm_compute in (strstr p k) in
      rewrite (strstr_line p v k bl Hv) by (vm_compute; reflexivity)
  end.

(** The effect of the body of the loop on a written value line. *)
Ltac value_body Hv HAVE_VTK :=
  unfold Read_body; repeat eval_key Hv; destruct HAVE_VTK; reflexivity.

(** A written line whose value is a number. *)
Ltac value_line HAVE_VTK Hc Hl :=
  eapply Read_loop_value;
  [ reflexivity | exact Hc | exact Hl | value_body Hc HAVE_VTK ].

(** A written line without variable part. *)
Ltac fixed_line HAVE_VTK :=
  eapply Read_loop_step;
  [ reflexivity | reflexivity | vm_compute; reflexivity
  | destruct HAVE_VTK; vm_compute; reflexivity ].

Section ReadWrite.
Context `{CxxIO}.
Variable HAVE_VTK : bool.

Lemma all_chars_show_double (x : Q) : all_chars double_char (show_double x) = true.
Proof. apply show_double_chars. Qed.

Lemma length_show_double (x : Q) : (String.length (show_double x) <= 40)%nat.
Proof. pose proof (show_double_length x). lia. Qed.

Lemma length_show_int_40 (z : Z) : int_range z -> (String.length (show_int z) <= 40)%nat.
Proof. intros Hz. pose proof (length_show_int z Hz). lia. Qed.

Lemma Read_loop_screenX (z : Z) (rest : list string) (sk : bool) (s : RView) :
  int_range z ->
  Read_loop HAVE_VTK (("screenX                           = " ++ show_int z) :: rest) sk s =
  Read_loop HAVE_VTK rest false
    (reset_interpolators (set_screenY z s)).
Proof.
  intros Hz. rewrite <- (atoi_show_int z) at 2.
  change ("screenX                           = " ++ show_int z) with ("screenX                           =" ++ String " " (show_int z)).
  value_line HAVE_VTK (all_chars_show_int z) (length_show_int_40 z Hz).
Qed.

Lemma Read_loop_screenY (z : Z) (rest : list string) (sk : bool) (s : RView) :
  int_range z ->
  Read_loop HAVE_VTK (("screenY                           = " ++ show_int z) :: rest) sk s =
  Read_loop HAVE_VTK rest false
    (reset_interpolators (set_screenY z s)).
Proof.
  intros Hz. rewrite <- (atoi_show_int z) at 2.
  change ("screenY                           = " ++ show_int z) with ("screenY                           =" ++ String " " (show_int z)).
  value_line HAVE_VTK (all_chars_show_int z) (length_show_int_40 z Hz).
Qed.

Lemma Read_loop_origin_x (x : Q) (rest : list string) (sk : bool) (s : RView) :
  Read_loop HAVE_VTK (("origin_x                          = " ++ show_double x) :: rest) sk s =
  Read_loop HAVE_VTK rest false
    (reset_interpolators (set_origin_x (atof (show_double x)) s)).
Proof.
  change ("origin_x                          = " ++ show_double x) with ("origin_x                          =" ++ String " " (show_double x)).
  value_line HAVE_VTK (all_chars_show_double x) (length_show_double x).
Qed.

Lemma Read_loop_origin_y (x : Q) (rest : list string) (sk : bool) (s : RView) :
  Read_loop HAVE_VTK (("origin_y                          = " ++ show_double x) :: rest) sk s =
  Read_loop HAVE_VTK rest false
    (reset_interpolators (set_origin_y (atof (show_double x)) s)).
Proof.
  change ("origin_y                          = " ++ show_double x) with ("origin_y                          =" ++ String " " (show_double x)).
  value_line HAVE_VTK (all_chars_show_double x) (length_show_double x).
Qed.

Lemma Read_loop_origin_z (x : Q) (rest : list string) (sk : bool) (s : RView) :
  Read_loop HAVE_VTK (("origin_z                          = " ++ show_double x) :: rest) sk s =
  Read_loop HAVE_VTK rest false
    (reset_interpolators (set_origin_z (atof (show_double x)) s)).
Proof.
  change ("origin_z                          = " ++ show_double x) with ("origin_z                          =" ++ String " " (show_double x)).
  value_line HAVE_VTK (all_chars_show_double x) (length_show_double x).
Qed.

Lemma Read_loop_resolution (x : Q) (rest : list string) (sk : bool) (s : RView) :
  Read_loop HAVE_VTK (("resolution                        = " ++ show_double x) :: rest) sk s =
  Read_loop HAVE_VTK rest false
    (reset_interpolators (set_resolution (atof (show_double x)) s)).
Proof.
  change ("resolution                        = " ++ show_double x) with ("resolution                        =" ++ String " " (show_double x)).
  value_line HAVE_VTK (all_chars_show_double x) (length_show_double x).
Qed.

Lemma Read_loop_viewMix (x : Q) (rest : list string) (sk : bool) (s : RView) :
  Read_loop HAVE_VTK (("viewMix                           = " ++ show_double x) :: rest) sk s =
  Read_loop HAVE_VTK rest false
    (reset_interpolators (set_viewMix (atof (show_double x)) s)).
Proof.
  change ("viewMix                           = " ++ show_double x) with ("viewMix                           =" ++ String " " (show_double x)).
  value_line HAVE_VTK (all_chars_show_double x) (length_show_double x).
Qed.

Lemma Read_loop_DisplayTargetContour (b : bool) (rest : list string) (sk : bool) (s : RView) :
  Read_loop HAVE_VTK (("DisplayTargetContour              = " ++ show_bool b) :: rest) sk s =
  Read_loop HAVE_VTK rest false
    (reset_interpolators (set_DisplayTargetContour b s)).
Proof. destruct b; fixed_line HAVE_VTK. Qed.

Lemma Read_loop_DisplaySourceContour (b : bool) (rest : list string) (sk : bool) (s : RView) :
  Read_loop HAVE_VTK (("DisplaySourceContour              = " ++ show_bool b) :: rest) sk s =
  Read_loop HAVE_VTK rest false
    (reset_interpolators (set_DisplaySourceContour b s)).
Proof. destruct b; fixed_line HAVE_VTK. Qed.

Lemma Read_loop_DisplayCursor (b : bool) (rest : list string) (sk : bool) (s : RView) :
  Read_loop HAVE_VTK (("DisplayCursor                     = " ++ show_bool b) :: rest) sk s =
  Read_loop HAVE_VTK rest false
    (reset_interpolators (set_DisplayCursor b s)).
Proof. destruct b; fixed_line HAVE_VTK. Qed.

Lemma Read_loop_DisplayDeformationGrid (b : bool) (rest : list string) (sk : bool) (s : RView) :
  Read_loop HAVE_VTK (("DisplayDeformationGrid            = " ++ show_bool b) :: rest) sk s =
  Read_loop HAVE_VTK rest false
    (reset_interpolators (set_DisplayDeformationGrid b s)).
Proof. destruct b; fixed_line HAVE_VTK. Qed.

Lemma Read_loop_DisplayDeformationPoints (b : bool) (rest : list string) (sk : bool) (s : RView) :
  Read_loop HAVE_VTK (("DisplayDeformationPoints          = " ++ show_bool b) :: rest) sk s =
  Read_loop HAVE_VTK rest false
    (reset_interpolators (set_DisplayDeformationPoints b s)).
Proof. destruct b; fixed_line HAVE_VTK. Qed.

Lemma Read_loop_DisplayDeformationArrows (b : bool) (rest : list string) (sk : bool) (s : RView) :
  Read_loop HAVE_VTK (("DisplayDeformationArrows          = " ++ show_bool b) :: rest) sk s =
  Read_loop HAVE_VTK rest false
    (reset_interpolators (set_DisplayDeformationArrows b s)).
Proof. destruct b; fixed_line HAVE_VTK. Qed.

Lemma Read_loop_DisplayLandmarks (b : bool) (rest : list string) (sk : bool) (s : RView) :
  Read_loop HAVE_VTK (("DisplayLandmarks                  = " ++ show_bool b) :: rest) sk s =
  Read_loop HAVE_VTK rest false
    (reset_interpolators (set_DisplayLandmarks b s)).
Proof. destruct b; fixed_line HAVE_VTK. Qed.

Lemma Read_loop_DisplayObject (b : bool) (rest : list string) (sk : bool) (s : RView) :
  Read_loop HAVE_VTK (("DisplayObject                     = " ++ show_bool b) :: rest) sk s =
  Read_loop HAVE_VTK rest false
    (reset_interpolators (when HAVE_VTK (set_DisplayObject b) s)).
Proof. destruct b; fixed_line HAVE_VTK. Qed.

Lemma Read_loop_DisplayObjectWarp (b : bool) (rest : list string) (sk : bool) (s : RView) :
  Read_loop HAVE_VTK (("DisplayObjectWarp                 = " ++ show_bool b) :: rest) sk s =
  Read_loop HAVE_VTK rest false
    (reset_interpolators (when HAVE_VTK (fun s => set_DisplayObjectWarp b (set_DisplayObject b s)) s)).
Proof. destruct b; fixed_line HAVE_VTK. Qed.

Lemma Read_loop_DisplayObjectGrid (b : bool) (rest : list string) (sk : bool) (s : RView) :
  Read_loop HAVE_VTK (("DisplayObjectGrid                 = " ++ show_bool b) :: rest) sk s =
  Read_loop HAVE_VTK rest false
    (reset_interpolators (when HAVE_VTK (fun s => set_DisplayObjectGrid b (set_DisplayObject b s)) s)).
Proof. destruct b; fixed_line HAVE_VTK. Qed.

Lemma Read_loop_targetLookupTable_minDisplay (z : Z) (rest : list string) (sk : bool) (s : RView) :
  int_range z ->
  Read_loop HAVE_VTK (("targetLookupTable_minDisplay      = " ++ show_int z) :: rest) sk s =
  Read_loop HAVE_VTK rest false
    (reset_interpolators (update_targetLookupTable (SetMinDisplayIntensity z) s)).
Proof.
  intros Hz. rewrite <- (atoi_show_int z) at 2.
  change ("targetLookupTable_minDisplay      = " ++ show_int z) with ("targetLookupTable_minDisplay      =" ++ String " " (show_int z)).
  value_line HAVE_VTK (all_chars_show_int z) (length_show_int_40 z Hz).
Qed.

Lemma Read_loop_targetLookupTable_maxDisplay (z : Z) (rest : list string) (sk : bool) (s : RView) :
  int_range z ->
  Read_loop HAVE_VTK (("targetLookupTable_maxDisplay      = " ++ show_int z) :: rest) sk s =
  Read_loop HAVE_VTK rest false
    (reset_interpolators (update_targetLookupTable (SetMaxDisplayIntensity z) s)).
Proof.
  intros Hz. rewrite <- (atoi_show_int z) at 2.
  change ("targetLookupTable_maxDisplay      = " ++ show_int z) with ("targetLookupTable_maxDisplay      =" ++ String " " (show_int z)).
  value_line HAVE_VTK (all_chars_show_int z) (length_show_int_40 z Hz).
Qed.

Lemma Read_loop_sourceLookupTable_minDisplay (z : Z) (rest : list string) (sk : bool) (s : RView) :
  int_range z ->
  Read_loop HAVE_VTK (("sourceLookupTable_minDisplay      = " ++ show_int z) :: rest) sk s =
  Read_loop HAVE_VTK rest false
    (reset_interpolators (update_sourceLookupTable (SetMinDisplayIntensity z) s)).
Proof.
  intros Hz. rewrite <- (atoi_show_int z) at 2.
  change ("sourceLookupTable_minDisplay      = " ++ show_int z) with ("sourceLookupTable_minDisplay      =" ++ String " " (show_int z)).
  value_line HAVE_VTK (all_chars_show_int z) (length_show_int_40 z Hz).
Qed.

Lemma Read_loop_sourceLookupTable_maxDisplay (z : Z) (rest : list string) (sk : bool) (s : RView) :
  int_range z ->
  Read_loop HAVE_VTK (("sourceLookupTable_maxDisplay      = " ++ show_int z) :: rest) sk s =
  Read_loop HAVE_VTK rest false
    (reset_interpolators (update_sourceLookupTable (SetMaxDisplayIntensity z) s)).
Proof.
  intros Hz. rewrite <- (atoi_show_int z) at 2.
  change ("sourceLookupTable_maxDisplay      = " ++ show_int z) with ("sourceLookupTable_maxDisplay      =" ++ String " " (show_int z)).
  value_line HAVE_VTK (all_chars_show_int z) (length_show_int_40 z Hz).
Qed.

Lemma Read_loop_subtractionLookupTable_minDisplay (z : Z) (rest : list string) (sk : bool) (s : RView) :
  int_range z ->
  Read_loop HAVE_VTK (("subtractionLookupTable_minDisplay = " ++ show_int z) :: rest) sk s =
  Read_loop HAVE_VTK rest false
    (reset_interpolators (update_subtractionLookupTable (SetMinDisplayIntensity z) s)).
Proof.
  intros Hz. rewrite <- (atoi_show_int z) at 2.
  change ("subtractionLookupTable_minDisplay = " ++ show_int z) with ("subtractionLookupTable_minDisplay =" ++ String " " (show_int z)).
  value_line HAVE_VTK (all_chars_show_int z) (length_show_int_40 z Hz).
Qed.

Lemma Read_loop_subtractionLookupTable_maxDisplay (z : Z) (rest : list string) (sk : bool) (s : RView) :
  int_range z ->
  Read_loop HAVE_VTK (("subtractionLookupTable_maxDisplay = " ++ show_int z) :: rest) sk s =
  Read_loop HAVE_VTK rest false
    (reset_interpolators (update_subtractionLookupTable (SetMaxDisplayIntensity z) s)).
Proof.
  intros Hz. rewrite <- (atoi_show_int z) at 2.
  change ("subtractionLookupTable_maxDisplay = " ++ show_int z) with ("subtractionLookupTable_maxDisplay =" ++ String " " (show_int z)).
  value_line HAVE_VTK (all_chars_show_int z) (length_show_int_40 z Hz).
Qed.

Lemma Read_loop_configMode (m : ConfigViewerMode) (rest : list string) (sk : bool) (s : RView) :
  Read_loop HAVE_VTK (write_configMode m :: rest) sk s =
  Read_loop HAVE_VTK rest false (reset_interpolators (set_configMode (read_back m) s)).
Proof. destruct m; fixed_line HAVE_VTK. Qed.

Lemma Read_loop_targetInterpolation (m : InterpolationMode) (rest : list string)
    (sk : bool) (s : RView) :
  Read_loop HAVE_VTK (write_targetInterpolation m :: rest) sk s =
  Read_loop HAVE_VTK rest false (set_sourceInterpolator m (set_targetInterpolator m s)).
Proof. destruct m; fixed_line HAVE_VTK. Qed.

Lemma Read_loop_sourceInterpolation (m : InterpolationMode) (rest : list string)
    (sk : bool) (s : RView) :
  Read_loop HAVE_VTK (write_sourceInterpolation m :: rest) sk s =
  Read_loop HAVE_VTK rest false
    (set_sourceInterpolator m (set_targetInterpolator Interpolation_NN s)).
Proof. destruct m; fixed_line HAVE_VTK. Qed.

Lemma Read_loop_viewMode (m : RViewMode) (rest : list string) (sk : bool) (s : RView) :
  Read_loop HAVE_VTK (write_viewMode m ++ rest)%list sk s =
  if written_viewMode m
  then Read_loop HAVE_VTK rest false (reset_interpolators (set_viewMode m s))
  else Read_loop HAVE_VTK rest sk s.
Proof. destruct m; cbn [write_viewMode written_viewMode List.app]; try reflexivity; fixed_line HAVE_VTK. Qed.

Lemma Read_loop_CursorMode (m : CursorMode) (rest : list string) (sk : bool) (s : RView) :
  Read_loop HAVE_VTK (write_CursorMode m :: rest) sk s =
  Read_loop HAVE_VTK rest false (reset_interpolators (set_CursorMode m s)).
Proof. destruct m; fixed_line HAVE_VTK. Qed.

Lemma Read_loop_targetLookupTable_mode (m : ColorMode) (rest : list string)
    (sk : bool) (s : RView) :
  Read_loop HAVE_VTK (write_ColorMode "targetLookupTable_mode            " m :: rest) sk s =
  Read_loop HAVE_VTK rest false
    (reset_interpolators (update_targetLookupTable (SetColorMode m) s)).
Proof. destruct m; fixed_line HAVE_VTK. Qed.

Lemma Read_loop_sourceLookupTable_mode (m : ColorMode) (rest : list string)
    (sk : bool) (s : RView) :
  Read_loop HAVE_VTK (write_ColorMode "sourceLookupTable_mode            " m :: rest) sk s =
  Read_loop HAVE_VTK rest false
    (reset_interpolators (update_sourceLookupTable (SetColorMode m) s)).
Proof. destruct m; fixed_line HAVE_VTK. Qed.

Lemma Read_loop_subtractionLookupTable_mode (m : ColorMode) (rest : list string)
    (sk : bool) (s : RView) :
  Read_loop HAVE_VTK (write_ColorMode "subtractionLookupTable_mode       " m :: rest) sk s =
  Read_loop HAVE_VTK rest false
    (reset_interpolators (update_subtractionLookupTable (SetColorMode m) s)).
Proof. destruct m; fixed_line HAVE_VTK. Qed.

End ReadWrite.


Section LayoutFacts.
Context `{ViewerApi} `{MirtkApi}.

Lemma initialize_slots_ok (s : RView) : forall sls,
  Forall (fun sl => GetViewerMode (_viewer sl) <> Viewer_None) sls ->
  exists sls', initialize_slots s sls = Ok sls'.
Proof.
  induction sls as [|sl rest IH]; intros Hv.
  - eexists. reflexivity.
  - inversion Hv as [|? ? Hsl Hrest]; subst.
    destruct (IH Hrest) as (rest' & E).
    cbn [initialize_slots]. unfold viewer_attributes.
    destruct (GetViewerMode (_viewer sl)); try congruence;
      cbn [bind]; rewrite E; cbn [bind]; eexists; reflexivity.
Qed.

Lemma configure_slots_valid (s : RView) : forall config sv,
  Forall (fun c => GetViewerMode
            (new_Viewer (mode c) (xmin c) (ymin c) (xmax c) (ymax c)
               (_screenX s) (_screenY s)) <> Viewer_None) config ->
  Forall (fun sl => GetViewerMode (_viewer sl) <> Viewer_None)
    (configure_slots s sv config).
Proof.
  induction config as [|c rest IH]; intros sv Hv; cbn [configure_slots].
  - constructor.
  - inversion Hv; subst. constructor; [assumption | apply IH; assumption].
Qed.

(** [Configure] replaces the viewers, raises the four update flags and may
    move the contour viewer; the settings are kept. *)
Lemma Configure_settings (config : list RViewConfig) (s s' : RView) :
  Configure config s = Ok s' -> settings s' = settings s.
Proof.
  unfold Configure, Initialize.
  destruct (initialize_slots _ _) as [sls| | |]; cbn [bind]; try discriminate.
  intros E. inversion E; subst; clear E.
  match goal with |- context [if ?c then _ else _] => destruct c end; reflexivity.
Qed.

Lemma Configure_ok (m : ConfigViewerMode) (s : RView) :
  valid_layouts -> exists s', Configure (preset m) s = Ok s'.
Proof.
  intros V. unfold Configure, Initialize.
  destruct (initialize_slots_ok
              (set_slots (configure_slots s [false; false; false; false] (preset m)) s)
              (configure_slots s [false; false; false; false] (preset m))) as (sls & E).
  - apply configure_slots_valid. apply Forall_forall. intros c Hc. apply (V m); exact Hc.
  - change (_slots (set_slots (configure_slots s [false; false; false; false] (preset m)) s))
      with (configure_slots s [false; false; false; false] (preset m)).
    rewrite E. cbn [bind]. eexists. reflexivity.
Qed.

End LayoutFacts.


Section RoundTrip.
Context `{ViewerApi} `{MirtkApi} `{CxxIO}.
Variable HAVE_VTK : bool.

Ltac read_step :=
  first
    [ rewrite Read_loop_skip by reflexivity
    | rewrite Read_loop_configMode
    | rewrite Read_loop_screenX by assumption
    | rewrite Read_loop_screenY by assumption
    | rewrite Read_loop_origin_x
    | rewrite Read_loop_origin_y
    | rewrite Read_loop_origin_z
    | rewrite Read_loop_resolution
    | rewrite Read_loop_targetInterpolation
    | rewrite Read_loop_sourceInterpolation
    | rewrite Read_loop_viewMix
    | rewrite Read_loop_DisplayTargetContour
    | rewrite Read_loop_DisplaySourceContour
    | rewrite Read_loop_DisplayCursor
    | rewrite Read_loop_CursorMode
    | rewrite Read_loop_DisplayDeformationGrid
    | rewrite Read_loop_DisplayDeformationPoints
    | rewrite Read_loop_DisplayDeformationArrows
    | rewrite Read_loop_DisplayLandmarks
    | rewrite Read_loop_DisplayObjectWarp
    | rewrite Read_loop_DisplayObjectGrid
    | rewrite Read_loop_DisplayObject
    | rewrite Read_loop_targetLookupTable_minDisplay by assumption
    | rewrite Read_loop_targetLookupTable_maxDisplay by assumption
    | rewrite Read_loop_targetLookupTable_mode
    | rewrite Read_loop_sourceLookupTable_minDisplay by assumption
    | rewrite Read_loop_sourceLookupTable_maxDisplay by assumption
    | rewrite Read_loop_sourceLookupTable_mode
    | rewrite Read_loop_subtractionLookupTable_minDisplay by assumption
    | rewrite Read_loop_subtractionLookupTable_maxDisplay by assumption
    | rewrite Read_loop_subtractionLookupTable_mode ].

(** What the loop of [Read] makes of the file [Write] has written. *)
Lemma Read_loop_Write (s s0 : RView) :
  ints_in_range s -> written_viewMode (_viewMode s) = true ->
  exists s1, Read_loop HAVE_VTK (Write HAVE_VTK s) false s0 = Ok s1 /\
    _configMode s1 = read_back (_configMode s) /\
    _viewMode s1 = _viewMode s /\
    _screenX s1 = _screenX s0 /\
    _screenY s1 = _screenY s /\
    _targetInterpolator s1 = Interpolation_NN /\
    _sourceInterpolator s1 = Interpolation_NN /\
    (GetMinDisplayIntensity (_targetLookupTable s1),
     GetMaxDisplayIntensity (_targetLookupTable s1),
     GetColorMode (_targetLookupTable s1)) =
    (GetMinDisplayIntensity (_targetLookupTable s),
     GetMaxDisplayIntensity (_targetLookupTable s),
     GetColorMode (_targetLookupTable s)) /\
    (GetMinDisplayIntensity (_sourceLookupTable s1),
     GetMaxDisplayIntensity (_sourceLookupTable s1),
     GetColorMode (_sourceLookupTable s1)) =
    (GetMinDisplayIntensity (_sourceLookupTable s),
     GetMaxDisplayIntensity (_sourceLookupTable s),
     GetColorMode (_sourceLookupTable s)) /\
    (GetMinDisplayIntensity (_subtractionLookupTable s1),
     GetMaxDisplayIntensity (_subtractionLookupTable s1),
     GetColorMode (_subtractionLookupTable s1)) =
    (GetMinDisplayIntensity (_subtractionLookupTable s),
     GetMaxDisplayIntensity (_subtractionLookupTable s),
     GetColorMode (_subtractionLookupTable s)) /\
    (_DisplayTargetContour s1, _DisplaySourceContour s1, _DisplayCursor s1,
     _DisplayDeformationGrid s1, _DisplayDeformationPoints s1,
     _DisplayDeformationArrows s1, _DisplayLandmarks s1) =
    (_DisplayTargetContour s, _DisplaySourceContour s, _DisplayCursor s,
     _DisplayDeformationGrid s, _DisplayDeformationPoints s,
     _DisplayDeformationArrows s, _DisplayLandmarks s) /\
    (_DisplayObject s1, _DisplayObjectWarp s1, _DisplayObjectGrid s1) =
    (if HAVE_VTK
     then (_DisplayObjectGrid s, _DisplayObjectWarp s, _DisplayObjectGrid s)
     else (_DisplayObject s0, _DisplayObjectWarp s0, _DisplayObjectGrid s0)).
Proof.
  intros (Hx & Hy & Ht1 & Ht2 & Hs1 & Hs2 & Hu1 & Hu2) Hm.
  unfold Write, GetMinDisplayIntensity, GetMaxDisplayIntensity, GetColorMode,
    GetTargetInterpolationMode, GetSourceInterpolationMode.
  destruct HAVE_VTK.
  - eexists. split.
    + cbn [List.app]. repeat read_step.
      rewrite Read_loop_viewMode, Hm.
      cbn [List.app]. repeat read_step. reflexivity.
    + repeat split; reflexivity.
  - eexists. split.
    + cbn [List.app]. repeat read_step.
      rewrite Read_loop_viewMode, Hm.
      cbn [List.app]. repeat read_step. reflexivity.
    + repeat split; reflexivity.
Qed.

End RoundTrip.










Section BodyFacts.
Context `{CxxIO}.
Variable HAVE_VTK : bool.


End BodyFacts.



Section LoopFacts.
Context `{CxxIO}.
Variable HAVE_VTK : bool.




End LoopFacts.

(* ===================================================================== *)
(** * RView::Read and RView::Write on whole files *)
(* ===================================================================== *)

Lemma read_back_same (m : ConfigViewerMode) : horizontal_AB m = false -> read_back m = m.
Proof. destruct m; intros E; try discriminate E; reflexivity. Qed.

Lemma demo_valid_layouts : valid_layouts.
Proof.
  intros m c sx sy Hc. destruct m; cbn in Hc;
    repeat (destruct Hc as [<- | Hc]; [discriminate|]); destruct Hc.
Qed.


Section FileFacts.
Context `{ViewerApi} `{MirtkApi} `{CxxIO}.
Variable HAVE_VTK : bool.


Lemma Read_loop_Ok (f : file) (s s1 : RView) :
  valid_layouts ->
  Read_loop HAVE_VTK f false s = Ok s1 ->
  exists s', Read HAVE_VTK (Some f) s = Ok s' /\ settings s' = settings s1.
Proof.
  intros V E. unfold Read. rewrite E. cbn [bind].
  destruct (Configure_ok (_configMode s1) s1 V) as (s' & E').
  exists s'. split; [exact E' | exact (Configure_settings _ _ _ E')].
Qed.

(** The round trip where it holds: for a state whose layout is none of the
    four View_AB_*_h layouts and whose view mode is one of the six that
    [Write] writes, [Read] of the file written by [Write] returns, into whatever
    state it reads, and reproduces the layout, the view mode, the display
    limits and the colour mode of the three lookup tables and the seven
    display flags; in a build with VTK also the flags of object warping and
    of the object grid. *)
Theorem Write_Read_round_trip (s s0 : RView) :
  valid_layouts -> ints_in_range s ->
  horizontal_AB (_configMode s) = false ->
  written_viewMode (_viewMode s) = true ->
  exists s', Read HAVE_VTK (Some (Write HAVE_VTK s)) s0 = Ok s' /\
    _configMode s' = _configMode s /\
    _viewMode s' = _viewMode s /\
    (GetMinDisplayIntensity (_targetLookupTable s'),
     GetMaxDisplayIntensity (_targetLookupTable s'),
     GetColorMode (_targetLookupTable s')) =
    (GetMinDisplayIntensity (_targetLookupTable s),
     GetMaxDisplayIntensity (_targetLookupTable s),
     GetColorMode (_targetLookupTable s)) /\
    (GetMinDisplayIntensity (_sourceLookupTable s'),
     GetMaxDisplayIntensity (_sourceLookupTable s'),
     GetColorMode (_sourceLookupTable s')) =
    (GetMinDisplayIntensity (_sourceLookupTable s),
     GetMaxDisplayIntensity (_sourceLookupTable s),
     GetColorMode (_sourceLookupTable s)) /\
    (GetMinDisplayIntensity (_subtractionLookupTable s'),
     GetMaxDisplayIntensity (_subtractionLookupTable s'),
     GetColorMode (_subtractionLookupTable s')) =
    (GetMinDisplayIntensity (_subtractionLookupTable s),
     GetMaxDisplayIntensity (_subtractionLookupTable s),
     GetColorMode (_subtractionLookupTable s)) /\
    (_DisplayTargetContour s', _DisplaySourceContour s', _DisplayCursor s',
     _DisplayDeformationGrid s', _DisplayDeformationPoints s',
     _DisplayDeformationArrows s', _DisplayLandmarks s') =
    (_DisplayTargetContour s, _DisplaySourceContour s, _DisplayCursor s,
     _DisplayDeformationGrid s, _DisplayDeformationPoints s,
     _DisplayDeformationArrows s, _DisplayLandmarks s) /\
    (HAVE_VTK = true ->
     _DisplayObjectWarp s' = _DisplayObjectWarp s /\
     _DisplayObjectGrid s' = _DisplayObjectGrid s).
Proof.
  intros V Hi Hc Hm.
  destruct (Read_loop_Write HAVE_VTK s s0 Hi Hm)
    as (s1 & E1 & Ec & Ev & _ & _ & _ & _ & Et & Es & Eu & Ef & Eo).
  destruct (Read_loop_Ok _ _ _ V E1) as (s' & E & S).
  exists s'. split; [exact E|].
  unfold settings in S. injection S as S1 S2 S3 S4 S5 S6 S7 S8 S9 S10 S11 S12 S13 S14 S15
    S16 S17 S18 S19.
  rewrite S1, S4, S7, S8, S9, S10, S11, S12, S13, S14, S15, S16, S18, S19.
  rewrite Ec, read_back_same by exact Hc.
  split; [reflexivity|]. repeat (split; [assumption|]).
  intros EV. rewrite EV in Eo. injection Eo as _ E2 E3. split; assumption.
Qed.

(** The layout [Read] stores for the file written by [Write] is [read_back]
    of the layout of the writer. *)
Lemma Write_Read_configMode (s s0 : RView) :
  valid_layouts -> ints_in_range s -> written_viewMode (_viewMode s) = true ->
  exists s', Read HAVE_VTK (Some (Write HAVE_VTK s)) s0 = Ok s' /\
             _configMode s' = read_back (_configMode s).
Proof.
  intros V Hi Hm.
  destruct (Read_loop_Write HAVE_VTK s s0 Hi Hm) as (s1 & E1 & Ec & _).
  destruct (Read_loop_Ok _ _ _ V E1) as (s' & E & S).
  exists s'. split; [exact E|].
  unfold settings in S. injection S as S1. rewrite S1. exact Ec.
Qed.


End FileFacts.

(** C1: the round trip loses the layout View_AB_XY_h.  [Write] writes the
    token View_AB_XY_h for it, and [Read] stores the layout View_AB_XY_v for
    that token: the state with the layout View_AB_XY_h, written and read
    back into itself, has the layout View_AB_XY_v. *)
Lemma Write_Read_loses_horizontal_AB :
  let s := set_configMode _View_AB_XY_h small_state in
  match Read true (Some (Write true s)) s with
  | Ok s' => Some (_configMode s')
  | _ => None
  end = Some _View_AB_XY_v.
Proof. vm_compute. reflexivity. Qed.

Lemma Write_Read_round_trip_witness :
  valid_layouts /\ ints_in_range small_state /\
  horizontal_AB (_configMode small_state) = false /\
  written_viewMode (_viewMode small_state) = true /\
  exists s', Read true (Some (Write true small_state)) demo_base = Ok s' /\
    _configMode s' = _configMode small_state /\
    _viewMode s' = _viewMode small_state /\
    (GetMinDisplayIntensity (_targetLookupTable s'),
     GetMaxDisplayIntensity (_targetLookupTable s'),
     GetColorMode (_targetLookupTable s')) =
    (GetMinDisplayIntensity (_targetLookupTable small_state),
     GetMaxDisplayIntensity (_targetLookupTable small_state),
     GetColorMode (_targetLookupTable small_state)) /\
    (GetMinDisplayIntensity (_sourceLookupTable s'),
     GetMaxDisplayIntensity (_sourceLookupTable s'),
     GetColorMode (_sourceLookupTable s')) =
    (GetMinDisplayIntensity (_sourceLookupTable small_state),
     GetMaxDisplayIntensity (_sourceLookupTable small_state),
     GetColorMode (_sourceLookupTable small_state)) /\
    (GetMinDisplayIntensity (_subtractionLookupTable s'),
     GetMaxDisplayIntensity (_subtractionLookupTable s'),
     GetColorMode (_subtractionLookupTable s')) =
    (GetMinDisplayIntensity (_subtractionLookupTable small_state),
     GetMaxDisplayIntensity (_subtractionLookupTable small_state),
     GetColorMode (_subtractionLookupTable small_state)) /\
    (_DisplayTargetContour s', _DisplaySourceContour s', _DisplayCursor s',
     _DisplayDeformationGrid s', _DisplayDeformationPoints s',
     _DisplayDeformationArrows s', _DisplayLandmarks s') =
    (_DisplayTargetContour small_state, _DisplaySourceContour small_state,
     _DisplayCursor small_state, _DisplayDeformationGrid small_state,
     _DisplayDeformationPoints small_state, _DisplayDeformationArrows small_state,
     _DisplayLandmarks small_state) /\
    (true = true ->
     _DisplayObjectWarp s' = _DisplayObjectWarp small_state /\
     _DisplayObjectGrid s' = _DisplayObjectGrid small_state).
Proof.
  assert (Hi : ints_in_range small_state).
  { unfold ints_in_range, int_range. cbn. change (2 ^ 31) with 2147483648. lia. }
  split; [exact demo_valid_layouts|]. split; [exact Hi|].
  split; [reflexivity|]. split; [reflexivity|].
  apply (Write_Read_round_trip true small_state demo_base demo_valid_layouts Hi);
    reflexivity.
Defined.



(* ===================================================================== *)
(** * More on RView::Update *)
(* ===================================================================== *)

Lemma blend_0_1' (c1 c2 : Z) : 0 <= c2 < 256 -> blend (1 - 1) c1 1 c2 = c2.
Proof.
  intros Hc. unfold blend. rewrite (int_of_double_Z _ c2).
  - apply uchar_8bit; exact Hc.
  - ring.
Qed.

(** The pixels of the grid of a viewer lie in its rectangle. *)
Lemma pixel_grid_In (W Hh i j : Z) :
  In (i, j) (pixel_grid W Hh) -> 0 <= i < W /\ 0 <= j < Hh.
Proof.
  unfold pixel_grid. rewrite in_flat_map. intros (j0 & Hj & Hi).
  apply in_map_iff in Hi. destruct Hi as (i0 & E & Hi).
  inversion E; subst. apply in_seq in Hj. apply in_seq in Hi. lia.
Qed.

Lemma Qlt_scaled_1 (q : Q) (i W : Z) :
  (1 <= q)%Q -> 0 <= i < W -> (inject_Z i < q * inject_Z W)%Q.
Proof.
  intros Hq Hi.
  apply Qlt_le_trans with (inject_Z W).
  - rewrite <- Zlt_Qlt. lia.
  - rewrite <- (Qmult_1_l (inject_Z W)) at 1.
    apply Qmult_le_compat_r; [exact Hq|]. change 0%Q with (inject_Z 0).
    rewrite <- Zle_Qle. lia.
Qed.

Lemma Qle_scaled_0 (q : Q) (i W : Z) :
  (q <= 0)%Q -> 0 <= i < W -> (q * inject_Z W <= inject_Z i)%Q.
Proof.
  intros Hq Hi.
  apply Qle_trans with 0%Q.
  - setoid_replace 0%Q with (0 * inject_Z W)%Q by ring.
    apply Qmult_le_compat_r; [exact Hq|]. change 0%Q with (inject_Z 0).
    rewrite <- Zle_Qle. lia.
  - change 0%Q with (inject_Z 0). rewrite <- Zle_Qle. lia.
Qed.

(** Case analysis on a state, with fresh names for its members. *)
Ltac destruct_state s :=
  case s; clear s; repeat (let x := fresh "f" in intro x).

(** Members and member updates of a state built from its parts. *)
Ltac state_simpl :=
  cbn [_screenX _screenY _origin_x _origin_y _origin_z _resolution _xaxis _yaxis _zaxis _FlipX
       _FlipY _FlipZ _viewMode _viewMix _targetInterpolator _sourceInterpolator
       _DisplaySegmentationLabels _SegmentationMode _PaintBrushWidth _DisplayTargetContour
       _DisplaySourceContour _DisplayCursor _DisplayMode _CursorMode _DisplayDeformationGrid
       _DisplayDeformationPoints _DisplayDeformationArrows _contourViewer _contourViewerMode
       _slots _targetUpdate _sourceUpdate _segmentationUpdate _selectionUpdate
       _DisplayLandmarks _DisplayObject _DisplayObjectWarp _DisplayObjectGrid _targetImage
       _sourceImage _segmentationImage _segmentTable _targetLookupTable _sourceLookupTable
       _subtractionLookupTable _regionGrowingMode _RegionGrowingThresholdMin
       _RegionGrowingThresholdMax _configMode _x1 _y1 _z1 _x2 _y2 _z2 _voxelContour cerr set_screenX
       set_screenY set_origin_x set_origin_y set_origin_z set_resolution set_xaxis set_yaxis
       set_zaxis set_FlipX set_FlipY set_FlipZ set_viewMode set_viewMix set_targetInterpolator
       set_sourceInterpolator set_DisplaySegmentationLabels set_SegmentationMode
       set_PaintBrushWidth set_DisplayTargetContour set_DisplaySourceContour set_DisplayCursor
       set_DisplayMode set_CursorMode set_DisplayDeformationGrid set_DisplayDeformationPoints
       set_DisplayDeformationArrows set_contourViewer set_contourViewerMode set_slots
       set_targetUpdate set_sourceUpdate set_segmentationUpdate set_selectionUpdate
       set_DisplayLandmarks set_DisplayObject set_DisplayObjectWarp set_DisplayObjectGrid
       set_targetImage set_sourceImage set_segmentationImage set_segmentTable
       set_targetLookupTable set_sourceLookupTable set_subtractionLookupTable
       set_regionGrowingMode set_RegionGrowingThresholdMin set_RegionGrowingThresholdMax
       set_configMode set_x1 set_y1 set_z1 set_x2 set_y2 set_z2 set_voxelContour set_cerr].
Ltac state_simpl_in H :=
  cbn [_screenX _screenY _origin_x _origin_y _origin_z _resolution _xaxis _yaxis _zaxis _FlipX
       _FlipY _FlipZ _viewMode _viewMix _targetInterpolator _sourceInterpolator
       _DisplaySegmentationLabels _SegmentationMode _PaintBrushWidth _DisplayTargetContour
       _DisplaySourceContour _DisplayCursor _DisplayMode _CursorMode _DisplayDeformationGrid
       _DisplayDeformationPoints _DisplayDeformationArrows _contourViewer _contourViewerMode
       _slots _targetUpdate _sourceUpdate _segmentationUpdate _selectionUpdate
       _DisplayLandmarks _DisplayObject _DisplayObjectWarp _DisplayObjectGrid _targetImage
       _sourceImage _segmentationImage _segmentTable _targetLookupTable _sourceLookupTable
       _subtractionLookupTable _regionGrowingMode _RegionGrowingThresholdMin
       _RegionGrowingThresholdMax _configMode _x1 _y1 _z1 _x2 _y2 _z2 _voxelContour cerr set_screenX
       set_screenY set_origin_x set_origin_y set_origin_z set_resolution set_xaxis set_yaxis
       set_zaxis set_FlipX set_FlipY set_FlipZ set_viewMode set_viewMix set_targetInterpolator
       set_sourceInterpolator set_DisplaySegmentationLabels set_SegmentationMode
       set_PaintBrushWidth set_DisplayTargetContour set_DisplaySourceContour set_DisplayCursor
       set_DisplayMode set_CursorMode set_DisplayDeformationGrid set_DisplayDeformationPoints
       set_DisplayDeformationArrows set_contourViewer set_contourViewerMode set_slots
       set_targetUpdate set_sourceUpdate set_segmentationUpdate set_selectionUpdate
       set_DisplayLandmarks set_DisplayObject set_DisplayObjectWarp set_DisplayObjectGrid
       set_targetImage set_sourceImage set_segmentationImage set_segmentTable
       set_targetLookupTable set_sourceLookupTable set_subtractionLookupTable
       set_regionGrowingMode set_RegionGrowingThresholdMin set_RegionGrowingThresholdMax
       set_configMode set_x1 set_y1 set_z1 set_x2 set_y2 set_z2 set_voxelContour set_cerr] in H.

Section UpdateMore.
Context `{ViewerApi} `{MirtkApi}.

(** The three stages at a pixel read the state through the view mode
    switch, the two tables, the segmentation switch and table and the
    contour only. *)
Lemma final_pixel_ext_at s s' sl ij :
  base_stage s sl ij = base_stage s' sl ij ->
  _DisplaySegmentationLabels s = _DisplaySegmentationLabels s' ->
  _segmentTable s = _segmentTable s' ->
  _voxelContour s = _voxelContour s' ->
  final_pixel s sl ij = final_pixel s' sl ij.
Proof.
  intros Hb Hd Hg Hc.
  unfold final_pixel, selection_stage, segmentation_stage, segmentation_pixel.
  rewrite Hb, Hd, Hg, Hc. reflexivity.
Qed.

Lemma base_stage_eq s s' sl ij :
  (forall lut1 lut2 p1 p2,
      base_pixel s lut1 lut2 (GetWidth (_viewer sl)) (GetHeight (_viewer sl))
        (fst ij) (snd ij) p1 p2 =
      base_pixel s' lut1 lut2 (GetWidth (_viewer sl)) (GetHeight (_viewer sl))
        (fst ij) (snd ij) p1 p2) ->
  _targetLookupTable s = _targetLookupTable s' ->
  _sourceLookupTable s = _sourceLookupTable s' ->
  base_stage s sl ij = base_stage s' sl ij.
Proof.
  intros Hb Ht Hs. unfold base_stage. rewrite Ht, Hs.
  destruct (_isSourceViewer sl); apply Hb.
Qed.

Lemma base_pixel_congr s s' lut1 lut2 W Hh i j p1 p2 :
  _viewMode s = _viewMode s' -> _viewMix s = _viewMix s' ->
  _subtractionLookupTable s = _subtractionLookupTable s' ->
  base_pixel s lut1 lut2 W Hh i j p1 p2 = base_pixel s' lut1 lut2 W Hh i j p1 p2.
Proof. intros E1 E2 E3. unfold base_pixel. rewrite E1, E2, E3. reflexivity. Qed.

Lemma resample_slot_mode (s : RView) (m : RViewMode) (q : Q) (sl : Slot) :
  resample_slot (set_viewMix q (set_viewMode m s)) sl = resample_slot s sl.
Proof. unfold resample_slot. state_simpl. reflexivity. Qed.

(** Two states whose view mode switches agree on the pixels of every
    viewer leave the same viewers behind. *)
Lemma Update_slots_ext (s : RView) (m m' : RViewMode) (q q' : Q) :
  (forall sl lut1 lut2 i j p1 p2,
      In (i, j) (pixel_grid (GetWidth (_viewer sl)) (GetHeight (_viewer sl))) ->
      base_pixel (set_viewMix q (set_viewMode m s)) lut1 lut2
        (GetWidth (_viewer sl)) (GetHeight (_viewer sl)) i j p1 p2 =
      base_pixel (set_viewMix q' (set_viewMode m' s)) lut1 lut2
        (GetWidth (_viewer sl)) (GetHeight (_viewer sl)) i j p1 p2) ->
  _slots (Update (set_viewMix q (set_viewMode m s))) =
  _slots (Update (set_viewMix q' (set_viewMode m' s))).
Proof.
  intros Hb. rewrite !Update_slots. apply map_ext. intros sl.
  rewrite !resample_slot_mode.
  unfold composite_slot. apply (f_equal (mkSlot _ _ _ _ _ _)).
  apply map_ext_in. intros [i j] Hin.
  apply final_pixel_ext_at; [ | unfold clear_update_flags; state_simpl; reflexivity ..].
  apply base_stage_eq; [ | unfold clear_update_flags; state_simpl; reflexivity ..].
  intros lut1 lut2 p1 p2.
  match goal with
  | |- base_pixel _ ?a ?b ?c ?d ?e ?f ?g ?h = _ =>
      transitivity (base_pixel (set_viewMix q (set_viewMode m s)) a b c d e f g h);
      [ apply base_pixel_congr; unfold clear_update_flags; state_simpl; reflexivity
      | transitivity (base_pixel (set_viewMix q' (set_viewMode m' s)) a b c d e f g h);
        [ apply (Hb (fst (resample_slot s sl))); exact Hin
        | apply base_pixel_congr; unfold clear_update_flags; state_simpl; reflexivity ] ]
  end.
Qed.

(** X1: a shutter that is fully open shows one image.  With a mix of 1 or
    more [Update] in either shutter mode leaves every viewer as [Update] in
    the target-only mode does; with a mix of 0 or less, as [Update] in the
    source-only mode does. *)
Theorem Shutter_degenerate_mix (s : RView) (q1 q0 : Q) :
  (1 <= q1)%Q -> (q0 <= 0)%Q ->
  (_slots (Update (set_viewMix q1 (set_viewMode View_HShutter s))) =
   _slots (Update (set_viewMix q1 (set_viewMode View_A s))) /\
   _slots (Update (set_viewMix q1 (set_viewMode View_VShutter s))) =
   _slots (Update (set_viewMix q1 (set_viewMode View_A s)))) /\
  (_slots (Update (set_viewMix q0 (set_viewMode View_HShutter s))) =
   _slots (Update (set_viewMix q0 (set_viewMode View_B s))) /\
   _slots (Update (set_viewMix q0 (set_viewMode View_VShutter s))) =
   _slots (Update (set_viewMix q0 (set_viewMode View_B s)))).
Proof.
  intros Q1 Q0. repeat split; apply Update_slots_ext;
    intros sl lut1 lut2 i j p1 p2 Hin; apply pixel_grid_In in Hin;
    destruct Hin as (Hi & Hj); unfold base_pixel;
    cbn [_viewMode _viewMix set_viewMix set_viewMode];
    match goal with |- context [Qlt_le_dec ?a ?b] => destruct (Qlt_le_dec a b) as [L|L] end;
    try reflexivity; exfalso.
  - apply (Qlt_not_le _ _ (Qlt_scaled_1 q1 j _ Q1 Hj)). exact L.
  - apply (Qlt_not_le _ _ (Qlt_scaled_1 q1 i _ Q1 Hi)). exact L.
  - apply (Qlt_not_le _ _ L). apply Qle_scaled_0; assumption.
  - apply (Qlt_not_le _ _ L). apply Qle_scaled_0; assumption.
Qed.

(** X2: where the table in front is opaque, the over modes show one image.
    With 8-bit tables whose entries have alpha 1, [Update] in the mode
    A-over-B leaves every viewer as the target-only mode does, and in the
    mode B-over-A as the source-only mode does. *)
Theorem Over_opaque (s : RView) :
  lut_8bit -> (forall l v, RGBA.a (At l v) = 1%Q) ->
  _slots (Update (set_viewMode View_AoverB s)) = _slots (Update (set_viewMode View_A s)) /\
  _slots (Update (set_viewMode View_BoverA s)) = _slots (Update (set_viewMode View_B s)).
Proof.
  intros L A.
  assert (E : forall m m', (forall lut1 lut2 W Hh i j p1 p2,
             base_pixel (set_viewMode m s) lut1 lut2 W Hh i j p1 p2 =
             base_pixel (set_viewMode m' s) lut1 lut2 W Hh i j p1 p2) ->
             _slots (Update (set_viewMode m s)) = _slots (Update (set_viewMode m' s))).
  { intros m m' Hb. rewrite !Update_slots. apply map_ext. intros sl.
    unfold composite_slot. f_equal. apply map_ext. intros ij.
    apply final_pixel_ext; try reflexivity. exact Hb. }
  split; apply E; intros; unfold base_pixel;
    cbn [_viewMode set_viewMode]; rewrite A.
  - destruct (L lut1 p1) as (Hr & Hg & Hb). cbn in Hr, Hg, Hb.
    rewrite !blend_1_0 by assumption. reflexivity.
  - destruct (L lut2 p2) as (Hr & Hg & Hb). cbn in Hr, Hg, Hb.
    rewrite !blend_0_1' by assumption. reflexivity.
Qed.

(** With clean flags the first loop of [Update] runs no filter. *)
Lemma resample_clean (s : RView) (sl : Slot) :
  _targetUpdate s = false -> _sourceUpdate s = false ->
  _segmentationUpdate s = false -> _selectionUpdate s = false ->
  fst (resample_slot s sl) =
  mkSlot (_viewer sl) (_isSourceViewer sl) (_targetImageOutput sl) (_sourceImageOutput sl)
    (_segmentationImageOutput sl) (_selectionImageOutput sl) (_drawable sl).
Proof.
  intros Ht Hs Hg Hc. unfold resample_slot. rewrite Ht, Hs, Hg, Hc. reflexivity.
Qed.

(** [Update] writes the viewers and the four flags, nothing else. *)
Lemma Update_eq (s : RView) :
  Update s = set_slots (_slots (Update s)) (clear_update_flags s).
Proof.
  destruct_state s. unfold Update, clear_update_flags. state_simpl. reflexivity.
Qed.

Lemma set_slots_Update (a : list Slot) (s : RView) :
  set_slots a (clear_update_flags (Update s)) = set_slots a (clear_update_flags s).
Proof.
  destruct_state s. unfold Update, clear_update_flags. state_simpl. reflexivity.
Qed.

(** What the three stages at a pixel read of the state and of the viewer. *)
Lemma final_pixel_congr s s' sl sl' ij :
  _viewer sl = _viewer sl' -> _isSourceViewer sl = _isSourceViewer sl' ->
  _targetImageOutput sl = _targetImageOutput sl' ->
  _sourceImageOutput sl = _sourceImageOutput sl' ->
  _segmentationImageOutput sl = _segmentationImageOutput sl' ->
  _selectionImageOutput sl = _selectionImageOutput sl' ->
  _viewMode s = _viewMode s' -> _viewMix s = _viewMix s' ->
  _targetLookupTable s = _targetLookupTable s' ->
  _sourceLookupTable s = _sourceLookupTable s' ->
  _subtractionLookupTable s = _subtractionLookupTable s' ->
  _DisplaySegmentationLabels s = _DisplaySegmentationLabels s' ->
  _segmentTable s = _segmentTable s' ->
  _voxelContour s = _voxelContour s' ->
  final_pixel s sl ij = final_pixel s' sl' ij.
Proof.
  intros E1 E2 E3 E4 E5 E6 E7 E8 E9 E10 E11 E12 E13 E14.
  unfold final_pixel, selection_stage, segmentation_stage, segmentation_pixel,
    base_stage, base_pixel.
  rewrite E1, E2, E3, E4, E5, E6, E7, E8, E9, E10, E11, E12, E13, E14. reflexivity.
Qed.

(** The second loop of a second [Update] reads what the second loop of the
    first read. *)
Lemma final_pixel_again (s : RView) (l l' : list Slot) (sl sl' : Slot) (ij : Z * Z) :
  _viewer sl = _viewer sl' -> _isSourceViewer sl = _isSourceViewer sl' ->
  _targetImageOutput sl = _targetImageOutput sl' ->
  _sourceImageOutput sl = _sourceImageOutput sl' ->
  _segmentationImageOutput sl = _segmentationImageOutput sl' ->
  _selectionImageOutput sl = _selectionImageOutput sl' ->
  final_pixel (clear_update_flags (set_slots l' (Update s))) sl ij =
  final_pixel (clear_update_flags (set_slots l s)) sl' ij.
Proof.
  intros E1 E2 E3 E4 E5 E6. destruct_state s.
  apply final_pixel_congr; try assumption;
    unfold Update, clear_update_flags; state_simpl; reflexivity.
Qed.

Lemma Update_slots_again (s : RView) : _slots (Update (Update s)) = _slots (Update s).
Proof.
  rewrite (Update_slots (Update s)), (Update_slots s), map_map.
  apply map_ext. intros sl.
  rewrite resample_clean by reflexivity.
  unfold composite_slot.
  cbn [_viewer _isSourceViewer _targetImageOutput _sourceImageOutput
       _segmentationImageOutput _selectionImageOutput _drawable].
  apply (f_equal (mkSlot _ _ _ _ _ _)).
  apply map_ext. intros ij.
  apply final_pixel_again; reflexivity.
Qed.

(** X3: [Update] is idempotent.  A second call right after the first leaves
    the whole state as the first left it: no raster, no drawable and no
    flag changes. *)
Theorem Update_idempotent (s : RView) : Update (Update s) = Update s.
Proof.
  transitivity (set_slots (_slots (Update (Update s))) (clear_update_flags (Update s))).
  { exact (Update_eq (Update s)). }
  transitivity (set_slots (_slots (Update (Update s))) (clear_update_flags s)).
  { exact (set_slots_Update _ s). }
  transitivity (set_slots (_slots (Update s)) (clear_update_flags s)).
  { exact (f_equal (fun l => set_slots l (clear_update_flags s)) (Update_slots_again s)). }
  symmetry. exact (Update_eq s).
Qed.

(** X4: [Update] writes the viewers and the four dirty flags and no other
    member; it keeps the number, the viewports and the target or source
    side of the viewers, and it keeps the output rasters of every role
    whose flag is clear or whose input is empty. *)
Theorem Update_frame (s : RView) :
  Update s = set_slots (_slots (Update s)) (clear_update_flags s) /\
  map _viewer (_slots (Update s)) = map _viewer (_slots s) /\
  map _isSourceViewer (_slots (Update s)) = map _isSourceViewer (_slots s) /\
  (dirty Target s && negb (IsEmpty (input Target s)) = false ->
   map _targetImageOutput (_slots (Update s)) = map _targetImageOutput (_slots s)) /\
  (dirty Source s && negb (IsEmpty (input Source s)) = false ->
   map _sourceImageOutput (_slots (Update s)) = map _sourceImageOutput (_slots s)) /\
  (dirty Segmentation s && negb (IsEmpty (input Segmentation s)) = false ->
   map _segmentationImageOutput (_slots (Update s)) =
   map _segmentationImageOutput (_slots s)) /\
  (dirty Selection s && negb (IsEmpty (input Selection s)) = false ->
   map _selectionImageOutput (_slots (Update s)) = map _selectionImageOutput (_slots s)).
Proof.
  split; [exact (Update_eq s)|].
  rewrite Update_slots, !map_map. cbn [dirty input].
  repeat split; try intros E; apply map_ext; intros sl; unfold composite_slot, resample_slot;
    cbn [fst _viewer _isSourceViewer _targetImageOutput _sourceImageOutput
         _segmentationImageOutput _selectionImageOutput];
    try rewrite E; reflexivity.
Qed.

End UpdateMore.

Lemma Shutter_degenerate_mix_witness :
  let s := subtraction_state in
  (1 <= 1)%Q /\ (0 <= 0)%Q /\
  (_slots (Update (set_viewMix 1 (set_viewMode View_HShutter s))) =
   _slots (Update (set_viewMix 1 (set_viewMode View_A s))) /\
   _slots (Update (set_viewMix 1 (set_viewMode View_VShutter s))) =
   _slots (Update (set_viewMix 1 (set_viewMode View_A s)))) /\
  (_slots (Update (set_viewMix 0 (set_viewMode View_HShutter s))) =
   _slots (Update (set_viewMix 0 (set_viewMode View_B s))) /\
   _slots (Update (set_viewMix 0 (set_viewMode View_VShutter s))) =
   _slots (Update (set_viewMix 0 (set_viewMode View_B s)))).
Proof.
  intros s. split; [apply Qle_refl|]. split; [apply Qle_refl|].
  apply (Shutter_degenerate_mix s 1 0); apply Qle_refl.
Defined.

Lemma Over_opaque_witness :
  let s := subtraction_state in
  lut_8bit /\ (forall l v, RGBA.a (At l v) = 1%Q) /\
  _slots (Update (set_viewMode View_AoverB s)) = _slots (Update (set_viewMode View_A s)) /\
  _slots (Update (set_viewMode View_BoverA s)) = _slots (Update (set_viewMode View_B s)).
Proof.
  intros s. split; [exact ramp_At_8bit|]. split; [reflexivity|].
  apply (Over_opaque s); [exact ramp_At_8bit | reflexivity].
Defined.

(* ===================================================================== *)
(** * More on the voxel contour entry points *)
(* ===================================================================== *)

Lemma at_index_app {A : Type} (pre post : list A) (a : A) :
  at_index (pre ++ a :: post) (Z.of_nat (List.length pre)) = Ok a.
Proof.
  unfold at_index.
  replace (Z.of_nat (List.length pre) <? 0) with false by (symmetry; apply Z.ltb_ge; lia).
  rewrite Nat2Z.id, nth_error_app2, Nat.sub_diag by lia. reflexivity.
Qed.

Lemma at_index_outside {A : Type} (l : list A) (k : Z) :
  k < 0 \/ Z.of_nat (List.length l) <= k -> at_index l k = Undefined.
Proof.
  intros Hk. unfold at_index. destruct (k <? 0) eqn:E; [reflexivity|].
  apply Z.ltb_ge in E.
  destruct (nth_error l (Z.to_nat k)) eqn:N; [|reflexivity].
  assert (Hl : (Z.to_nat k < List.length l)%nat)
    by (apply nth_error_Some; rewrite N; discriminate).
  lia.
Qed.

Section ContourMore.
Context `{ViewerApi}.

(** The search loop for the viewer of a first point writes the two
    members of the contour viewer and no other. *)
Lemma find_contour_viewer_none (x y : Q) : forall sls k s,
  forallb (fun sl => negb (in_viewport (_viewer sl) x y)) sls = true ->
  find_contour_viewer x y k sls s = s.
Proof.
  induction sls as [|sl rest IH]; intros k s Hn; [reflexivity|].
  cbn [forallb] in Hn. apply andb_true_iff in Hn. destruct Hn as [Hsl Hrest].
  apply negb_true_iff in Hsl. cbn [find_contour_viewer]. rewrite Hsl.
  apply IH. exact Hrest.
Qed.

Lemma set_contour_viewer_twice (m m' : ViewerMode) (k k' : Z) (s : RView) :
  set_contourViewerMode m' (set_contourViewer k' (set_contourViewerMode m (set_contourViewer k s)))
  = set_contourViewerMode m' (set_contourViewer k' s).
Proof. destruct_state s. vm_compute. reflexivity. Qed.

Lemma find_contour_viewer_form (x y : Q) : forall sls k s,
  find_contour_viewer x y k sls s = s \/
  exists m c, find_contour_viewer x y k sls s =
              set_contourViewerMode m (set_contourViewer c s).
Proof.
  induction sls as [|sl rest IH]; intros k s; [left; reflexivity|].
  cbn [find_contour_viewer].
  destruct (in_viewport (_viewer sl) x y); [|apply IH].
  right.
  destruct (IH (k + 1) (set_contourViewerMode (GetViewerMode (_viewer sl))
                          (set_contourViewer k s))) as [E | (m & c & E)]; rewrite E.
  - eexists _, _. reflexivity.
  - exists m, c. apply set_contour_viewer_twice.
Qed.

(** The last viewer whose viewport holds the point becomes the viewer of
    the contour. *)
Lemma find_contour_viewer_last (x y : Q) (sl : Slot) (post : list Slot) :
  in_viewport (_viewer sl) x y = true ->
  forallb (fun sl' => negb (in_viewport (_viewer sl') x y)) post = true ->
  forall pre k s,
  find_contour_viewer x y k (pre ++ sl :: post) s =
  set_contourViewerMode (GetViewerMode (_viewer sl))
    (set_contourViewer (k + Z.of_nat (List.length pre)) s).
Proof.
  intros Hsl Hpost. induction pre as [|a pre IH]; intros k s.
  - cbn [app find_contour_viewer List.length]. rewrite Hsl.
    rewrite find_contour_viewer_none by exact Hpost.
    replace (k + Z.of_nat 0) with k by lia. reflexivity.
  - cbn [app find_contour_viewer List.length]. rewrite IH.
    replace (k + 1 + Z.of_nat (List.length pre))
      with (k + Z.of_nat (S (List.length pre))) by lia.
    destruct (in_viewport (_viewer a) x y); [|reflexivity].
    apply set_contour_viewer_twice.
Qed.

Lemma locate_first_point (s : RView) (i j : Z) (pre post : list Slot) (sl : Slot) :
  Size (_voxelContour s) = 0 ->
  _slots s = (pre ++ sl :: post)%list ->
  in_viewport (_viewer sl) (ratio i (_screenX s))
    (ratio (_screenY s - j) (_screenY s)) = true ->
  forallb (fun sl' => negb (in_viewport (_viewer sl') (ratio i (_screenX s))
                              (ratio (_screenY s - j) (_screenY s)))) post = true ->
  locate_contour_point s i j =
  Ok (Some
        (set_voxelContour (Initialise (_voxelContour s) (_targetImageOutput sl))
           (set_contourViewerMode (GetViewerMode (_viewer sl))
              (set_contourViewer (Z.of_nat (List.length pre)) s)),
         ImageToWorld (_targetImageOutput sl)
           (((ratio i (_screenX s) - vp_x1 (_viewer sl))
             / (vp_x2 (_viewer sl) - vp_x1 (_viewer sl))
             * inject_Z (GetWidth (_viewer sl)))%Q,
            ((ratio (_screenY s - j) (_screenY s) - vp_y1 (_viewer sl))
             / (vp_y2 (_viewer sl) - vp_y1 (_viewer sl))
             * inject_Z (GetHeight (_viewer sl)))%Q, 0%Q))).
Proof.
  intros Hsz Hsl Hin Hpost. unfold locate_contour_point.
  rewrite Hsz. cbn [Z.eqb bind]. rewrite Hsl.
  rewrite (find_contour_viewer_last _ _ sl post Hin Hpost pre 0 s).
  cbn [Z.add]. state_simpl. rewrite Hsl, at_index_app. cbn [bind].
  rewrite Hsz. cbn [Z.eqb]. reflexivity.
Qed.

(** X5: the first point of a contour.  On a screen of non-zero size (the
    code divides by it), while the contour has no point, a call with a
    position in the viewport of a viewer, and of no later viewer, makes that viewer the viewer of the contour, initialises the
    contour on its target raster, hands the world position of the point to
    the contour operation and marks the selection dirty; the viewports of
    earlier viewers that hold the position as well do not matter. *)
Theorem contour_first_point
    (s : RView) (i j : Z) (mode : ContourMode) (pre post : list Slot) (sl : Slot) :
  _screenX s <> 0 -> _screenY s <> 0 ->
  Size (_voxelContour s) = 0 ->
  _slots s = (pre ++ sl :: post)%list ->
  in_viewport (_viewer sl) (ratio i (_screenX s))
    (ratio (_screenY s - j) (_screenY s)) = true ->
  forallb (fun sl' => negb (in_viewport (_viewer sl') (ratio i (_screenX s))
                              (ratio (_screenY s - j) (_screenY s)))) post = true ->
  let v := _viewer sl in
  let p := ImageToWorld (_targetImageOutput sl)
             (((ratio i (_screenX s) - vp_x1 v) / (vp_x2 v - vp_x1 v)
               * inject_Z (GetWidth v))%Q,
              ((ratio (_screenY s - j) (_screenY s) - vp_y1 v) / (vp_y2 v - vp_y1 v)
               * inject_Z (GetHeight v))%Q, 0%Q) in
  let c := Initialise (_voxelContour s) (_targetImageOutput sl) in
  let placed (c' : VoxelContour) :=
    set_selectionUpdate true
      (set_voxelContour c'
         (set_contourViewerMode (GetViewerMode v)
            (set_contourViewer (Z.of_nat (List.length pre)) s))) in
  AddContour s i j mode =
    Ok (placed match mode with
               | FirstPoint => AddPointSet c p (_PaintBrushWidth s)
               | NewPoint => AddPoint c p (_PaintBrushWidth s)
               | LastPoint => if _SegmentationMode s =? 0
                              then Close c p (_PaintBrushWidth s)
                              else AddPoint c p (_PaintBrushWidth s)
               end) /\
  FillArea s i j = Ok (placed (contour_FillArea c p)) /\
  RegionGrowContour s i j =
    Ok (placed (RegionGrowing c p (_RegionGrowingThresholdMin s)
                  (_RegionGrowingThresholdMax s) (_regionGrowingMode s))).
Proof.
  intros _ _ Hsz Hsl Hin Hpost v p c placed.
  unfold AddContour, FillArea, RegionGrowContour.
  rewrite (locate_first_point s i j pre post sl Hsz Hsl Hin Hpost). cbn [bind].
  subst placed c p v. clear Hsz Hsl Hin Hpost. destruct_state s. repeat split; vm_compute; reflexivity.
Qed.

(** X6: a first point outside every viewport.  While the contour has no
    point and [_contourViewer] names no viewer (it is -1 from the
    constructor on), a call with a position that no viewport holds reads
    the array of viewers outside its bounds. *)
Theorem contour_first_point_outside
    (s : RView) (i j : Z) (mode : ContourMode) :
  Size (_voxelContour s) = 0 ->
  _contourViewer s < 0 \/ _NoOfViewers s <= _contourViewer s ->
  forallb (fun sl => negb (in_viewport (_viewer sl) (ratio i (_screenX s))
                             (ratio (_screenY s - j) (_screenY s)))) (_slots s) = true ->
  AddContour s i j mode = Undefined /\ FillArea s i j = Undefined /\
  RegionGrowContour s i j = Undefined.
Proof.
  intros Hsz Hcv Hout.
  assert (E : locate_contour_point s i j = Undefined).
  { unfold locate_contour_point. rewrite Hsz. cbn [Z.eqb bind].
    rewrite find_contour_viewer_none by exact Hout.
    rewrite at_index_outside by exact Hcv. reflexivity. }
  unfold AddContour, FillArea, RegionGrowContour. rewrite E. repeat split; reflexivity.
Qed.

End ContourMore.

Lemma contour_first_point_witness :
  let s := two_view_state in
  let sl := nth 0 (_slots s) (pixel_slot false 0 0 0 0) in
  let post := skipn 1 (_slots s) in
  _screenX s <> 0 /\ _screenY s <> 0 /\
  Size (_voxelContour s) = 0 /\
  _slots s = ([] ++ sl :: post)%list /\
  in_viewport (_viewer sl) (ratio 50 (_screenX s))
    (ratio (_screenY s - 50) (_screenY s)) = true /\
  forallb (fun sl' => negb (in_viewport (_viewer sl') (ratio 50 (_screenX s))
                              (ratio (_screenY s - 50) (_screenY s)))) post = true /\
  option_map _contourViewer
    (match AddContour s 50 50 FirstPoint with Ok s' => Some s' | _ => None end) = Some 0.
Proof.
  intros s sl post.
  assert (Sx : _screenX s <> 0) by (vm_compute; discriminate).
  assert (Sy : _screenY s <> 0) by (vm_compute; discriminate).
  assert (H1 : Size (_voxelContour s) = 0) by reflexivity.
  assert (H2 : _slots s = ([] ++ sl :: post)%list) by reflexivity.
  assert (H3 : in_viewport (_viewer sl) (ratio 50 (_screenX s))
                 (ratio (_screenY s - 50) (_screenY s)) = true)
    by (vm_compute; reflexivity).
  assert (H4 : forallb (fun sl' => negb (in_viewport (_viewer sl') (ratio 50 (_screenX s))
                 (ratio (_screenY s - 50) (_screenY s)))) post = true)
    by (vm_compute; reflexivity).
  split; [exact Sx|]. split; [exact Sy|]. split; [exact H1|]. split; [exact H2|].
  split; [exact H3|]. split; [exact H4|].
  destruct (contour_first_point s 50 50 FirstPoint [] post sl Sx Sy H1 H2 H3 H4)
    as (E & _).
  rewrite E. reflexivity.
Defined.

Lemma contour_first_point_outside_witness :
  let s := two_view_state in
  Size (_voxelContour s) = 0 /\
  (_contourViewer s < 0 \/ _NoOfViewers s <= _contourViewer s) /\
  forallb (fun sl => negb (in_viewport (_viewer sl) (ratio 50 (_screenX s))
                             (ratio (_screenY s - 0) (_screenY s)))) (_slots s) = true /\
  AddContour s 50 0 FirstPoint = Undefined /\ FillArea s 50 0 = Undefined /\
  RegionGrowContour s 50 0 = Undefined.
Proof.
  intros s.
  assert (H1 : Size (_voxelContour s) = 0) by reflexivity.
  assert (H2 : _contourViewer s < 0 \/ _NoOfViewers s <= _contourViewer s)
    by (left; reflexivity).
  assert (H3 : forallb (fun sl => negb (in_viewport (_viewer sl) (ratio 50 (_screenX s))
                 (ratio (_screenY s - 0) (_screenY s)))) (_slots s) = true)
    by (vm_compute; reflexivity).
  repeat (split; [assumption|]).
  apply (contour_first_point_outside s 50 0 FirstPoint H1 H2 H3).
Defined.

(* ===================================================================== *)
(** * More on the region of interest *)
(* ===================================================================== *)

Lemma Qfloor_half (n : Z) : Qfloor (inject_Z n + (1 # 2)) = n.
Proof.
  assert (L : (inject_Z n <= inject_Z n + (1 # 2))%Q).
  { rewrite <- (Qplus_0_r (inject_Z n)) at 1. apply Qplus_le_r. discriminate. }
  assert (U : (inject_Z n + (1 # 2) < inject_Z (n + 1))%Q).
  { rewrite inject_Z_plus. apply Qplus_lt_r. reflexivity. }
  apply Qfloor_resp_le in L. rewrite Qfloor_Z in L.
  pose proof (Qfloor_le (inject_Z n + (1 # 2))) as F.
  pose proof (Qle_lt_trans _ _ _ F U) as G. rewrite <- Zlt_Qlt in G. lia.
Qed.

(** [round] of an integer is the integer. *)
Lemma round_inject_Z (n : Z) : round (inject_Z n) = inject_Z n.
Proof.
  unfold round. destruct (Qle_bool 0 (inject_Z n)) eqn:E.
  - rewrite Qfloor_half. reflexivity.
  - assert (N : (- inject_Z n == inject_Z (- n))%Q) by (rewrite inject_Z_opp; reflexivity).
    assert (N' : (- inject_Z n + (1 # 2) == inject_Z (- n) + (1 # 2))%Q)
      by (rewrite N; reflexivity).
    rewrite (Qfloor_comp _ _ N'), Qfloor_half. f_equal. lia.
Qed.

(** [round] gives one result on equal numbers. *)
Lemma round_comp (x y : Q) : (x == y)%Q -> round x = round y.
Proof.
  intros E. unfold round.
  assert (B : Qle_bool 0 x = Qle_bool 0 y).
  { destruct (Qle_bool 0 x) eqn:Bx, (Qle_bool 0 y) eqn:By; try reflexivity.
    - apply Qle_bool_iff in Bx. rewrite E in Bx. apply Qle_bool_iff in Bx. congruence.
    - apply Qle_bool_iff in By. rewrite <- E in By. apply Qle_bool_iff in By. congruence. }
  rewrite B. destruct (Qle_bool 0 y).
  - f_equal. apply Qfloor_comp. rewrite E. reflexivity.
  - do 2 f_equal. apply Qfloor_comp. rewrite E. reflexivity.
Qed.

(** The second corner after the clamps of [UpdateROI2] lies in a voxel of
    the volume, unless it was set on the first corner. *)
Lemma clamp2_bounded (dim : Z) (c1 c2 : Q) :
  (round (clamp2 dim c1 c2) < inject_Z dim)%Q \/ clamp2 dim c1 c2 = c1.
Proof.
  unfold clamp2.
  destruct (Qle_bool (inject_Z dim) (round c2)) eqn:E.
  - destruct (Qlt_bool (round (inject_Z (dim - 1))) (round c1)); [right; reflexivity|].
    left. rewrite round_inject_Z, <- Zlt_Qlt. lia.
  - destruct (Qlt_bool (round c2) (round c1)); [right; reflexivity|].
    left. apply Qnot_le_lt. intros L. apply Qle_bool_iff in L. congruence.
Qed.

(** The first corner after the clamps of [UpdateROI1] lies in a voxel at
    or above 0, unless it was set on the voxel of the second corner. *)
Lemma clamp1_bounded (c1 c2 : Q) :
  (0 <= round (clamp1 c1 c2))%Q \/ clamp1 c1 c2 = round c2.
Proof.
  unfold clamp1.
  destruct (Qlt_bool (round c1) 0) eqn:E.
  - destruct (Qlt_bool (round c2) (round 0)); [right; reflexivity|].
    left. change 0%Q with (inject_Z 0). rewrite round_inject_Z. apply Qle_refl.
  - destruct (Qlt_bool (round c2) (round c1)); [right; reflexivity|].
    left. apply Qlt_bool_false. exact E.
Qed.

Lemma round_round (x : Q) : round (round x) = round x.
Proof. unfold round at 2 3. destruct (Qle_bool 0 x); apply round_inject_Z. Qed.

(** A viewer whose viewport does not hold the tested position leaves the
    locals and the state of the two loops alone. *)
Lemma UpdateROI2_step_outside (i j : Z) (st : roi_loop) (sl : Slot) :
  in_viewport (_viewer sl) (fst (fst (roi2 st))) (snd (fst (roi2 st))) = false ->
  UpdateROI2_step i j st sl = st.
Proof.
  intros E. unfold UpdateROI2_step. destruct (roi2 st) as [[x y] z].
  cbn [fst snd] in E. rewrite E. reflexivity.
Qed.

Lemma UpdateROI1_step_outside (i j : Z) (st : roi_loop) (sl : Slot) :
  in_viewport (_viewer sl) (fst (fst (roi1 st))) (snd (fst (roi1 st))) = false ->
  UpdateROI1_step i j st sl = st.
Proof.
  intros E. unfold UpdateROI1_step. destruct (roi1 st) as [[x y] z].
  cbn [fst snd] in E. rewrite E. reflexivity.
Qed.

Lemma UpdateROI2_fold_outside (i j : Z) : forall sls st,
  outside_all sls (fst (fst (roi2 st))) (snd (fst (roi2 st))) = true ->
  fold_left (UpdateROI2_step i j) sls st = st.
Proof.
  induction sls as [|sl rest IH]; intros st Ho; [reflexivity|].
  cbn [outside_all forallb] in Ho. apply andb_true_iff in Ho. destruct Ho as [Hsl Hrest].
  apply negb_true_iff in Hsl. cbn [fold_left].
  rewrite UpdateROI2_step_outside by exact Hsl. apply IH. exact Hrest.
Qed.

Lemma UpdateROI1_fold_outside (i j : Z) : forall sls st,
  outside_all sls (fst (fst (roi1 st))) (snd (fst (roi1 st))) = true ->
  fold_left (UpdateROI1_step i j) sls st = st.
Proof.
  induction sls as [|sl rest IH]; intros st Ho; [reflexivity|].
  cbn [outside_all forallb] in Ho. apply andb_true_iff in Ho. destruct Ho as [Hsl Hrest].
  apply negb_true_iff in Hsl. cbn [fold_left].
  rewrite UpdateROI1_step_outside by exact Hsl. apply IH. exact Hrest.
Qed.

(** X7: a click outside every viewport leaves the region of interest, and
    the whole state, as it was. *)
Theorem UpdateROI_outside (s : RView) (i j : Z) :
  outside_all (_slots s) (ratio i (_screenX s)) (ratio (_screenY s - j) (_screenY s)) = true ->
  UpdateROI1 s i j = s /\ UpdateROI2 s i j = s.
Proof.
  intros Ho. unfold UpdateROI1, UpdateROI2.
  rewrite UpdateROI1_fold_outside, UpdateROI2_fold_outside by exact Ho.
  split; reflexivity.
Qed.

(** X8: [UpdateROI2] with the click in the last viewer only, on a screen
    of non-zero size (the code divides by it).  When the
    target image maps voxels to the world and back, the first corner stays
    where it was, and on every axis the voxel of the second corner is at or
    above the voxel of the first and inside the volume, unless the second
    corner was set on the first. *)
Theorem UpdateROI2_last_viewer (s : RView) (i j : Z) (pre : list Slot) (sl : Slot) :
  _screenX s <> 0 -> _screenY s <> 0 ->
  _slots s = (pre ++ [sl])%list ->
  outside_all pre (ratio i (_screenX s)) (ratio (_screenY s - j) (_screenY s)) = true ->
  in_viewport (_viewer sl) (ratio i (_screenX s))
    (ratio (_screenY s - j) (_screenY s)) = true ->
  inverse_maps (_targetImage s) ->
  let s' := UpdateROI2 s i j in
  corner1 s' = corner1 s /\
  let '(a1, b1, c1) := corner1 s in
  let '(a2, b2, c2) := corner2 s' in
  (round a1 <= round a2 /\ round b1 <= round b2 /\ round c1 <= round c2)%Q /\
  (round a2 < inject_Z (GetX (_targetImage s)) \/ a2 == a1)%Q /\
  (round b2 < inject_Z (GetY (_targetImage s)) \/ b2 == b1)%Q /\
  (round c2 < inject_Z (GetZ (_targetImage s)) \/ c2 == c1)%Q.
Proof.
  intros _ _ Hsl Hpre Hin Inv s'.
  assert (E : s' = UpdateROI2 s i j) by reflexivity. clearbody s'.
  unfold UpdateROI2 in E. rewrite Hsl, fold_left_app in E.
  match type of E with
  | context [fold_left _ pre ?st] => rewrite (UpdateROI2_fold_outside i j pre st Hpre) in E
  end.
  cbn [fold_left] in E. unfold UpdateROI2_step in E. cbn [roi2 roi1 roi_state] in E.
  rewrite Hin in E. unfold corner1, corner2.
  destruct (WorldToImage (_targetImageOutput sl) (_x2 s, _y2 s, _z2 s)) as [[u0 v0] w0].
  destruct (WorldToImage (_targetImage s) (_x1 s, _y1 s, _z1 s)) as [[a1 b1] c1] eqn:C1.
  match type of E with
  | context [WorldToImage (_targetImage s) (ImageToWorld (_targetImageOutput sl) ?p)] =>
      destruct (WorldToImage (_targetImage s) (ImageToWorld (_targetImageOutput sl) p))
        as [[a b] c]
  end.
  pose proof (Inv (clamp2 (GetX (_targetImage s)) a1 a,
                   clamp2 (GetY (_targetImage s)) b1 b,
                   clamp2 (GetZ (_targetImage s)) c1 c)) as I.
  destruct (ImageToWorld (_targetImage s)
              (clamp2 (GetX (_targetImage s)) a1 a, clamp2 (GetY (_targetImage s)) b1 b,
               clamp2 (GetZ (_targetImage s)) c1 c)) as [[x2 y2] z2].
  cbn [roi_state] in E. subst s'. state_simpl. rewrite C1. split; [reflexivity|].
  destruct (WorldToImage (_targetImage s) (x2, y2, z2)) as [[a2 b2] c2].
  destruct I as (Ia & Ib & Ic).
  rewrite (round_comp _ _ Ia), (round_comp _ _ Ib), (round_comp _ _ Ic).
  repeat split; try apply clamp2_ordered.
  - destruct (clamp2_bounded (GetX (_targetImage s)) a1 a) as [L | E];
      [left; exact L | right; rewrite Ia, E; reflexivity].
  - destruct (clamp2_bounded (GetY (_targetImage s)) b1 b) as [L | E];
      [left; exact L | right; rewrite Ib, E; reflexivity].
  - destruct (clamp2_bounded (GetZ (_targetImage s)) c1 c) as [L | E];
      [left; exact L | right; rewrite Ic, E; reflexivity].
Qed.

(** X9: [UpdateROI1] with the click in the last viewer only, on a screen
    of non-zero size (the code divides by it).  When the
    target image maps voxels to the world and back, the second corner stays
    where it was, and on every axis the voxel of the first corner is at or
    below the voxel of the second and at or above 0, unless the first
    corner was set on the voxel of the second. *)
Theorem UpdateROI1_last_viewer (s : RView) (i j : Z) (pre : list Slot) (sl : Slot) :
  _screenX s <> 0 -> _screenY s <> 0 ->
  _slots s = (pre ++ [sl])%list ->
  outside_all pre (ratio i (_screenX s)) (ratio (_screenY s - j) (_screenY s)) = true ->
  in_viewport (_viewer sl) (ratio i (_screenX s))
    (ratio (_screenY s - j) (_screenY s)) = true ->
  inverse_maps (_targetImage s) ->
  let s' := UpdateROI1 s i j in
  corner2 s' = corner2 s /\
  let '(a1, b1, c1) := corner1 s' in
  let '(a2, b2, c2) := corner2 s in
  (round a1 <= round a2 /\ round b1 <= round b2 /\ round c1 <= round c2)%Q /\
  (0 <= round a1 \/ a1 == round a2)%Q /\
  (0 <= round b1 \/ b1 == round b2)%Q /\
  (0 <= round c1 \/ c1 == round c2)%Q.
Proof.
  intros _ _ Hsl Hpre Hin Inv s'.
  assert (E : s' = UpdateROI1 s i j) by reflexivity. clearbody s'.
  unfold UpdateROI1 in E. rewrite Hsl, fold_left_app in E.
  match type of E with
  | context [fold_left _ pre ?st] => rewrite (UpdateROI1_fold_outside i j pre st Hpre) in E
  end.
  cbn [fold_left] in E. unfold UpdateROI1_step in E. cbn [roi2 roi1 roi_state] in E.
  rewrite Hin in E. unfold corner1, corner2.
  destruct (WorldToImage (_targetImageOutput sl) (_x1 s, _y1 s, _z1 s)) as [[u0 v0] w0].
  match type of E with
  | context [WorldToImage (_targetImage s) (ImageToWorld (_targetImageOutput sl) ?p)] =>
      destruct (WorldToImage (_targetImage s) (ImageToWorld (_targetImageOutput sl) p))
        as [[a b] c]
  end.
  destruct (WorldToImage (_targetImage s) (_x2 s, _y2 s, _z2 s)) as [[a2 b2] c2] eqn:C2.
  pose proof (Inv (clamp1 a a2, clamp1 b b2, clamp1 c c2)) as I.
  destruct (ImageToWorld (_targetImage s) (clamp1 a a2, clamp1 b b2, clamp1 c c2))
    as [[x1 y1] z1].
  cbn [roi_state] in E. subst s'. state_simpl. rewrite C2. split; [reflexivity|].
  destruct (WorldToImage (_targetImage s) (x1, y1, z1)) as [[a1 b1] c1].
  destruct I as (Ia & Ib & Ic).
  rewrite (round_comp _ _ Ia), (round_comp _ _ Ib), (round_comp _ _ Ic).
  repeat split; try (apply clamp1_ordered; rewrite round_round; reflexivity).
  - destruct (clamp1_bounded a a2) as [L | E];
      [left; exact L | right; rewrite Ia, E; reflexivity].
  - destruct (clamp1_bounded b b2) as [L | E];
      [left; exact L | right; rewrite Ib, E; reflexivity].
  - destruct (clamp1_bounded c c2) as [L | E];
      [left; exact L | right; rewrite Ic, E; reflexivity].
Qed.

Lemma set_corner1_twice (a b c a' b' c' : Q) (s : RView) :
  set_z1 c' (set_y1 b' (set_x1 a' (set_z1 c (set_y1 b (set_x1 a s))))) =
  set_z1 c' (set_y1 b' (set_x1 a' s)).
Proof. destruct_state s. vm_compute. reflexivity. Qed.

Lemma set_corner2_twice (a b c a' b' c' : Q) (s : RView) :
  set_z2 c' (set_y2 b' (set_x2 a' (set_z2 c (set_y2 b (set_x2 a s))))) =
  set_z2 c' (set_y2 b' (set_x2 a' s)).
Proof. destruct_state s. vm_compute. reflexivity. Qed.

(** The steps of the two loops write the corner they move and no other
    member. *)
Lemma UpdateROI2_form (i j : Z) (s : RView) : forall sls st,
  (roi_state st = s \/
   exists a b c, roi_state st = set_z2 c (set_y2 b (set_x2 a s))) ->
  roi_state (fold_left (UpdateROI2_step i j) sls st) = s \/
  exists a b c, roi_state (fold_left (UpdateROI2_step i j) sls st) =
                set_z2 c (set_y2 b (set_x2 a s)).
Proof.
  induction sls as [|sl rest IH]; intros st Hst; [exact Hst|].
  cbn [fold_left]. apply IH. unfold UpdateROI2_step.
  destruct (roi2 st) as [[x y] z].
  destruct (in_viewport (_viewer sl) x y); [|exact Hst].
  repeat match goal with
         | |- context [WorldToImage ?im ?p] => destruct (WorldToImage im p) as [[? ?] ?]
         | |- context [ImageToWorld ?im ?p] => destruct (ImageToWorld im p) as [[? ?] ?]
         end.
  cbn [roi_state]. right.
  destruct Hst as [-> | (a & b & c & ->)]; [eexists _, _, _; reflexivity|].
  eexists _, _, _. apply set_corner2_twice.
Qed.

Lemma UpdateROI1_form (i j : Z) (s : RView) : forall sls st,
  (roi_state st = s \/
   exists a b c, roi_state st = set_z1 c (set_y1 b (set_x1 a s))) ->
  roi_state (fold_left (UpdateROI1_step i j) sls st) = s \/
  exists a b c, roi_state (fold_left (UpdateROI1_step i j) sls st) =
                set_z1 c (set_y1 b (set_x1 a s)).
Proof.
  induction sls as [|sl rest IH]; intros st Hst; [exact Hst|].
  cbn [fold_left]. apply IH. unfold UpdateROI1_step.
  destruct (roi1 st) as [[x y] z].
  destruct (in_viewport (_viewer sl) x y); [|exact Hst].
  repeat match goal with
         | |- context [WorldToImage ?im ?p] => destruct (WorldToImage im p) as [[? ?] ?]
         | |- context [ImageToWorld ?im ?p] => destruct (ImageToWorld im p) as [[? ?] ?]
         end.
  cbn [roi_state]. right.
  destruct Hst as [-> | (a & b & c & ->)]; [eexists _, _, _; reflexivity|].
  eexists _, _, _. apply set_corner1_twice.
Qed.

Lemma ResetROI_corner1 (a b c : Q) (s : RView) :
  ResetROI (set_z1 c (set_y1 b (set_x1 a s))) = ResetROI s.
Proof. destruct_state s. vm_compute. reflexivity. Qed.

Lemma ResetROI_corner2 (a b c : Q) (s : RView) :
  ResetROI (set_z2 c (set_y2 b (set_x2 a s))) = ResetROI s.
Proof. destruct_state s. vm_compute. reflexivity. Qed.

(** X10: [ResetROI] puts the region of interest on the whole target volume
    whatever it was before.  When the target image maps voxels to the world
    and back, the first corner lies in voxel (0, 0, 0) and the second in the
    last voxel of the volume; and a [ResetROI] after a call of [UpdateROI1]
    or [UpdateROI2] gives the state that it gives without the call. *)
Theorem ResetROI_whole_volume (s : RView) (i j : Z) :
  inverse_maps (_targetImage s) ->
  voxel_of (corner1 (ResetROI s)) = (0, 0, 0)%Q /\
  voxel_of (corner2 (ResetROI s)) =
    (inject_Z (GetX (_targetImage s) - 1), inject_Z (GetY (_targetImage s) - 1),
     inject_Z (GetZ (_targetImage s) - 1)) /\
  ResetROI (UpdateROI1 s i j) = ResetROI s /\
  ResetROI (UpdateROI2 s i j) = ResetROI s.
Proof.
  intros Inv. split; [|split; [|split]].
  - pose proof (Inv (0, 0, 0)%Q) as I.
    unfold corner1, ResetROI.
    destruct (ImageToWorld (_targetImage s) (0, 0, 0)%Q) as [[x1 y1] z1].
    state_simpl.
    destruct (ImageToWorld (_targetImage s) _) as [[x2 y2] z2]. state_simpl.
    destruct (WorldToImage (_targetImage s) (x1, y1, z1)) as [[a b] c].
    destruct I as (Ia & Ib & Ic). unfold voxel_of.
    rewrite (round_comp _ _ Ia), (round_comp _ _ Ib), (round_comp _ _ Ic).
    reflexivity.
  - pose proof (Inv (inject_Z (GetX (_targetImage s) - 1),
                     inject_Z (GetY (_targetImage s) - 1),
                     inject_Z (GetZ (_targetImage s) - 1))) as I.
    unfold corner2, ResetROI.
    destruct (ImageToWorld (_targetImage s) (0, 0, 0)%Q) as [[x1 y1] z1].
    state_simpl.
    destruct (ImageToWorld (_targetImage s) _) as [[x2 y2] z2]. state_simpl.
    destruct (WorldToImage (_targetImage s) (x2, y2, z2)) as [[a b] c].
    destruct I as (Ia & Ib & Ic). unfold voxel_of.
    rewrite (round_comp _ _ Ia), (round_comp _ _ Ib), (round_comp _ _ Ic).
    rewrite !round_inject_Z. reflexivity.
  - unfold UpdateROI1.
    destruct (UpdateROI1_form i j s (_slots s)
                (mkRoiLoop (ratio i (_screenX s), ratio (_screenY s - j) (_screenY s), 0%Q)
                   (_x2 s, _y2 s, _z2 s) s)) as [-> | (a & b & c & ->)];
      [left; reflexivity | reflexivity | apply ResetROI_corner1].
  - unfold UpdateROI2.
    destruct (UpdateROI2_form i j s (_slots s)
                (mkRoiLoop (_x1 s, _y1 s, _z1 s)
                   (ratio i (_screenX s), ratio (_screenY s - j) (_screenY s), 0%Q) s))
      as [-> | (a & b & c & ->)];
      [left; reflexivity | reflexivity | apply ResetROI_corner2].
Qed.

(** The maps of an image on a grid with spacings other than 0. *)
Lemma grid_image_inverse (n : Z * Z * Z) (o d : Point) (vox : list Z) :
  (let '(dx, dy, dz) := d in ~ dx == 0 /\ ~ dy == 0 /\ ~ dz == 0)%Q ->
  inverse_maps (grid_image n o d vox).
Proof.
  destruct n as [[nx ny] nz], o as [[ox oy] oz], d as [[dx dy] dz].
  intros (Hx & Hy & Hz) [[x y] z].
  unfold grid_image. cbn [WorldToImage ImageToWorld].
  unfold Peq, world_to_grid, grid_to_world.
  rewrite !Qred_correct. repeat split; field; assumption.
Qed.

Lemma demo_volume_inverse : inverse_maps demo_volume.
Proof. apply grid_image_inverse. repeat split; discriminate. Qed.

Lemma UpdateROI_outside_witness :
  let s := two_view_state in
  outside_all (_slots s) (ratio 50 (_screenX s)) (ratio (_screenY s - 0) (_screenY s)) = true /\
  UpdateROI1 s 50 0 = s /\ UpdateROI2 s 50 0 = s.
Proof.
  intros s.
  assert (H1 : outside_all (_slots s) (ratio 50 (_screenX s))
                 (ratio (_screenY s - 0) (_screenY s)) = true)
    by (vm_compute; reflexivity).
  split; [exact H1|]. apply (UpdateROI_outside s 50 0 H1).
Defined.

Lemma UpdateROI2_last_viewer_witness :
  let s := one_view_state in
  let sl := nth 0 (_slots s) (pixel_slot false 0 0 0 0) in
  _screenX s <> 0 /\ _screenY s <> 0 /\
  _slots s = ([] ++ [sl])%list /\
  outside_all [] (ratio 100 (_screenX s)) (ratio (_screenY s - 50) (_screenY s)) = true /\
  in_viewport (_viewer sl) (ratio 100 (_screenX s))
    (ratio (_screenY s - 50) (_screenY s)) = true /\
  inverse_maps (_targetImage s) /\
  corner1 (UpdateROI2 s 100 50) = corner1 s.
Proof.
  intros s sl.
  assert (Sx : _screenX s <> 0) by (vm_compute; discriminate).
  assert (Sy : _screenY s <> 0) by (vm_compute; discriminate).
  assert (H1 : _slots s = ([] ++ [sl])%list) by reflexivity.
  assert (H2 : outside_all [] (ratio 100 (_screenX s))
                 (ratio (_screenY s - 50) (_screenY s)) = true) by reflexivity.
  assert (H3 : in_viewport (_viewer sl) (ratio 100 (_screenX s))
                 (ratio (_screenY s - 50) (_screenY s)) = true)
    by (vm_compute; reflexivity).
  assert (H4 : inverse_maps (_targetImage s)) by exact demo_volume_inverse.
  split; [exact Sx|]. split; [exact Sy|].
  split; [exact H1|]. split; [exact H2|]. split; [exact H3|]. split; [exact H4|].
  pose proof (UpdateROI2_last_viewer s 100 50 [] sl Sx Sy H1 H2 H3 H4) as P.
  cbv zeta in P. destruct P as [P _]. exact P.
Defined.

Lemma UpdateROI1_last_viewer_witness :
  let s := one_view_state in
  let sl := nth 0 (_slots s) (pixel_slot false 0 0 0 0) in
  _screenX s <> 0 /\ _screenY s <> 0 /\
  _slots s = ([] ++ [sl])%list /\
  outside_all [] (ratio 100 (_screenX s)) (ratio (_screenY s - 50) (_screenY s)) = true /\
  in_viewport (_viewer sl) (ratio 100 (_screenX s))
    (ratio (_screenY s - 50) (_screenY s)) = true /\
  inverse_maps (_targetImage s) /\
  corner2 (UpdateROI1 s 100 50) = corner2 s.
Proof.
  intros s sl.
  assert (Sx : _screenX s <> 0) by (vm_compute; discriminate).
  assert (Sy : _screenY s <> 0) by (vm_compute; discriminate).
  assert (H1 : _slots s = ([] ++ [sl])%list) by reflexivity.
  assert (H2 : outside_all [] (ratio 100 (_screenX s))
                 (ratio (_screenY s - 50) (_screenY s)) = true) by reflexivity.
  assert (H3 : in_viewport (_viewer sl) (ratio 100 (_screenX s))
                 (ratio (_screenY s - 50) (_screenY s)) = true)
    by (vm_compute; reflexivity).
  assert (H4 : inverse_maps (_targetImage s)) by exact demo_volume_inverse.
  split; [exact Sx|]. split; [exact Sy|].
  split; [exact H1|]. split; [exact H2|]. split; [exact H3|]. split; [exact H4|].
  pose proof (UpdateROI1_last_viewer s 100 50 [] sl Sx Sy H1 H2 H3 H4) as P.
  cbv zeta in P. destruct P as [P _]. exact P.
Defined.

Lemma ResetROI_whole_volume_witness :
  let s := two_view_state in
  inverse_maps (_targetImage s) /\
  voxel_of (corner1 (ResetROI s)) = (0, 0, 0)%Q /\
  voxel_of (corner2 (ResetROI s)) = (9, 9, 9)%Q /\
  ResetROI (UpdateROI1 s 39 61) = ResetROI s /\
  ResetROI (UpdateROI2 s 39 61) = ResetROI s.
Proof.
  intros s.
  assert (H1 : inverse_maps (_targetImage s)) by exact demo_volume_inverse.
  split; [exact H1|].
  exact (ResetROI_whole_volume s 39 61 H1).
Defined.

(* ===================================================================== *)
(** * More on RView::Initialize and RView::Configure *)
(* ===================================================================== *)

Lemma toggle_length (sv : list bool) (m : ViewerMode) :
  List.length sv = 4%nat -> List.length (toggle sv m) = 4%nat.
Proof.
  destruct sv as [|a [|b [|c [|d [|e sv]]]]]; try discriminate.
  intros _. destruct m; reflexivity.
Qed.

Lemma toggle_nth (sv : list bool) (m m' : ViewerMode) :
  List.length sv = 4%nat ->
  nth (mode_index m') (toggle sv m) false =
  xorb (ViewerMode_eqb m m') (nth (mode_index m') sv false).
Proof.
  destruct sv as [|a [|b [|c [|d [|e sv]]]]]; try discriminate.
  intros _. destruct m, m'; cbn; try reflexivity;
    repeat match goal with |- context [negb ?x] => destruct x end; reflexivity.
Qed.

Lemma ViewerMode_eqb_sym (m m' : ViewerMode) : ViewerMode_eqb m m' = ViewerMode_eqb m' m.
Proof. destruct m, m'; reflexivity. Qed.

Lemma ViewerMode_eqb_eq (m m' : ViewerMode) : ViewerMode_eqb m m' = true <-> m = m'.
Proof. destruct m, m'; cbn; split; intros E; try reflexivity; discriminate. Qed.

Section LayoutMore.
Context `{ViewerApi} `{MirtkApi}.

(** The viewers the loop of [Configure] creates, and the side of each: the
    entry of the array [source_viewer] for its plane, flipped once for
    every earlier viewer of the plane. *)
Lemma configure_slots_viewers (s : RView) : forall config sv,
  map _viewer (configure_slots s sv config) = map (viewer_of s) config.
Proof.
  induction config as [|c rest IH]; intros sv; [reflexivity|].
  cbn [configure_slots map _viewer]. rewrite IH. reflexivity.
Qed.

Lemma configure_slots_sides (s : RView) : forall config sv n c,
  List.length sv = 4%nat ->
  nth_error config n = Some c ->
  nth_error (map _isSourceViewer (configure_slots s sv config)) n =
  Some (xorb (Nat.odd (earlier_viewers (mode c) n config))
             (nth (mode_index (mode c)) sv false)).
Proof.
  induction config as [|c0 rest IH]; intros sv n c Hl Hn.
  - destruct n; discriminate Hn.
  - destruct n as [|n].
    + cbn in Hn. inversion Hn; subst. reflexivity.
    + cbn [nth_error] in Hn. cbn [configure_slots map nth_error].
      rewrite (IH _ n c (toggle_length sv (mode c0) Hl) Hn).
      rewrite toggle_nth by exact Hl. f_equal.
      unfold earlier_viewers. cbn [firstn filter].
      destruct (ViewerMode_eqb (mode c0) (mode c)); cbn [List.length xorb].
      * rewrite Nat.odd_succ, <- Nat.negb_odd.
        destruct (Nat.odd _), (nth _ sv false); reflexivity.
      * destruct (Nat.odd _), (nth _ sv false); reflexivity.
Qed.

(** [Initialize] keeps the viewers, their sides and their drawables and
    gives the four rasters of a viewer the attributes of the viewer. *)
Lemma initialize_slots_spec (s : RView) : forall sls sls',
  initialize_slots s sls = Ok sls' ->
  map _viewer sls' = map _viewer sls /\
  map _isSourceViewer sls' = map _isSourceViewer sls /\
  map _drawable sls' = map _drawable sls /\
  Forall (fun sl => exists attr,
            viewer_attributes s (_viewer sl) = Ok attr /\
            _targetImageOutput sl = Image_Initialize attr /\
            _sourceImageOutput sl = Image_Initialize attr /\
            _segmentationImageOutput sl = Image_Initialize attr /\
            _selectionImageOutput sl = Image_Initialize attr) sls'.
Proof.
  induction sls as [|sl rest IH]; intros sls' E.
  - cbn in E. inversion E; subst. repeat split; constructor.
  - cbn [initialize_slots] in E.
    destruct (viewer_attributes s (_viewer sl)) as [attr| | |] eqn:A; try discriminate E.
    cbn [bind] in E.
    destruct (initialize_slots s rest) as [rest'| | |]; try discriminate E.
    cbn [bind] in E. inversion E; subst; clear E.
    destruct (IH rest' eq_refl) as (Iv & Is & Id & If).
    cbn [map _viewer _isSourceViewer _drawable]. rewrite Iv, Is, Id.
    repeat split. constructor; [|exact If].
    exists attr. cbn. repeat split. exact A.
Qed.

Lemma initialize_slots_Exit (s : RView) : forall sls,
  Exists (fun sl => GetViewerMode (_viewer sl) = Viewer_None) sls ->
  initialize_slots s sls = Exit.
Proof.
  induction sls as [|sl rest IH]; intros Hx; [inversion Hx|].
  cbn [initialize_slots]. unfold viewer_attributes.
  destruct (GetViewerMode (_viewer sl)) eqn:M; cbn [bind]; try reflexivity;
    (inversion Hx as [? ? Hsl | ? ? Hrest]; subst; [congruence|]);
    rewrite (IH Hrest); reflexivity.
Qed.

Lemma configure_slots_Exists (s : RView) : forall config sv,
  Exists (fun c => GetViewerMode (viewer_of s c) = Viewer_None) config ->
  Exists (fun sl => GetViewerMode (_viewer sl) = Viewer_None) (configure_slots s sv config).
Proof.
  induction config as [|c rest IH]; intros sv X; [inversion X|].
  cbn [configure_slots]. inversion X as [? ? Hc | ? ? Hr]; subst.
  - left. exact Hc.
  - right. apply IH. exact Hr.
Qed.

(** The search of [Configure] for the viewer of the contour ends on the
    last viewer of the plane. *)
Lemma find_mode_viewer_none (m : ViewerMode) : forall sls i found,
  no_viewer_of m sls = true -> find_mode_viewer m i sls found = found.
Proof.
  induction sls as [|sl rest IH]; intros i found Hn; [reflexivity|].
  cbn [no_viewer_of forallb] in Hn. apply andb_true_iff in Hn. destruct Hn as [Hsl Hrest].
  apply negb_true_iff in Hsl. cbn [find_mode_viewer]. rewrite Hsl. apply IH. exact Hrest.
Qed.

Lemma find_mode_viewer_last (m : ViewerMode) (sl : Slot) (post : list Slot) :
  ViewerMode_eqb (GetViewerMode (_viewer sl)) m = true ->
  no_viewer_of m post = true ->
  forall pre i found,
  find_mode_viewer m i (pre ++ sl :: post) found = i + Z.of_nat (List.length pre).
Proof.
  intros Hsl Hpost. induction pre as [|a pre IH]; intros i found.
  - cbn [app find_mode_viewer List.length]. rewrite Hsl.
    rewrite find_mode_viewer_none by exact Hpost. lia.
  - cbn [app find_mode_viewer List.length]. rewrite IH. lia.
Qed.

Lemma last_viewer_of (m : ViewerMode) : forall sls,
  no_viewer_of m sls = true \/
  exists pre sl post,
    sls = (pre ++ sl :: post)%list /\
    ViewerMode_eqb (GetViewerMode (_viewer sl)) m = true /\
    no_viewer_of m post = true.
Proof.
  induction sls as [|sl rest IH]; [left; reflexivity|].
  destruct IH as [Hn | (pre & sl' & post & -> & Hsl & Hpost)].
  - destruct (ViewerMode_eqb (GetViewerMode (_viewer sl)) m) eqn:E.
    + right. exists [], sl, rest. repeat split; assumption.
    + left. cbn [no_viewer_of forallb]. rewrite E. exact Hn.
  - right. exists (sl :: pre), sl', post. repeat split; assumption.
Qed.

Lemma allocate_drawable_viewers (sls : list Slot) :
  map _viewer (map allocate_drawable sls) = map _viewer sls /\
  map _isSourceViewer (map allocate_drawable sls) = map _isSourceViewer sls.
Proof. rewrite !map_map. split; apply map_ext; intros sl; reflexivity. Qed.

Lemma no_viewer_of_viewers (m : ViewerMode) (sls sls' : list Slot) :
  map _viewer sls = map _viewer sls' -> no_viewer_of m sls = no_viewer_of m sls'.
Proof.
  revert sls'. induction sls as [|a sls IH]; intros [|b sls'] E; try discriminate E.
  - reflexivity.
  - cbn [map] in E. inversion E as [[Ea Es]]. cbn [no_viewer_of forallb].
    rewrite Ea. f_equal. apply IH. exact Es.
Qed.

Lemma viewer_attributes_slots (l : list Slot) (s : RView) (v : Viewer) :
  viewer_attributes (set_slots l s) v = viewer_attributes s v.
Proof. unfold viewer_attributes. state_simpl. reflexivity. Qed.

(** What [Configure] leaves behind, step by step. *)
Lemma Configure_inv (config : list RViewConfig) (s s' : RView) :
  Configure config s = Ok s' ->
  exists sls,
    initialize_slots (set_slots (configure_slots s [false; false; false; false] config) s)
      (configure_slots s [false; false; false; false] config) = Ok sls /\
    _slots s' = map allocate_drawable sls /\
    _contourViewer s' =
      (if _contourViewer s =? -1 then _contourViewer s
       else find_mode_viewer (_contourViewerMode s) 0 sls (-1)) /\
    _contourViewerMode s' = _contourViewerMode s /\
    _voxelContour s' = _voxelContour s /\
    (_targetUpdate s', _sourceUpdate s', _segmentationUpdate s', _selectionUpdate s') =
    (true, true, true, true).
Proof.
  unfold Configure, Initialize.
  change (_slots (set_slots (configure_slots s [false; false; false; false] config) s))
    with (configure_slots s [false; false; false; false] config).
  destruct (initialize_slots _ _) as [sls| | |]; cbn [bind]; try discriminate.
  intros E. inversion E; subst; clear E. exists sls. split; [reflexivity|].
  unfold require_update. state_simpl.
  destruct (_contourViewer s =? -1); state_simpl; repeat split; reflexivity.
Qed.

(** X11: the viewers of a layout.  When [Configure] returns there is one
    viewer for each entry of the layout, in order, with the viewport and
    the plane of the entry on the current screen; a viewer is a source
    viewer exactly when an odd number of earlier viewers show its plane;
    the four rasters of a viewer have the attributes [Initialize] gives the
    viewer, its drawable has one default pixel for every voxel of the
    target raster, and the four dirty flags are set. *)
Theorem Configure_viewers (config : list RViewConfig) (s s' : RView) :
  Configure config s = Ok s' ->
  map _viewer (_slots s') = map (viewer_of s) config /\
  (forall n c, nth_error config n = Some c ->
     nth_error (map _isSourceViewer (_slots s')) n =
     Some (Nat.odd (earlier_viewers (mode c) n config))) /\
  Forall (fun sl => exists attr,
            viewer_attributes s (_viewer sl) = Ok attr /\
            _targetImageOutput sl = Image_Initialize attr /\
            _sourceImageOutput sl = Image_Initialize attr /\
            _segmentationImageOutput sl = Image_Initialize attr /\
            _selectionImageOutput sl = Image_Initialize attr /\
            _drawable sl =
              repeat Color_default (List.length (voxels (Image_Initialize attr))))
    (_slots s') /\
  (_targetUpdate s', _sourceUpdate s', _segmentationUpdate s', _selectionUpdate s') =
  (true, true, true, true).
Proof.
  intros E. destruct (Configure_inv config s s' E) as (sls & I & Es & _ & _ & _ & Ef).
  destruct (initialize_slots_spec _ _ _ I) as (Iv & Is & _ & If).
  destruct (allocate_drawable_viewers sls) as (Av & As').
  rewrite Es, Av, As', Iv, Is, configure_slots_viewers.
  split; [reflexivity|]. split; [|split; [|exact Ef]].
  - intros n c Hn.
    rewrite (configure_slots_sides s config [false; false; false; false] n c eq_refl Hn).
    destruct (mode c); cbn; rewrite xorb_false_r; reflexivity.
  - apply Forall_forall. intros sl Hsl. apply in_map_iff in Hsl.
    destruct Hsl as (sl0 & <- & Hin).
    rewrite Forall_forall in If. destruct (If sl0 Hin) as (attr & A & E1 & E2 & E3 & E4).
    rewrite viewer_attributes_slots in A.
    exists attr. unfold allocate_drawable.
    cbn [_viewer _targetImageOutput _sourceImageOutput _segmentationImageOutput
         _selectionImageOutput _drawable].
    rewrite E1. repeat split; assumption.
Qed.

(** The viewer of the contour after [Configure]: the search of the last
    viewer that shows the plane of the contour. *)
Lemma Configure_contour_search (config : list RViewConfig) (s s' : RView) :
  Configure config s = Ok s' ->
  _voxelContour s' = _voxelContour s /\
  _contourViewerMode s' = _contourViewerMode s /\
  (_contourViewer s = -1 -> _contourViewer s' = -1) /\
  (_contourViewer s <> -1 ->
   (no_viewer_of (_contourViewerMode s) (_slots s') = true /\ _contourViewer s' = -1) \/
   (exists pre sl post,
      _slots s' = (pre ++ sl :: post)%list /\
      GetViewerMode (_viewer sl) = _contourViewerMode s /\
      no_viewer_of (_contourViewerMode s) post = true /\
      _contourViewer s' = Z.of_nat (List.length pre))).
Proof.
  intros E. destruct (Configure_inv config s s' E) as (sls & I & Es & Ec & Em & Ev & _).
  split; [exact Ev|]. split; [exact Em|]. split.
  - intros C. rewrite Ec, C. reflexivity.
  - intros C. apply Z.eqb_neq in C. rewrite C in Ec.
    assert (V : map _viewer (_slots s') = map _viewer sls)
      by (rewrite Es; apply allocate_drawable_viewers).
    destruct (last_viewer_of (_contourViewerMode s) (_slots s'))
      as [Hn | (pre & sl & post & D & Hsl & Hpost)].
    + left. split; [exact Hn|]. rewrite Ec. apply find_mode_viewer_none.
      rewrite <- (no_viewer_of_viewers _ _ _ V). exact Hn.
    + right. exists pre, sl, post. split; [exact D|].
      split; [apply ViewerMode_eqb_eq; exact Hsl|]. split; [exact Hpost|].
      rewrite Ec. rewrite D in Es.
      (* the same decomposition of the rasters before the drawables *)
      assert (F : forall l i f, map _viewer l = map _viewer (pre ++ sl :: post) ->
                  find_mode_viewer (_contourViewerMode s) i l f = i + Z.of_nat (List.length pre)).
      { clear -Hsl Hpost. induction pre as [|a pre IH]; intros l i f Hl.
        - destruct l as [|b l]; [discriminate Hl|]. cbn [app map] in Hl.
          inversion Hl as [[Hb Hr]]. cbn [find_mode_viewer]. rewrite Hb, Hsl.
          rewrite find_mode_viewer_none; [cbn; lia|].
          rewrite (no_viewer_of_viewers _ _ _ Hr). exact Hpost.
        - destruct l as [|b l]; [discriminate Hl|]. cbn [app map] in Hl.
          inversion Hl as [[Hb Hr]]. cbn [find_mode_viewer List.length].
          rewrite (IH l _ _ Hr). lia. }
      rewrite (F sls 0 (-1)); [lia|]. rewrite <- V, D. reflexivity.
Qed.

(** X12: the contour across a change of layout.  [Configure] keeps the
    contour and its plane.  If [_contourViewer] was -1 it stays -1;
    otherwise it becomes the index of the last viewer of the new layout
    that shows the plane of the contour, and -1 if no viewer does. *)
Theorem Configure_contour_viewer (config : list RViewConfig) (s s' : RView) :
  Configure config s = Ok s' ->
  _voxelContour s' = _voxelContour s /\
  _contourViewerMode s' = _contourViewerMode s /\
  (_contourViewer s = -1 -> _contourViewer s' = -1) /\
  (_contourViewer s <> -1 ->
   (no_viewer_of (_contourViewerMode s) (_slots s') = true /\ _contourViewer s' = -1) \/
   (exists pre sl post,
      _slots s' = (pre ++ sl :: post)%list /\
      GetViewerMode (_viewer sl) = _contourViewerMode s /\
      no_viewer_of (_contourViewerMode s) post = true /\
      _contourViewer s' = Z.of_nat (List.length pre))).
Proof. exact (Configure_contour_search config s s'). Qed.

(** X13: a layout without the plane of an open contour.  When the contour
    has a point and [Configure] returns with no viewer on the plane of the
    contour, the next call of [AddContour], [FillArea] or
    [RegionGrowContour] reads the array of viewers at index -1. *)
Theorem contour_after_Configure
    (config : list RViewConfig) (s s' : RView) (i j : Z) (m : ContourMode) :
  Configure config s = Ok s' ->
  0 < Size (_voxelContour s) ->
  _contourViewer s <> -1 ->
  no_viewer_of (_contourViewerMode s) (_slots s') = true ->
  AddContour s' i j m = Undefined /\ FillArea s' i j = Undefined /\
  RegionGrowContour s' i j = Undefined.
Proof.
  intros E Hsz Hc Hn.
  destruct (Configure_contour_search config s s' E) as (Ev & _ & _ & Hlast).
  assert (C : _contourViewer s' = -1).
  { destruct (Hlast Hc) as [[_ C] | (pre & sl & post & D & Hm & _ & _)]; [exact C|].
    exfalso. rewrite D in Hn. unfold no_viewer_of in Hn. rewrite forallb_app in Hn.
    apply andb_true_iff in Hn. destruct Hn as [_ Hn]. cbn [forallb] in Hn.
    rewrite Hm in Hn. destruct (_contourViewerMode s); discriminate Hn. }
  assert (L : locate_contour_point s' i j = Undefined).
  { unfold locate_contour_point. rewrite Ev.
    replace (Size (_voxelContour s) =? 0) with false by (symmetry; apply Z.eqb_neq; lia).
    rewrite C. reflexivity. }
  unfold AddContour, FillArea, RegionGrowContour. rewrite L. repeat split; reflexivity.
Qed.

(** X14: the outcome of [Configure].  It returns when every viewer of the
    layout has one of the three planes; a viewer with no plane ends the
    process in [Initialize]. *)
Theorem Configure_outcome (config : list RViewConfig) (s : RView) :
  (Forall (fun c => GetViewerMode (viewer_of s c) <> Viewer_None) config ->
   exists s', Configure config s = Ok s') /\
  (Exists (fun c => GetViewerMode (viewer_of s c) = Viewer_None) config ->
   Configure config s = Exit).
Proof.
  split.
  - intros V. unfold Configure, Initialize.
    destruct (initialize_slots_ok
                (set_slots (configure_slots s [false; false; false; false] config) s)
                (configure_slots s [false; false; false; false] config)) as (sls & E).
    + apply configure_slots_valid. exact V.
    + change (_slots (set_slots (configure_slots s [false; false; false; false] config) s))
        with (configure_slots s [false; false; false; false] config).
      rewrite E. cbn [bind]. eexists. reflexivity.
  - intros X. unfold Configure, Initialize.
    change (_slots (set_slots (configure_slots s [false; false; false; false] config) s))
      with (configure_slots s [false; false; false; false] config).
    rewrite initialize_slots_Exit; [reflexivity|].
    apply configure_slots_Exists. exact X.
Qed.

End LayoutMore.

Lemma Configure_viewers_witness :
  let s := demo_base in
  let config := preset _View_AB_XY_v in
  let s' := returned (Configure config s) s in
  Configure config s = Ok s' /\
  map _viewer (_slots s') = map (viewer_of s) config /\
  nth_error (map _isSourceViewer (_slots s')) 1 = Some true.
Proof.
  intros s config s'.
  assert (HR : Configure config s = Ok s') by (apply returned_Ok; vm_compute; reflexivity).
  clearbody s'. split; [exact HR|].
  destruct (Configure_viewers config s s' HR) as (Ev & Es & _).
  split; [exact Ev|].
  exact (Es 1%nat (mkRViewConfig half 0 1 1 Viewer_XY) eq_refl).
Defined.

Lemma Configure_contour_viewer_witness :
  let s := set_contourViewer 0 demo_base in
  let config := preset _View_XY_XZ_v in
  let s' := returned (Configure config s) s in
  Configure config s = Ok s' /\
  _voxelContour s' = _voxelContour s /\
  _contourViewerMode s' = _contourViewerMode s.
Proof.
  intros s config s'.
  assert (HR : Configure config s = Ok s') by (apply returned_Ok; vm_compute; reflexivity).
  clearbody s'. split; [exact HR|].
  destruct (Configure_contour_viewer config s s' HR) as (Ev & Em & _).
  split; [exact Ev | exact Em].
Defined.

Lemma contour_after_Configure_witness :
  let s := open_contour_state in
  let config := preset _View_XZ in
  let s' := returned (Configure config s) s in
  Configure config s = Ok s' /\
  0 < Size (_voxelContour s) /\
  _contourViewer s <> -1 /\
  no_viewer_of (_contourViewerMode s) (_slots s') = true /\
  AddContour s' 5 5 NewPoint = Undefined /\ FillArea s' 5 5 = Undefined /\
  RegionGrowContour s' 5 5 = Undefined.
Proof.
  intros s config s'.
  assert (HR : Configure config s = Ok s') by (apply returned_Ok; vm_compute; reflexivity).
  assert (H2 : 0 < Size (_voxelContour s)) by reflexivity.
  assert (H3 : _contourViewer s <> -1) by discriminate.
  assert (H4 : no_viewer_of (_contourViewerMode s) (_slots s') = true)
    by (vm_compute; reflexivity).
  clearbody s'.
  split; [exact HR|]. split; [exact H2|]. split; [exact H3|]. split; [exact H4|].
  exact (contour_after_Configure config s s' 5 5 NewPoint HR H2 H3 H4).
Defined.

(* ===================================================================== *)
(** * More on RView::Reset *)
(* ===================================================================== *)

Section ResetMore.
Context `{ViewerApi} `{MirtkApi}.

Lemma Initialize_inv (s s' : RView) :
  Initialize s = Ok s' ->
  exists sls, initialize_slots s (_slots s) = Ok sls /\
              s' = require_update (set_slots sls s).
Proof.
  unfold Initialize. destruct (initialize_slots s (_slots s)) as [sls| | |];
    cbn [bind]; try discriminate.
  intros E. inversion E. exists sls. split; reflexivity.
Qed.

Lemma require_update_twice (s : RView) :
  require_update (require_update s) = require_update s.
Proof. destruct_state s. vm_compute. reflexivity. Qed.

Lemma Reset_inv (s s' : RView) :
  Reset s = Ok s' ->
  exists sls,
    initialize_slots (Reset_origin (Reset_flips (Reset_axes s)))
      (_slots (Reset_origin (Reset_flips (Reset_axes s)))) = Ok sls /\
    s' = require_update (set_slots sls (Reset_origin (Reset_flips (Reset_axes s)))).
Proof.
  unfold Reset.
  destruct (Initialize (Reset_origin (Reset_flips (Reset_axes s)))) as [s1| | |] eqn:E;
    cbn [bind]; try discriminate.
  intros E'. inversion E'; subst; clear E'.
  destruct (Initialize_inv _ _ E) as (sls & I & ->).
  exists sls. split; [exact I | apply require_update_twice].
Qed.

Lemma Reset_flips_on_x s : _FlipX s = true -> _xaxis (Reset_flips s) = vflip (_xaxis s).
Proof. intros E. by_flags s E. Qed.

Lemma Reset_flips_on_y s : _FlipY s = true -> _yaxis (Reset_flips s) = vflip (_yaxis s).
Proof. intros E. by_flags s E. Qed.

Lemma Reset_flips_on_z s : _FlipZ s = true -> _zaxis (Reset_flips s) = vflip (_zaxis s).
Proof. intros E. by_flags s E. Qed.

(** X15: a flip on an axis that [Reset] cannot resolve.  Outside the native
    mode, a display axis that none of the three orientation codes resolves
    to is not set from the image; when its flip is requested [Reset]
    negates the vector it finds in the member, whatever it is. *)
Theorem Reset_flips_unresolved_axis (s s' : RView) (xa ya za : Vec3)
    (i j k : OrientationCode) :
  Reset s = Ok s' ->
  GetOrientation (_targetImage s) = (xa, ya, za) ->
  Orientation (_targetImage s) = (i, j, k) ->
  _DisplayMode s <> Native ->
  (left_right i || left_right j || left_right k = false -> _FlipX s = true ->
   _xaxis s' = vflip (_xaxis s)) /\
  (front_back i || front_back j || front_back k = false -> _FlipY s = true ->
   _yaxis s' = vflip (_yaxis s)) /\
  (up_down i || up_down j || up_down k = false -> _FlipZ s = true ->
   _zaxis s' = vflip (_zaxis s)).
Proof.
  intros HR Ho Hc Hm.
  destruct (Reset_axes_of s s' HR) as (Ex & Ey & Ez & _).
  destruct (Reset_axes_unset s xa ya za i j k Ho Hc Hm) as (Ux & Uy & Uz).
  destruct (Reset_axes_flags s) as (Fx & Fy & Fz).
  rewrite Ex, Ey, Ez. repeat split; intros U F.
  - rewrite Reset_flips_on_x by (rewrite Fx; exact F). rewrite (Ux U). reflexivity.
  - rewrite Reset_flips_on_y by (rewrite Fy; exact F). rewrite (Uy U). reflexivity.
  - rewrite Reset_flips_on_z by (rewrite Fz; exact F). rewrite (Uz U). reflexivity.
Qed.

Lemma Reset_axes_image s : _targetImage (Reset_axes s) = _targetImage s.
Proof.
  unfold Reset_axes.
  destruct (GetOrientation _) as [[xa ya] za], (Orientation _) as [[i j] k].
  destruct (_DisplayMode s); [destruct i, j, k; reflexivity .. | reflexivity].
Qed.

Lemma Reset_flips_image s : _targetImage (Reset_flips s) = _targetImage s.
Proof. pose proof (eq_refl (_targetImage s)) as E. by_flags s E. Qed.

(** X16: [Reset] puts the display origin on a voxel.  When [Reset] returns
    and the target image maps voxels to the world and back, the display
    origin lies, in voxel coordinates, on the voxel nearest to the origin of
    the image; the four dirty flags are set. *)
Theorem Reset_origin_on_voxel (s s' : RView) :
  Reset s = Ok s' ->
  inverse_maps (_targetImage s) ->
  Peq (WorldToImage (_targetImage s) (origin s'))
      (voxel_of (WorldToImage (_targetImage s) (GetOrigin (_targetImage s)))) /\
  (_targetUpdate s', _sourceUpdate s', _segmentationUpdate s', _selectionUpdate s') =
  (true, true, true, true).
Proof.
  intros HR Inv. destruct (Reset_inv s s' HR) as (sls & _ & ->).
  split; [|reflexivity].
  unfold origin, require_update. state_simpl.
  unfold Reset_origin. rewrite Reset_flips_image, Reset_axes_image.
  destruct (WorldToImage (_targetImage s) (GetOrigin (_targetImage s))) as [[x y] z].
  pose proof (Inv (round x, round y, round z)) as I.
  destruct (ImageToWorld (_targetImage s) (round x, round y, round z)) as [[x' y'] z'].
  state_simpl. exact I.
Qed.

(** In the cases of [resolved], [Reset] sets all three display axes from
    the image. *)
Lemma Reset_axes_resolved (s x : RView) :
  resolved s = true ->
  _targetImage x = _targetImage s -> _DisplayMode x = _DisplayMode s ->
  Reset_axes x =
  set_zaxis (_zaxis (Reset_axes s))
    (set_yaxis (_yaxis (Reset_axes s)) (set_xaxis (_xaxis (Reset_axes s)) x)).
Proof.
  intros R Ex Ed. unfold resolved in R. unfold Reset_axes. rewrite Ex, Ed.
  destruct (GetOrientation (_targetImage s)) as [[xa ya] za].
  destruct (Orientation (_targetImage s)) as [[i j] k].
  destruct (_DisplayMode s);
    [ destruct i, j, k; try discriminate R; cbn [neurological_axis]; state_simpl; reflexivity
    | destruct i, j, k; try discriminate R; cbn [radiological_axis]; state_simpl; reflexivity
    | state_simpl; reflexivity ].
Qed.

Lemma Reset_flips_axes (x : RView) (a b c : Vec3) :
  Reset_flips (set_zaxis c (set_yaxis b (set_xaxis a x))) =
  set_zaxis (if _FlipZ x then vflip c else c)
    (set_yaxis (if _FlipY x then vflip b else b)
       (set_xaxis (if _FlipX x then vflip a else a) x)).
Proof.
  destruct_state x. unfold Reset_flips. state_simpl.
  repeat match goal with
         | |- context [if ?f then _ else _] => is_var f; destruct f; state_simpl
         end;
    reflexivity.
Qed.

Lemma Reset_origin_form (y : RView) :
  exists o : Point,
    (forall x, _targetImage x = _targetImage y ->
       Reset_origin x =
       set_origin_z (snd o) (set_origin_y (snd (fst o)) (set_origin_x (fst (fst o)) x))).
Proof.
  unfold Reset_origin.
  destruct (WorldToImage (_targetImage y) (GetOrigin (_targetImage y))) as [[u v] w] eqn:W.
  destruct (ImageToWorld (_targetImage y) (round u, round v, round w)) as [[u' v'] w'] eqn:I.
  exists (u', v', w'). intros x Ex. rewrite Ex, W, I. reflexivity.
Qed.

(** The three steps of [Reset] before [Initialize], in the cases of
    [resolved]: six members are set, to values that the image, the display
    mode and the flips determine. *)
Lemma Reset_steps_resolved (s : RView) :
  resolved s = true ->
  exists (a b c : Vec3) (o : Point),
    forall x,
      _targetImage x = _targetImage s -> _DisplayMode x = _DisplayMode s ->
      _FlipX x = _FlipX s -> _FlipY x = _FlipY s -> _FlipZ x = _FlipZ s ->
      Reset_origin (Reset_flips (Reset_axes x)) =
      set_origin_z (snd o) (set_origin_y (snd (fst o)) (set_origin_x (fst (fst o))
        (set_zaxis c (set_yaxis b (set_xaxis a x))))).
Proof.
  intros R. destruct (Reset_origin_form s) as (o & Ho).
  exists (if _FlipX s then vflip (_xaxis (Reset_axes s)) else _xaxis (Reset_axes s)),
         (if _FlipY s then vflip (_yaxis (Reset_axes s)) else _yaxis (Reset_axes s)),
         (if _FlipZ s then vflip (_zaxis (Reset_axes s)) else _zaxis (Reset_axes s)), o.
  intros x Ei Ed Fx Fy Fz.
  rewrite (Reset_axes_resolved s x R Ei Ed), Reset_flips_axes, Fx, Fy, Fz.
  apply Ho. state_simpl. exact Ei.
Qed.

Lemma viewer_attributes_ext (s s' : RView) (v : Viewer) :
  _resolution s' = _resolution s -> origin s' = origin s ->
  _xaxis s' = _xaxis s -> _yaxis s' = _yaxis s -> _zaxis s' = _zaxis s ->
  _targetImage s' = _targetImage s ->
  viewer_attributes s' v = viewer_attributes s v.
Proof.
  unfold origin. intros Er Eo Ex Ey Ez Ei. inversion Eo as [[E1 E2 E3]].
  unfold viewer_attributes. rewrite Er, E1, E2, E3, Ex, Ey, Ez, Ei. reflexivity.
Qed.

(** [Initialize] on the viewers it has left, in a state with the same
    grid, leaves them again. *)
Lemma initialize_slots_again (s s' : RView) :
  (forall v, viewer_attributes s' v = viewer_attributes s v) ->
  forall l sls, initialize_slots s l = Ok sls -> initialize_slots s' sls = Ok sls.
Proof.
  intros A. induction l as [|sl rest IH]; intros sls E.
  - cbn in E. inversion E. reflexivity.
  - cbn [initialize_slots] in E.
    destruct (viewer_attributes s (_viewer sl)) as [attr| | |] eqn:V; try discriminate E.
    cbn [bind] in E.
    destruct (initialize_slots s rest) as [rest'| | |]; try discriminate E.
    cbn [bind] in E. inversion E; subst; clear E.
    cbn [initialize_slots _viewer _isSourceViewer _drawable].
    rewrite A, V. cbn [bind]. rewrite (IH rest' eq_refl). reflexivity.
Qed.

Lemma Reset_again_state (sls : list Slot) (a b c : Vec3) (o1 o2 o3 : Q) (s : RView) :
  let t := set_origin_z o3 (set_origin_y o2 (set_origin_x o1
             (set_zaxis c (set_yaxis b (set_xaxis a s))))) in
  let s1 := require_update (set_slots sls t) in
  set_origin_z o3 (set_origin_y o2 (set_origin_x o1
    (set_zaxis c (set_yaxis b (set_xaxis a s1))))) = s1 /\
  require_update (require_update (set_slots sls s1)) = s1.
Proof. destruct_state s. split; vm_compute; reflexivity. Qed.

(** X17: a second [Reset].  In the native display mode, and in the other
    two modes when the orientation codes of the target image name the
    three anatomical axes, a [Reset] right after a [Reset] that returned
    returns the same state. *)
Theorem Reset_idempotent (s s' : RView) :
  Reset s = Ok s' -> resolved s = true -> Reset s' = Ok s'.
Proof.
  intros HR R. destruct (Reset_inv s s' HR) as (sls & I & E).
  destruct (Reset_steps_resolved s R) as (a & b & c & [[o1 o2] o3] & N).
  cbn [fst snd] in N.
  rewrite (N s eq_refl eq_refl eq_refl eq_refl eq_refl) in I, E.
  destruct (Reset_again_state sls a b c o1 o2 o3 s) as (P1 & P2). cbv zeta in P1, P2.
  rewrite <- E in P1, P2.
  assert (NP : Reset_origin (Reset_flips (Reset_axes s')) = s').
  { rewrite <- P1 at 2. apply N; rewrite E; unfold require_update; state_simpl; reflexivity. }
  unfold Reset, Initialize. rewrite NP.
  assert (S1 : _slots s' = sls) by (rewrite E; unfold require_update; state_simpl; reflexivity).
  rewrite S1.
  assert (A : forall v, viewer_attributes s' v =
                        viewer_attributes
                          (set_origin_z o3 (set_origin_y o2 (set_origin_x o1
                             (set_zaxis c (set_yaxis b (set_xaxis a s)))))) v).
  { intros v. apply viewer_attributes_ext;
      rewrite E; unfold origin, require_update; state_simpl; reflexivity. }
  rewrite (initialize_slots_again _ s' A _ sls I).
  cbn [bind]. rewrite P2. reflexivity.
Qed.

End ResetMore.

Lemma Reset_flips_unresolved_axis_witness :
  let s := unknown_axis_state in
  let s' := returned (Reset s) s in
  Reset s = Ok s' /\
  GetOrientation (_targetImage s) = unit_axes /\
  Orientation (_targetImage s) = (L2R, P2A, Orientation_Unknown) /\
  _DisplayMode s <> Native /\
  up_down L2R || up_down P2A || up_down Orientation_Unknown = false /\
  _FlipZ s = true /\
  _zaxis s' = vflip (_zaxis s).
Proof.
  intros s s'.
  assert (HR : Reset s = Ok s') by (apply returned_Ok; vm_compute; reflexivity).
  assert (H2 : GetOrientation (_targetImage s) = unit_axes) by reflexivity.
  assert (H3 : Orientation (_targetImage s) = (L2R, P2A, Orientation_Unknown))
    by reflexivity.
  assert (H4 : _DisplayMode s <> Native) by discriminate.
  assert (H6 : _FlipZ s = true) by reflexivity.
  clearbody s'.
  split; [exact HR|]. split; [exact H2|]. split; [exact H3|]. split; [exact H4|].
  split; [reflexivity|]. split; [exact H6|].
  destruct (Reset_flips_unresolved_axis s s' (1, 0, 0)%Q (0, 1, 0)%Q (0, 0, 1)%Q
              L2R P2A Orientation_Unknown HR H2 H3 H4) as (_ & _ & Z).
  exact (Z eq_refl H6).
Defined.

Lemma Reset_origin_on_voxel_witness :
  let s := one_view_state in
  let s' := returned (Reset s) s in
  Reset s = Ok s' /\ inverse_maps (_targetImage s) /\
  Peq (WorldToImage (_targetImage s) (origin s'))
      (voxel_of (WorldToImage (_targetImage s) (GetOrigin (_targetImage s)))).
Proof.
  intros s s'.
  assert (HR : Reset s = Ok s') by (apply returned_Ok; vm_compute; reflexivity).
  assert (H2 : inverse_maps (_targetImage s)) by exact demo_volume_inverse.
  clearbody s'. split; [exact HR|]. split; [exact H2|].
  exact (proj1 (Reset_origin_on_voxel s s' HR H2)).
Defined.

Lemma Reset_idempotent_witness :
  let s := one_view_state in
  let s' := returned (Reset s) s in
  Reset s = Ok s' /\ resolved s = true /\ Reset s' = Ok s'.
Proof.
  intros s s'.
  assert (HR : Reset s = Ok s') by (apply returned_Ok; vm_compute; reflexivity).
  assert (H2 : resolved s = true) by reflexivity.
  clearbody s'. split; [exact HR|]. split; [exact H2|].
  exact (Reset_idempotent s s' HR H2).
Defined.

(* ===================================================================== *)
(** * More on RView::Read and RView::Write *)
(* ===================================================================== *)

Lemma parse_interpolation_outcome (b2 : string) :
  parse_interpolation b2 = Exit \/ exists m, parse_interpolation b2 = Ok m.
Proof.
  unfold parse_interpolation.
  repeat match goal with
         | |- context [if ?c then _ else _] => destruct c; [right; eexists; reflexivity|]
         end.
  left. reflexivity.
Qed.

Section ReadMore.
Context `{ViewerApi} `{MirtkApi} `{CxxIO}.
Variable HAVE_VTK : bool.

(** The body of the loop returns, or ends the process on an unknown
    interpolation token. *)
Lemma Read_body_outcome (b1 b2 : string) (s : RView) :
  if (strstr b1 "targetInterpolationMode" || strstr b1 "sourceInterpolationMode")
     && negb (is_Ok (parse_interpolation b2))
  then Read_body HAVE_VTK b1 b2 s = Exit
  else exists s', Read_body HAVE_VTK b1 b2 s = Ok s'.
Proof.
  unfold Read_body.
  destruct (parse_interpolation_outcome b2) as [E | (m & E)]; rewrite E; cbn [is_Ok negb];
    destruct (strstr b1 "targetInterpolationMode"), (strstr b1 "sourceInterpolationMode");
    cbn [orb andb bind]; try reflexivity; eexists; reflexivity.
Qed.






Lemma Read_loop_readable : forall lines sk s,
  forallb readable lines = true -> exists s', Read_loop HAVE_VTK lines sk s = Ok s'.
Proof.
  induction lines as [|l rest IH]; intros sk s Hr.
  - cbn [Read_loop]. destruct sk; [|eexists; reflexivity].
    pose proof (Read_body_outcome EmptyString EmptyString s) as O. exact O.
  - cbn [forallb] in Hr. apply andb_true_iff in Hr. destruct Hr as [Hl Hrest].
    unfold readable in Hl. apply andb_true_iff in Hl. destruct Hl as [Hs Hl].
    unfold short in Hs. apply negb_true_iff in Hs.
    cbn [Read_loop]. rewrite Hs.
    destruct (skipped l); [apply IH; exact Hrest|].
    cbn [orb] in Hl. apply negb_true_iff in Hl. unfold fatal_line in Hl.
    destruct (split_line l) as [b2| | |]; try discriminate Hl. cbn [bind].
    pose proof (Read_body_outcome l b2 s) as O. rewrite Hl in O.
    destruct O as (s1 & ->). cbn [bind]. apply IH. exact Hrest.
Qed.

Lemma Read_loop_long (l : string) (post : list string) :
  Nat.leb 255 (String.length l) = true ->
  forall pre sk s,
  Read_loop HAVE_VTK (pre ++ l :: post) sk s = Read_loop HAVE_VTK (pre ++ [l]) sk s.
Proof.
  intros Hl. induction pre as [|p pre IH]; intros sk s.
  - cbn [app Read_loop]. rewrite Hl. reflexivity.
  - cbn [app Read_loop].
    destruct (Nat.leb 255 (String.length p)); [reflexivity|].
    destruct (skipped p); [apply IH|].
    destruct (split_line p) as [b2| | |]; cbn [bind]; try reflexivity.
    destruct (Read_body HAVE_VTK p b2 s) as [s1| | |]; cbn [bind]; try reflexivity.
    apply IH.
Qed.

Lemma Read_loop_long_comment (l : string) (post : list string) :
  Nat.leb 255 (String.length l) = true -> skipped (substring 0 254 l) = true ->
  forall pre sk s,
  forallb readable pre = true ->
  Read_loop HAVE_VTK (pre ++ l :: post) sk s = Hang.
Proof.
  intros Hl Hk. induction pre as [|p pre IH]; intros sk s Hr.
  - cbn [app Read_loop]. rewrite Hl, Hk. reflexivity.
  - cbn [forallb] in Hr. apply andb_true_iff in Hr. destruct Hr as [Hp Hrest].
    unfold readable in Hp. apply andb_true_iff in Hp. destruct Hp as [Hs Hp].
    unfold short in Hs. apply negb_true_iff in Hs.
    cbn [app Read_loop]. rewrite Hs.
    destruct (skipped p); [apply IH; exact Hrest|].
    cbn [orb] in Hp. apply negb_true_iff in Hp. unfold fatal_line in Hp.
    destruct (split_line p) as [b2| | |]; try discriminate Hp. cbn [bind].
    pose proof (Read_body_outcome p b2 s) as O. rewrite Hp in O.
    destruct O as (s1 & ->). cbn [bind]. apply IH. exact Hrest.
Qed.

(** X21: a line of 255 characters or more.  [Read] reads nothing of the
    file after such a line: it ends as it does on the file cut off behind
    the line.  If the first 254 characters of the line are passed over (the
    line begins with [#] or a carriage return) and the earlier lines are
    readable, [Read] never returns. *)
Theorem Read_long_line (pre : list string) (l : string) (post : list string)
    (s : RView) :
  Nat.leb 255 (String.length l) = true ->
  Read HAVE_VTK (Some (pre ++ l :: post)%list) s = Read HAVE_VTK (Some (pre ++ [l])%list) s /\
  (skipped (substring 0 254 l) = true -> forallb readable pre = true ->
   Read HAVE_VTK (Some (pre ++ l :: post)%list) s = Hang).
Proof.
  intros Hl. unfold Read. split.
  - rewrite (Read_loop_long l post Hl). reflexivity.
  - intros Hk Hr. rewrite (Read_loop_long_comment l post Hl Hk pre false s Hr). reflexivity.
Qed.

(** X22: a line without a key.  On a line shorter than 255 characters that is
    not passed over, has an [=] and holds none of the keys, the loop of
    [Read] recreates both interpolators for nearest-neighbour interpolation
    and changes nothing else. *)
Theorem Read_unknown_key (l v : string) (rest : list string) (sk : bool) (s : RView) :
  short l = true -> skipped l = false -> split_line l = Ok v -> no_key l = true ->
  Read_body HAVE_VTK l v s = Ok (reset_interpolators s) /\
  Read_loop HAVE_VTK (l :: rest) sk s =
  Read_loop HAVE_VTK rest false (reset_interpolators s).
Proof.
  intros Hs Hk Hv Hn. unfold short in Hs. apply negb_true_iff in Hs.
  assert (B : Read_body HAVE_VTK l v s = Ok (reset_interpolators s)).
  { unfold no_key, Read_keys in Hn. cbn [forallb] in Hn.
    repeat match type of Hn with
           | _ && _ = true =>
               let E := fresh "E" in
               apply andb_true_iff in Hn; destruct Hn as [E Hn];
               apply negb_true_iff in E
           end.
    unfold Read_body.
    repeat match goal with
           | E : strstr l _ = false |- _ => rewrite E; clear E
           end.
    rewrite !andb_false_r. reflexivity. }
  split; [exact B|].
  apply (Read_loop_step HAVE_VTK l v rest sk s _ Hs Hk Hv B).
Qed.

End ReadMore.

Ltac read_written_line :=
  first
    [ rewrite Read_loop_skip by reflexivity
    | rewrite Read_loop_configMode
    | rewrite Read_loop_screenX by assumption
    | rewrite Read_loop_screenY by assumption
    | rewrite Read_loop_origin_x
    | rewrite Read_loop_origin_y
    | rewrite Read_loop_origin_z
    | rewrite Read_loop_resolution
    | rewrite Read_loop_targetInterpolation
    | rewrite Read_loop_sourceInterpolation
    | rewrite Read_loop_viewMix
    | rewrite Read_loop_DisplayTargetContour
    | rewrite Read_loop_DisplaySourceContour
    | rewrite Read_loop_DisplayCursor
    | rewrite Read_loop_CursorMode
    | rewrite Read_loop_DisplayDeformationGrid
    | rewrite Read_loop_DisplayDeformationPoints
    | rewrite Read_loop_DisplayDeformationArrows
    | rewrite Read_loop_DisplayLandmarks
    | rewrite Read_loop_DisplayObjectWarp
    | rewrite Read_loop_DisplayObjectGrid
    | rewrite Read_loop_DisplayObject
    | rewrite Read_loop_targetLookupTable_minDisplay by assumption
    | rewrite Read_loop_targetLookupTable_maxDisplay by assumption
    | rewrite Read_loop_targetLookupTable_mode
    | rewrite Read_loop_sourceLookupTable_minDisplay by assumption
    | rewrite Read_loop_sourceLookupTable_maxDisplay by assumption
    | rewrite Read_loop_sourceLookupTable_mode
    | rewrite Read_loop_subtractionLookupTable_minDisplay by assumption
    | rewrite Read_loop_subtractionLookupTable_maxDisplay by assumption
    | rewrite Read_loop_subtractionLookupTable_mode ].

Section RoundTripMore.
Context `{ViewerApi} `{MirtkApi} `{CxxIO}.
Variable HAVE_VTK : bool.

(** What the loop of [Read] makes of the cursor and of the numbers that
    [Write] prints as [double]. *)
Lemma Read_loop_Write_numbers (s s0 : RView) :
  ints_in_range s ->
  exists s1, Read_loop HAVE_VTK (Write HAVE_VTK s) false s0 = Ok s1 /\
    _CursorMode s1 = _CursorMode s /\
    origin s1 = (atof (show_double (_origin_x s)), atof (show_double (_origin_y s)),
                 atof (show_double (_origin_z s))) /\
    _resolution s1 = atof (show_double (_resolution s)) /\
    _viewMix s1 = atof (show_double (_viewMix s)) /\
    _viewMode s1 = (if written_viewMode (_viewMode s) then _viewMode s else _viewMode s0).
Proof.
  intros (Hx & Hy & Ht1 & Ht2 & Hs1 & Hs2 & Hu1 & Hu2).
  unfold Write, GetMinDisplayIntensity, GetMaxDisplayIntensity, GetColorMode,
    GetTargetInterpolationMode, GetSourceInterpolationMode.
  destruct HAVE_VTK; destruct (written_viewMode (_viewMode s)) eqn:Hm.
  all: eexists; split;
    [ cbn [List.app]; repeat read_written_line;
      rewrite Read_loop_viewMode, Hm;
      cbn [List.app]; repeat read_written_line; reflexivity
    | repeat split; reflexivity ].
Qed.

(** X23: what a round trip through a file does not bring back.  [Read] of
    the file written by [Write] returns with both interpolators recreated
    for nearest-neighbour interpolation, whatever modes were written, and
    with the screen width of the reading state; the screen height is the
    written one.  In a build with VTK the flag [_DisplayObject] comes back
    with the written value of [_DisplayObjectGrid]; in a build without, the
    three object flags of the reading state are kept. *)
Theorem Write_Read_not_restored (s s0 : RView) :
  valid_layouts -> ints_in_range s -> written_viewMode (_viewMode s) = true ->
  exists s', Read HAVE_VTK (Some (Write HAVE_VTK s)) s0 = Ok s' /\
    _targetInterpolator s' = Interpolation_NN /\
    _sourceInterpolator s' = Interpolation_NN /\
    _screenX s' = _screenX s0 /\ _screenY s' = _screenY s /\
    (_DisplayObject s', _DisplayObjectWarp s', _DisplayObjectGrid s') =
    (if HAVE_VTK
     then (_DisplayObjectGrid s, _DisplayObjectWarp s, _DisplayObjectGrid s)
     else (_DisplayObject s0, _DisplayObjectWarp s0, _DisplayObjectGrid s0)).
Proof.
  intros V Hi Hm.
  destruct (Read_loop_Write HAVE_VTK s s0 Hi Hm)
    as (s1 & E1 & _ & _ & Ex & Ey & Et & Es & _ & _ & _ & _ & Eo).
  destruct (Read_loop_Ok HAVE_VTK _ _ _ V E1) as (s' & E & S).
  exists s'. split; [exact E|].
  unfold settings in S.
  injection S as S1 S2 S3 S4 S5 S6 S7 S8 S9 S10 S11 S12 S13 S14 S15 S16 S17 S18 S19.
  rewrite S2, S3, S5, S6, S17, S18, S19, Ex, Ey, Et, Es, Eo.
  repeat split; reflexivity.
Qed.

Lemma Configure_origin (config : list RViewConfig) (s s' : RView) :
  Configure config s = Ok s' ->
  _CursorMode s' = _CursorMode s /\ origin s' = origin s /\
  _resolution s' = _resolution s /\ _viewMix s' = _viewMix s.
Proof.
  unfold Configure, Initialize.
  destruct (initialize_slots _ _) as [sls| | |]; cbn [bind]; try discriminate.
  intros E. inversion E; subst; clear E.
  match goal with |- context [if ?c then _ else _] => destruct c end;
    repeat split; reflexivity.
Qed.

(** X24: the cursor and the numbers across a round trip.  [Read] of the
    file written by [Write] returns with the written cursor mode, and with
    the display origin, the resolution and the mix that [atof] reads from
    the text [Write] prints for them; if the view mode is one of the two
    that [Write] writes no line for, the view mode of the reading state is
    kept. *)
Theorem Write_Read_numbers (s s0 : RView) :
  valid_layouts -> ints_in_range s ->
  exists s', Read HAVE_VTK (Some (Write HAVE_VTK s)) s0 = Ok s' /\
    _CursorMode s' = _CursorMode s /\
    origin s' = (atof (show_double (_origin_x s)), atof (show_double (_origin_y s)),
                 atof (show_double (_origin_z s))) /\
    _resolution s' = atof (show_double (_resolution s)) /\
    _viewMix s' = atof (show_double (_viewMix s)) /\
    _viewMode s' = (if written_viewMode (_viewMode s) then _viewMode s else _viewMode s0).
Proof.
  intros V Hi.
  destruct (Read_loop_Write_numbers s s0 Hi) as (s1 & E1 & Ec & Eo & Er & Ex & Em).
  unfold Read. rewrite E1. cbn [bind].
  destruct (Configure_ok (_configMode s1) s1 V) as (s' & E).
  exists s'. split; [exact E|].
  destruct (Configure_origin _ _ _ E) as (Cc & Co & Cr & Cx).
  pose proof (Configure_settings _ _ _ E) as S. unfold settings in S.
  injection S as S1 S2 S3 S4.
  rewrite Cc, Co, Cr, Cx, S4, Ec, Eo, Er, Ex, Em. repeat split; reflexivity.
Qed.

End RoundTripMore.



Lemma Read_long_line_witness :
  Nat.leb 255 (String.length long_comment) = true /\
  skipped (substring 0 254 long_comment) = true /\
  forallb readable ["screenY = 480"] = true /\
  Read false (Some (["screenY = 480"] ++ long_comment :: ["screenX = 640"])%list)
    small_state = Hang.
Proof.
  split; [reflexivity|]. split; [reflexivity|]. split; [reflexivity|].
  apply (Read_long_line false ["screenY = 480"] long_comment ["screenX = 640"]
           small_state); reflexivity.
Defined.

Lemma Read_unknown_key_witness :
  short "colour = red" = true /\ skipped "colour = red" = false /\
  split_line "colour = red" = Ok "red" /\ no_key "colour = red" = true /\
  Read_body false "colour = red" "red" small_state = Ok (reset_interpolators small_state).
Proof.
  split; [reflexivity|]. split; [reflexivity|]. split; [reflexivity|].
  split; [reflexivity|].
  apply (Read_unknown_key false "colour = red" "red" [] false small_state); reflexivity.
Defined.

Lemma Write_Read_not_restored_witness :
  valid_layouts /\ ints_in_range small_state /\
  written_viewMode (_viewMode small_state) = true /\
  exists s', Read true (Some (Write true small_state)) demo_base = Ok s' /\
    _targetInterpolator s' = Interpolation_NN /\
    _sourceInterpolator s' = Interpolation_NN /\
    _screenX s' = _screenX demo_base /\ _screenY s' = _screenY small_state /\
    (_DisplayObject s', _DisplayObjectWarp s', _DisplayObjectGrid s') =
    (_DisplayObjectGrid small_state, _DisplayObjectWarp small_state,
     _DisplayObjectGrid small_state).
Proof.
  assert (Hi : ints_in_range small_state).
  { unfold ints_in_range, int_range. cbn. change (2 ^ 31) with 2147483648. lia. }
  split; [exact demo_valid_layouts|]. split; [exact Hi|]. split; [reflexivity|].
  apply (Write_Read_not_restored true small_state demo_base demo_valid_layouts Hi).
  reflexivity.
Defined.

Lemma Write_Read_numbers_witness :
  valid_layouts /\ ints_in_range small_state /\
  exists s', Read false (Some (Write false small_state)) demo_base = Ok s' /\
    _CursorMode s' = _CursorMode small_state /\
    origin s' = (atof (show_double (_origin_x small_state)),
                 atof (show_double (_origin_y small_state)),
                 atof (show_double (_origin_z small_state))) /\
    _resolution s' = atof (show_double (_resolution small_state)) /\
    _viewMix s' = atof (show_double (_viewMix small_state)) /\
    _viewMode s' = (if written_viewMode (_viewMode small_state)
                    then _viewMode small_state else _viewMode demo_base).
Proof.
  assert (Hi : ints_in_range small_state).
  { unfold ints_in_range, int_range. cbn. change (2 ^ 31) with 2147483648. lia. }
  split; [exact demo_valid_layouts|]. split; [exact Hi|].
  apply (Write_Read_numbers false small_state demo_base demo_valid_layouts Hi).
Defined.

(* ===================================================================== *)
(** * The pointer *)
(* ===================================================================== *)

Lemma SetOrigin_fold_outside : forall sls x y z,
  outside_all sls x y = true -> fold_left SetOrigin_step sls (x, y, z) = (x, y, z).
Proof.
  induction sls as [|sl rest IH]; intros x y z Ho; [reflexivity|].
  unfold outside_all in Ho. cbn [forallb] in Ho. apply andb_true_iff in Ho.
  destruct Ho as [Ha Hb]. apply negb_true_iff in Ha.
  cbn [fold_left]. unfold SetOrigin_step at 2. rewrite Ha. apply IH. exact Hb.
Qed.

Lemma MouseWheel_fold_outside (wheel : Z) : forall sls x y z,
  outside_all sls x y = true ->
  fold_left (MouseWheel_step wheel) sls (x, y, z) = (x, y, z).
Proof.
  induction sls as [|sl rest IH]; intros x y z Ho; [reflexivity|].
  unfold outside_all in Ho. cbn [forallb] in Ho. apply andb_true_iff in Ho.
  destruct Ho as [Ha Hb]. apply negb_true_iff in Ha.
  cbn [fold_left]. unfold MouseWheel_step at 2. rewrite Ha. apply IH. exact Hb.
Qed.

Lemma MousePosition_loop_outside : forall sls k x y w mv,
  outside_all sls x y = true -> MousePosition_loop k sls (x, y, w) mv = ((x, y, w), mv).
Proof.
  induction sls as [|sl rest IH]; intros k x y w mv Ho; [reflexivity|].
  unfold outside_all in Ho. cbn [forallb] in Ho. apply andb_true_iff in Ho.
  destruct Ho as [Ha Hb]. apply negb_true_iff in Ha.
  cbn [MousePosition_loop]. rewrite Ha. apply IH. exact Hb.
Qed.

(** The loops of [MousePosition] and [SetOrigin] move the point alike. *)
Lemma MousePosition_loop_point : forall sls k p mv,
  fst (MousePosition_loop k sls p mv) = fold_left SetOrigin_step sls p.
Proof.
  induction sls as [|sl rest IH]; intros k p mv; [reflexivity|].
  destruct p as [[u v] w]. cbn [MousePosition_loop fold_left]. unfold SetOrigin_step at 2.
  destruct (in_viewport (_viewer sl) u v); apply IH.
Qed.

(** Once a viewport holds the point, the third coordinate it came with is
    forgotten. *)
Lemma SetOrigin_fold_hit : forall sls x y z z',
  outside_all sls x y = false ->
  fold_left SetOrigin_step sls (x, y, z) = fold_left SetOrigin_step sls (x, y, z').
Proof.
  induction sls as [|sl rest IH]; intros x y z z' Ho; [discriminate Ho|].
  unfold outside_all in Ho. cbn [forallb] in Ho.
  cbn [fold_left]. unfold SetOrigin_step at 2 4.
  destruct (in_viewport (_viewer sl) x y); [reflexivity|].
  cbn [negb andb] in Ho. apply IH. exact Ho.
Qed.

Lemma MousePosition_loop_viewer : forall sls k p mv,
  snd (MousePosition_loop k sls p mv) = mv \/
  k <= snd (MousePosition_loop k sls p mv) < k + Z.of_nat (List.length sls).
Proof.
  induction sls as [|sl rest IH]; intros k p mv; [left; reflexivity|].
  destruct p as [[u v] w]. cbn [MousePosition_loop].
  change (List.length (sl :: rest)) with (S (List.length rest)).
  destruct (in_viewport (_viewer sl) u v).
  - match goal with
    | |- context [MousePosition_loop (k + 1) rest ?q k] =>
        destruct (IH (k + 1) q k) as [E | E]
    end; right; lia.
  - destruct (IH (k + 1) (u, v, w) mv) as [E | E]; [left; exact E | right; lia].
Qed.

Lemma MousePosition_loop_hit : forall sls k x y w mv,
  outside_all sls x y = false ->
  k <= snd (MousePosition_loop k sls (x, y, w) mv) < k + Z.of_nat (List.length sls).
Proof.
  induction sls as [|sl rest IH]; intros k x y w mv Ho; [discriminate Ho|].
  unfold outside_all in Ho. cbn [forallb] in Ho. cbn [MousePosition_loop].
  change (List.length (sl :: rest)) with (S (List.length rest)).
  destruct (in_viewport (_viewer sl) x y).
  - match goal with
    | |- context [MousePosition_loop (k + 1) rest ?q k] =>
        destruct (MousePosition_loop_viewer rest (k + 1) q k) as [E | E]
    end; lia.
  - cbn [negb andb] in Ho. pose proof (IH (k + 1) x y w mv Ho). lia.
Qed.

(** A rounded [double] in the range of [int] is converted exactly. *)
Lemma to_int_round (x : Q) (z : Z) : to_int (round x) = Ok z -> inject_Z z = round x.
Proof.
  unfold to_int, round.
  destruct (Qle_bool 0 x).
  - rewrite (int_of_double_Z _ (Qfloor (x + (1 # 2)))) by reflexivity.
    destruct (_ && _); intros E; [injection E as <-; reflexivity | discriminate E].
  - rewrite (int_of_double_Z _ (- Qfloor (- x + (1 # 2)))) by reflexivity.
    destruct (_ && _); intros E; [injection E as <-; reflexivity | discriminate E].
Qed.

(** A rounded [double] with a value in the range of [int] converts to it. *)
Lemma to_int_of_round (x : Q) (a : Z) :
  round x = inject_Z a -> int_range a -> to_int (round x) = Ok a.
Proof.
  intros E [L U]. rewrite E. unfold to_int.
  rewrite (int_of_double_Z _ a) by reflexivity.
  apply Z.leb_le in L. apply Z.ltb_lt in U. rewrite L, U. reflexivity.
Qed.

Section PointerFacts.
Context `{ImageApi}.

Lemma place_origin_spec (b : bool) (p : Point) (s : RView) :
  origin (place_origin b p s) = (if b then snap_to_grid (_targetImage s) p else p) /\
  _slots (place_origin b p s) =
    map (PutOrigin_slot (if b then snap_to_grid (_targetImage s) p else p)) (_slots s) /\
  (_targetUpdate (place_origin b p s), _sourceUpdate (place_origin b p s),
   _segmentationUpdate (place_origin b p s), _selectionUpdate (place_origin b p s)) =
  (true, true, true, true) /\
  _targetImage (place_origin b p s) = _targetImage s.
Proof.
  unfold place_origin.
  destruct (if b then snap_to_grid (_targetImage s) p else p) as [[x y] z].
  unfold origin, require_update. destruct_state s. state_simpl.
  repeat split; reflexivity.
Qed.

(** X25: the pointer outside every viewport, on a screen of non-zero size.
    [SetOrigin(int, int)] moves the origin to the point whose first two
    world coordinates are the screen fractions of the pointer and whose
    third is the old one, [MouseWheel] to the point with these fractions and
    0, either rounded to the voxel grid if snapping is on.  [MousePosition]
    takes the fractions with 0 as a world position: when the voxel (a, c, d)
    nearest to it is a voxel of the target, it returns with that voxel, the
    intensity of the target there and [_mouseViewer] as it was; otherwise it
    returns with [_mouseViewer] -1 and the voxel and intensity as they
    were. *)
Theorem pointer_outside (b : bool) (s : RView) (i j wheel : Z) (m : Pointer) :
  _screenX s <> 0 -> _screenY s <> 0 ->
  outside_all (_slots s) (ratio i (_screenX s)) (ratio (_screenY s - j) (_screenY s))
    = true ->
  let x := ratio i (_screenX s) in
  let y := ratio (_screenY s - j) (_screenY s) in
  let snap p := if b then snap_to_grid (_targetImage s) p else p in
  origin (SetOrigin b s i j) = snap (x, y, _origin_z s) /\
  origin (MouseWheel b s i j wheel) = snap (x, y, 0%Q) /\
  forall a c d,
    voxel_of (WorldToImage (_targetImage s) (x, y, 0%Q)) =
      (inject_Z a, inject_Z c, inject_Z d) ->
    int_range a -> int_range c -> int_range d ->
    MousePosition s i j m =
      Ok (if (0 <=? a) && (a <? GetX (_targetImage s)) &&
             (0 <=? c) && (c <? GetY (_targetImage s)) &&
             (0 <=? d) && (d <? GetZ (_targetImage s))
          then mkPointer (_mouseViewer m) a c d (GetAsDouble (_targetImage s) a c d)
          else mkPointer (-1) (_mouseX m) (_mouseY m) (_mouseZ m)
                 (_mouseTargetIntensity m)).
Proof.
  intros _ _ Ho x y snap. subst x y snap. cbv beta.
  split; [|split].
  - unfold SetOrigin. rewrite (SetOrigin_fold_outside _ _ _ _ Ho).
    apply place_origin_spec.
  - unfold MouseWheel. rewrite (MouseWheel_fold_outside _ _ _ _ _ Ho).
    apply place_origin_spec.
  - intros a c d Ev Ha Hc Hd. unfold MousePosition.
    rewrite (MousePosition_loop_outside _ 0 _ _ 0%Q (_mouseViewer m) Ho).
    destruct (WorldToImage (_targetImage s) _) as [[u v] w].
    unfold voxel_of in Ev. injection Ev as Eu Ev Ew.
    rewrite (to_int_of_round u a Eu Ha), (to_int_of_round v c Ev Hc),
      (to_int_of_round w d Ew Hd).
    cbn [bind]. destruct (_ && _); reflexivity.
Qed.


(** X27: a click sets the origin on the voxel under the mouse.  On a screen
    of non-zero size, when a viewport holds the pointer and [MousePosition]
    reports a viewer, it is one of the viewers, and [SetOrigin(int, int)]
    with snapping on moves the origin to the world position of the voxel
    [MousePosition] reports. *)
Theorem SetOrigin_on_mouse_voxel (s : RView) (i j : Z) (m m' : Pointer) :
  _screenX s <> 0 -> _screenY s <> 0 ->
  outside_all (_slots s) (ratio i (_screenX s)) (ratio (_screenY s - j) (_screenY s))
    = false ->
  MousePosition s i j m = Ok m' -> _mouseViewer m' <> -1 ->
  origin (SetOrigin true s i j) =
    ImageToWorld (_targetImage s)
      (inject_Z (_mouseX m'), inject_Z (_mouseY m'), inject_Z (_mouseZ m')) /\
  0 <= _mouseViewer m' < _NoOfViewers s.
Proof.
  intros _ _ Ho. unfold MousePosition, SetOrigin.
  set (x := ratio i (_screenX s)) in *. set (y := ratio (_screenY s - j) (_screenY s)) in *.
  pose proof (MousePosition_loop_point (_slots s) 0 (x, y, 0%Q) (_mouseViewer m)) as Ep.
  pose proof (MousePosition_loop_hit (_slots s) 0 x y 0%Q (_mouseViewer m) Ho) as Ev.
  rewrite (SetOrigin_fold_hit _ x y (_origin_z s) 0%Q Ho).
  destruct (MousePosition_loop 0 (_slots s) (x, y, 0%Q) (_mouseViewer m)) as [p mv].
  cbn [fst snd] in Ep, Ev. rewrite <- Ep.
  destruct (place_origin_spec true p s) as (Eo & _). rewrite Eo. unfold snap_to_grid.
  destruct (WorldToImage (_targetImage s) p) as [[u v] w].
  destruct (to_int (round u)) as [a| | |] eqn:Ea; cbn [bind]; try discriminate.
  destruct (to_int (round v)) as [c| | |] eqn:Ec; cbn [bind]; try discriminate.
  destruct (to_int (round w)) as [d| | |] eqn:Ed; cbn [bind]; try discriminate.
  destruct (_ && _); intros E; injection E as <-;
    cbn [_mouseViewer _mouseX _mouseY _mouseZ]; intros Hv.
  - rewrite (to_int_round _ _ Ea), (to_int_round _ _ Ec), (to_int_round _ _ Ed).
    split; [reflexivity|]. unfold _NoOfViewers. lia.
  - exfalso. apply Hv. reflexivity.
Qed.

(** X28: what [MousePosition] leaves.  When it returns, either
    [_mouseViewer] is -1 and the voxel and the intensity under the mouse
    are as before, or the voxel under the mouse is a voxel of the target,
    the intensity is the intensity of the target there, and [_mouseViewer]
    is one of the viewers or the value it had before. *)
Theorem MousePosition_invariant (s : RView) (i j : Z) (m m' : Pointer) :
  _screenX s <> 0 -> _screenY s <> 0 ->
  MousePosition s i j m = Ok m' ->
  (_mouseViewer m' = -1 /\
   (_mouseX m', _mouseY m', _mouseZ m', _mouseTargetIntensity m') =
   (_mouseX m, _mouseY m, _mouseZ m, _mouseTargetIntensity m)) \/
  ((_mouseViewer m' = _mouseViewer m \/ 0 <= _mouseViewer m' < _NoOfViewers s) /\
   0 <= _mouseX m' < GetX (_targetImage s) /\
   0 <= _mouseY m' < GetY (_targetImage s) /\
   0 <= _mouseZ m' < GetZ (_targetImage s) /\
   _mouseTargetIntensity m' =
     GetAsDouble (_targetImage s) (_mouseX m') (_mouseY m') (_mouseZ m')).
Proof.
  intros _ _. unfold MousePosition.
  set (x := ratio i (_screenX s)). set (y := ratio (_screenY s - j) (_screenY s)).
  pose proof (MousePosition_loop_viewer (_slots s) 0 (x, y, 0%Q) (_mouseViewer m)) as Ev.
  destruct (MousePosition_loop 0 (_slots s) (x, y, 0%Q) (_mouseViewer m)) as [p mv].
  cbn [snd] in Ev.
  destruct (WorldToImage (_targetImage s) p) as [[u v] w].
  destruct (to_int (round u)) as [a| | |]; cbn [bind]; try discriminate.
  destruct (to_int (round v)) as [c| | |]; cbn [bind]; try discriminate.
  destruct (to_int (round w)) as [d| | |]; cbn [bind]; try discriminate.
  destruct (_ && _) eqn:B; intros E; injection E as <-;
    cbn [_mouseViewer _mouseX _mouseY _mouseZ _mouseTargetIntensity].
  - right. repeat (apply andb_true_iff in B; destruct B as [B ?]).
    unfold _NoOfViewers. repeat split; lia.
  - left. split; reflexivity.
Qed.

(** X29: the wheel over a viewer.  With the pointer in the viewport of the
    last viewer and of no other, [MouseWheel] moves the origin to the origin
    of the target output of that viewer, shifted [wheel] slices through its
    plane (and rounded to the voxel grid if snapping is on): where in the
    viewport the pointer is makes no difference. *)
Theorem MouseWheel_in_viewer (b : bool) (s : RView) (i j i' j' wheel : Z)
    (pre : list Slot) (sl : Slot) :
  _screenX s <> 0 -> _screenY s <> 0 ->
  _slots s = (pre ++ [sl])%list ->
  outside_all pre (ratio i (_screenX s)) (ratio (_screenY s - j) (_screenY s)) = true ->
  in_viewport (_viewer sl) (ratio i (_screenX s))
    (ratio (_screenY s - j) (_screenY s)) = true ->
  outside_all pre (ratio i' (_screenX s)) (ratio (_screenY s - j') (_screenY s)) = true ->
  in_viewport (_viewer sl) (ratio i' (_screenX s))
    (ratio (_screenY s - j') (_screenY s)) = true ->
  let out := _targetImageOutput sl in
  let p := let '(u, v, w) := WorldToImage out (GetOrigin out) in
           ImageToWorld out (u, v, (w + inject_Z wheel)%Q) in
  origin (MouseWheel b s i j wheel) =
    (if b then snap_to_grid (_targetImage s) p else p) /\
  MouseWheel b s i' j' wheel = MouseWheel b s i j wheel.
Proof.
  intros _ _ Hsl Ho Hi Ho' Hi' out p.
  assert (F : forall a c, outside_all pre (ratio a (_screenX s))
                            (ratio (_screenY s - c) (_screenY s)) = true ->
                in_viewport (_viewer sl) (ratio a (_screenX s))
                            (ratio (_screenY s - c) (_screenY s)) = true ->
                MouseWheel b s a c wheel = place_origin b p s).
  { intros a c Hp Hv. unfold MouseWheel. rewrite Hsl, fold_left_app.
    rewrite (MouseWheel_fold_outside wheel pre _ _ _ Hp).
    cbn [fold_left]. unfold MouseWheel_step. rewrite Hv. reflexivity. }
  rewrite (F i j Ho Hi), (F i' j' Ho' Hi'). split; [|reflexivity].
  apply place_origin_spec.
Qed.

End PointerFacts.

Lemma pointer_outside_witness :
  let s := centred_state in
  let m := mkPointer 1 0 0 0 0 in
  _screenX s <> 0 /\ _screenY s <> 0 /\
  outside_all (_slots s) (ratio 50 (_screenX s)) (ratio (_screenY s - 0) (_screenY s))
    = true /\
  origin (SetOrigin false s 50 0) =
    (ratio 50 (_screenX s), ratio (_screenY s - 0) (_screenY s), _origin_z s) /\
  origin (MouseWheel false s 50 0 1) =
    (ratio 50 (_screenX s), ratio (_screenY s - 0) (_screenY s), 0%Q) /\
  MousePosition s 50 0 m = Ok (mkPointer 1 5 6 5 0).
Proof.
  intros s m.
  assert (Sx : _screenX s <> 0) by (vm_compute; discriminate).
  assert (Sy : _screenY s <> 0) by (vm_compute; discriminate).
  assert (Ho : outside_all (_slots s) (ratio 50 (_screenX s))
                 (ratio (_screenY s - 0) (_screenY s)) = true)
    by (vm_compute; reflexivity).
  split; [exact Sx|]. split; [exact Sy|]. split; [exact Ho|].
  pose proof (pointer_outside false s 50 0 1 m Sx Sy Ho) as P.
  cbv zeta beta in P. destruct P as (P1 & P2 & P3).
  split; [exact P1|]. split; [exact P2|].
  assert (R : forall z, -10 <= z <= 10 -> int_range z)
    by (intros z Hz; unfold int_range; change (2 ^ 31) with 2147483648; lia).
  rewrite (P3 5 6 5); [vm_compute; reflexivity | vm_compute; reflexivity | | | ];
    apply R; lia.
Defined.


Lemma SetOrigin_on_mouse_voxel_witness :
  let s := one_view_state in
  let m' := mkPointer 0 5 5 5 0 in
  _screenX s <> 0 /\ _screenY s <> 0 /\
  outside_all (_slots s) (ratio 100 (_screenX s)) (ratio (_screenY s - 50) (_screenY s))
    = false /\
  MousePosition s 100 50 no_pointer = Ok m' /\ _mouseViewer m' <> -1 /\
  origin (SetOrigin true s 100 50) = ImageToWorld (_targetImage s) (5, 5, 5)%Q.
Proof.
  intros s m'.
  assert (Sx : _screenX s <> 0) by (vm_compute; discriminate).
  assert (Sy : _screenY s <> 0) by (vm_compute; discriminate).
  assert (Ho : outside_all (_slots s) (ratio 100 (_screenX s))
                 (ratio (_screenY s - 50) (_screenY s)) = false)
    by (vm_compute; reflexivity).
  assert (Hm : MousePosition s 100 50 no_pointer = Ok m') by (vm_compute; reflexivity).
  assert (Hv : _mouseViewer m' <> -1) by (vm_compute; discriminate).
  split; [exact Sx|]. split; [exact Sy|]. split; [exact Ho|]. split; [exact Hm|].
  split; [exact Hv|].
  destruct (SetOrigin_on_mouse_voxel s 100 50 no_pointer m' Sx Sy Ho Hm Hv) as (P & _).
  exact P.
Defined.

Lemma MousePosition_invariant_witness :
  let s := one_view_state in
  let m' := mkPointer 0 5 5 5 0 in
  _screenX s <> 0 /\ _screenY s <> 0 /\
  MousePosition s 100 50 no_pointer = Ok m' /\
  ((_mouseViewer m' = -1 /\
    (_mouseX m', _mouseY m', _mouseZ m', _mouseTargetIntensity m') =
    (_mouseX no_pointer, _mouseY no_pointer, _mouseZ no_pointer,
     _mouseTargetIntensity no_pointer)) \/
   ((_mouseViewer m' = _mouseViewer no_pointer \/ 0 <= _mouseViewer m' < _NoOfViewers s) /\
    0 <= _mouseX m' < GetX (_targetImage s) /\
    0 <= _mouseY m' < GetY (_targetImage s) /\
    0 <= _mouseZ m' < GetZ (_targetImage s) /\
    _mouseTargetIntensity m' =
      GetAsDouble (_targetImage s) (_mouseX m') (_mouseY m') (_mouseZ m'))).
Proof.
  intros s m'.
  assert (Sx : _screenX s <> 0) by (vm_compute; discriminate).
  assert (Sy : _screenY s <> 0) by (vm_compute; discriminate).
  assert (Hm : MousePosition s 100 50 no_pointer = Ok m') by (vm_compute; reflexivity).
  split; [exact Sx|]. split; [exact Sy|]. split; [exact Hm|].
  exact (MousePosition_invariant s 100 50 no_pointer m' Sx Sy Hm).
Defined.

Lemma MouseWheel_in_viewer_witness :
  let s := one_view_state in
  let sl := nth 0 (_slots s) (pixel_slot false 0 0 0 0) in
  _screenX s <> 0 /\ _screenY s <> 0 /\
  _slots s = ([] ++ [sl])%list /\
  outside_all [] (ratio 100 (_screenX s)) (ratio (_screenY s - 50) (_screenY s)) = true /\
  in_viewport (_viewer sl) (ratio 100 (_screenX s))
    (ratio (_screenY s - 50) (_screenY s)) = true /\
  outside_all [] (ratio 20 (_screenX s)) (ratio (_screenY s - 30) (_screenY s)) = true /\
  in_viewport (_viewer sl) (ratio 20 (_screenX s))
    (ratio (_screenY s - 30) (_screenY s)) = true /\
  MouseWheel false s 20 30 1 = MouseWheel false s 100 50 1.
Proof.
  intros s sl.
  assert (Sx : _screenX s <> 0) by (vm_compute; discriminate).
  assert (Sy : _screenY s <> 0) by (vm_compute; discriminate).
  assert (H1 : _slots s = ([] ++ [sl])%list) by reflexivity.
  assert (H2 : outside_all [] (ratio 100 (_screenX s))
                 (ratio (_screenY s - 50) (_screenY s)) = true) by reflexivity.
  assert (H3 : in_viewport (_viewer sl) (ratio 100 (_screenX s))
                 (ratio (_screenY s - 50) (_screenY s)) = true)
    by (vm_compute; reflexivity).
  assert (H4 : outside_all [] (ratio 20 (_screenX s))
                 (ratio (_screenY s - 30) (_screenY s)) = true) by reflexivity.
  assert (H5 : in_viewport (_viewer sl) (ratio 20 (_screenX s))
                 (ratio (_screenY s - 30) (_screenY s)) = true)
    by (vm_compute; reflexivity).
  split; [exact Sx|]. split; [exact Sy|]. split; [exact H1|]. split; [exact H2|].
  split; [exact H3|]. split; [exact H4|]. split; [exact H5|].
  pose proof (MouseWheel_in_viewer false s 100 50 20 30 1 [] sl Sx Sy H1 H2 H3 H4 H5) as P.
  cbv zeta in P. destruct P as [_ P]. exact P.
Defined.

(* ===================================================================== *)
(** * Read on any text file *)
(* ===================================================================== *)


(** A line without a key holds no screen key, no key read by [atoi] and no
    interpolation key. *)
Lemma key_in_none (V : bool) (b1 : string) :
  key_in V b1 = false ->
  screen_line b1 = false /\ late_atoi V b1 = false /\
  strstr b1 "targetInterpolationMode" = false /\
  strstr b1 "sourceInterpolationMode" = false.
Proof.
  unfold key_in, plain_keys, screen_line, late_atoi, late_atoi_keys. cbn [existsb].
  intros E.
  repeat match type of E with
         | _ || _ = false =>
             let A := fresh "A" in apply orb_false_iff in E; destruct E as [A E]
         end.
  repeat match goal with
         | A : _ || _ = false |- _ =>
             let B := fresh "B" in apply orb_false_iff in A; destruct A as [A B]
         end.
  repeat match goal with
         | A : strstr b1 _ = false |- _ => rewrite A; clear A
         end.
  rewrite E. repeat split; reflexivity.
Qed.

Section TextFacts.
Context `{ViewerApi} `{MirtkApi} `{CxxIO}.
Variable HAVE_VTK : bool.






(** The checked body returns on a line with an [=], no unknown
    interpolation token and numbers that fit an [int]. *)
Lemma checked_body_returns (l b2 : string) (s : RView) :
  split_line l = Ok b2 -> fatal_line l = false -> ints_fit HAVE_VTK l b2 = true ->
  exists s', checked_body HAVE_VTK l (Some b2) s = Ok s'.
Proof.
  intros Hs Hf Hi. unfold fatal_line in Hf. rewrite Hs in Hf.
  unfold ints_fit in Hi. unfold checked_body.
  pose proof (Read_body_outcome HAVE_VTK l b2 s) as O. rewrite Hf in O.
  destruct O as (s1 & ->). cbn [bind].
  destruct (in_int (atoi b2)); cbn [negb]; rewrite ?andb_false_r.
  - eexists. reflexivity.
  - rewrite orb_false_r in Hi. apply negb_true_iff in Hi.
    apply orb_false_iff in Hi. destruct Hi as [-> ->]. cbn [andb]. eexists. reflexivity.
Qed.

(** The checked body returns on a line without a key, whatever [buffer2]
    is. *)
Lemma checked_body_no_key (b1 : string) (ob : option string) (s : RView) :
  key_in HAVE_VTK b1 = false -> exists s', checked_body HAVE_VTK b1 ob s = Ok s'.
Proof.
  intros Ek. destruct (key_in_none _ _ Ek) as (Es & El & Et & Eu).
  unfold checked_body. destruct ob as [b2|].
  - rewrite Es, El. cbn [andb].
    pose proof (Read_body_outcome HAVE_VTK b1 b2 s) as O. rewrite Et, Eu in O.
    destruct O as (s1 & ->). cbn [bind]. eexists. reflexivity.
  - rewrite Ek.
    pose proof (Read_body_outcome HAVE_VTK b1 EmptyString s) as O. rewrite Et, Eu in O.
    exact O.
Qed.

Lemma Read_text_loop_readable : forall lines rest sk mem o s,
  forallb (readable_line HAVE_VTK) lines = true -> readable_rest HAVE_VTK rest = true ->
  exists s', Read_text_loop HAVE_VTK lines rest sk mem o s = Ok s'.
Proof.
  induction lines as [|l more IH]; intros rest sk mem o s Hl Hr; cbn [Read_text_loop].
  - unfold readable_rest in Hr. apply andb_true_iff in Hr. destruct Hr as [Hs Hr].
    unfold short in Hs. apply negb_true_iff in Hs. rewrite Hs.
    destruct (skipped rest).
    + apply negb_true_iff in Hr. destruct rest as [|c rest'].
      * destruct sk; [apply checked_body_no_key; exact Hr | eexists; reflexivity].
      * apply checked_body_no_key. exact Hr.
    + destruct (split_line rest) as [b2| | |] eqn:E; try discriminate Hr. cbn [bind].
      apply andb_true_iff in Hr. destruct Hr as [Hf Hi]. apply negb_true_iff in Hf.
      apply (checked_body_returns rest b2 s E Hf Hi).
  - cbn [forallb] in Hl. apply andb_true_iff in Hl. destruct Hl as [Hl Hmore].
    unfold readable_line in Hl. apply andb_true_iff in Hl. destruct Hl as [Hs Hl].
    unfold short in Hs. apply negb_true_iff in Hs. rewrite Hs.
    destruct (skipped l); [apply IH; assumption|].
    cbn [orb] in Hl.
    destruct (split_line l) as [b2| | |] eqn:E; try discriminate Hl. cbn [bind].
    apply andb_true_iff in Hl. destruct Hl as [Hf Hi]. apply negb_true_iff in Hf.
    destruct (checked_body_returns l b2 s E Hf Hi) as (s1 & ->). cbn [bind].
    apply IH; assumption.
Qed.

(** X20: [Read] returns.  With layouts of valid viewers, [Read] returns on
    every text file that can be opened and in which every line that ends
    with a newline is shorter than 255 characters and is passed over or has
    an [=], no unknown interpolation token and no number [atoi] reads
    outside the range of [int], and the text behind the last newline is
    empty, or such a line that is not passed over, or passed over and
    without a key. *)
Theorem Read_returns (f : text) (s : RView) :
  valid_layouts ->
  forallb (readable_line HAVE_VTK) (text_lines f) = true ->
  readable_rest HAVE_VTK (text_rest f) = true ->
  exists s', Read_text HAVE_VTK (Some f) s = Ok s'.
Proof.
  intros V Hl Hr.
  destruct (Read_text_loop_readable (text_lines f) (text_rest f) false [] None s Hl Hr)
    as (s1 & E).
  unfold Read_text. rewrite E. cbn [bind]. apply Configure_ok. exact V.
Qed.

(** On a file that ends with a newline, and on the empty file, the loop on
    text files is [Read_loop], as long as the numbers [atoi] reads fit an
    [int]. *)
Lemma Read_text_loop_newline : forall lines sk mem o s,
  Forall (fun b => ints_fit HAVE_VTK (fst b) (snd b) = true) (Read_lines lines sk) ->
  Read_text_loop HAVE_VTK lines EmptyString sk mem o s = Read_loop HAVE_VTK lines sk s.
Proof.
  assert (Fit : forall b1 b2 s, ints_fit HAVE_VTK b1 b2 = true ->
            checked_body HAVE_VTK b1 (Some b2) s = Read_body HAVE_VTK b1 b2 s).
  { intros b1 b2 s Hi. unfold ints_fit in Hi. unfold checked_body.
    destruct (in_int (atoi b2)); cbn [negb]; rewrite ?andb_false_r.
    - destruct (Read_body HAVE_VTK b1 b2 s); reflexivity.
    - rewrite orb_false_r in Hi. apply negb_true_iff in Hi.
      apply orb_false_iff in Hi. destruct Hi as [-> ->]. cbn [andb].
      destruct (Read_body HAVE_VTK b1 b2 s); reflexivity. }
  assert (Empty : forall ob s,
            checked_body HAVE_VTK EmptyString ob s =
            Read_body HAVE_VTK EmptyString EmptyString s).
  { intros ob s. unfold checked_body, key_in, late_atoi, Read_body.
    destruct ob as [b2|]; destruct HAVE_VTK; reflexivity. }
  induction lines as [|l more IH]; intros sk mem o s F; cbn [Read_text_loop Read_loop].
  - cbn [String.length Nat.leb skipped]. destruct sk; [apply Empty | reflexivity].
  - cbn [Read_lines] in F. destruct (Nat.leb 255 (String.length l)).
    + destruct (skipped (substring 0 254 l)); [reflexivity|].
      destruct (split_line (substring 0 254 l)) as [b2| | |]; cbn [bind]; try reflexivity.
      inversion F as [|? ? I _]; subst. cbn [fst snd] in I. apply Fit. exact I.
    + destruct (skipped l); [apply IH; exact F|].
      destruct (split_line l) as [b2| | |]; cbn [bind]; try reflexivity.
      inversion F as [|? ? I F']; subst. cbn [fst snd] in I. rewrite (Fit _ _ _ I).
      destruct (Read_body HAVE_VTK l b2 s) as [s1| | |]; cbn [bind]; try reflexivity.
      apply IH. exact F'.
Qed.

Lemma Read_text_newline (lines : list string) (s : RView) :
  Forall (fun b => ints_fit HAVE_VTK (fst b) (snd b) = true) (Read_lines lines false) ->
  Read_text HAVE_VTK (Some (mkText lines EmptyString)) s = Read HAVE_VTK (Some lines) s.
Proof.
  intros F. unfold Read_text, Read. cbn [text_lines text_rest].
  rewrite (Read_text_loop_newline lines false [] None s F). reflexivity.
Qed.

End TextFacts.


Lemma Read_returns_witness :
  let f := mkText screen_file "# end of the file" in
  valid_layouts /\ forallb (readable_line false) (text_lines f) = true /\
  readable_rest false (text_rest f) = true /\
  exists s', Read_text false (Some f) small_state = Ok s'.
Proof.
  intros f.
  split; [exact demo_valid_layouts|]. split; [vm_compute; reflexivity|].
  split; [vm_compute; reflexivity|].
  apply (Read_returns false f small_state demo_valid_layouts); vm_compute; reflexivity.
Defined.
